(** * webrtc-signaling-server.py: connection registry, room allocation and
    message routing.

    Shallow embedding of [ConnectionManager] and of the [/ws] endpoint
    ([websocket_endpoint]) of [webrtc-signaling-server.py].

    Modelling conventions.
    - Python [int] is [Z]; a Python [dict] keyed by client id is a
      [gmap Z _].  The dicts of the manager are only ever filled with the
      ids handed out by [client_counter], so Python's insertion order is the
      ascending id order.  The loop of [broadcast], where the order decides
      which sends come before a failure of the loop, enumerates
      [active_connections] in that order ([dict_keys]).  The comprehension
      of [get_peers_in_room] and the loop of [get_rooms_info] are written
      over [map_to_list], which enumerates in another order: the statements
      about them are about membership and counts.
    - A JSON frame is a [gmap string json]; JSON numbers are integers here
      (floating point numbers are outside the model).
    - Python's builtin [int] applied to a [str] is the section variable
      [int_of_str]; on the other JSON values [py_int] spells it out.
    - A room id is a [string] (the wire contract types [roomId] as a
      string).  A first frame whose [roomId] is a truthy non-string value is
      outside the model: [requested_room_of] answers [None] and the join
      step is not enabled.
    - The endpoint runs as one coroutine per connection.  A [Handler] is a
      run of a piece of the endpoint during whose sends no other coroutine
      changes the manager, and the server of [step] takes its handlers one
      after the other.  The part on interleaving has the runs in general
      ([Live]): what the other coroutines do to the manager while a
      [send_json] is awaited is an input of the run, and the iterator of
      the loop of [broadcast] raises when they have changed the number of
      connections.  Whether a [send_json] on the socket of client [c]
      raises is given by an oracle [fails c].
    - The [while True] probe loop of [find_available_room] takes fuel; the
      termination theorem gives the fuel that suffices. *)

From stdpp Require Import gmap strings list fin_maps pretty sorting.

Local Open Scope string_scope.
Local Open Scope Z_scope.
Local Open Scope list_scope.

(** ** JSON values and the Python operations used on them *)

#[warnings="-register-all"]
Inductive json : Type :=
  | JNull
  | JBool (b : bool)
  | JInt (n : Z)
  | JStr (s : string)
  | JArr (elts : list json)
  | JObj (fields : list (string * json)).

Abbreviation message := (gmap string json).

(** Python truthiness ([if v:], [a or b]). *)
Definition truthy (v : json) : bool :=
  match v with
  | JNull => false
  | JBool b => b
  | JInt n => negb (n =? 0)
  | JStr s => negb (String.eqb s "")
  | JArr l => match l with [] => false | _ => true end
  | JObj l => match l with [] => false | _ => true end
  end.

(** [d.get(k)]: [None] (here [JNull]) when the key is absent. *)
Definition dict_get (d : message) (k : string) : json := default JNull (d !! k).

(** [d.get(k, dflt)]. *)
Definition dict_get_default (d : message) (k : string) (dflt : json) : json :=
  default dflt (d !! k).

(** [a or b]. *)
Definition py_or (a b : json) : json := if truthy a then a else b.

(** ** The connection manager *)

Definition WebSocket := N.

Record ConnectionManager : Type := mkManager {
  active_connections : gmap Z WebSocket;
  client_names : gmap Z json;
  client_rooms : gmap Z string;
  client_ips : gmap Z string;
  client_counter : Z;
  max_peers_per_room : Z
}.

(** [ConnectionManager.__init__]. *)
Definition new_manager (max_peers : Z) : ConnectionManager :=
  mkManager ∅ ∅ ∅ ∅ 0 max_peers.

(** [if k in d: del d[k]]. *)
Definition del_if_present {V} (k : Z) (d : gmap Z V) : gmap Z V :=
  if decide (is_Some (d !! k)) then delete k d else d.

(** [ConnectionManager.disconnect]. *)
Definition disconnect (m : ConnectionManager) (client_id : Z) : ConnectionManager :=
  if decide (is_Some (active_connections m !! client_id)) then
    mkManager (delete client_id (active_connections m))
              (del_if_present client_id (client_names m))
              (del_if_present client_id (client_rooms m))
              (del_if_present client_id (client_ips m))
              (client_counter m) (max_peers_per_room m)
  else m.

(** [ConnectionManager.register_client]; [peer_name] is stored only when it
    is truthy. *)
Definition register_client (m : ConnectionManager) (client_id : Z)
    (room_id : string) (websocket : WebSocket) (ip_address : string)
    (peer_name : json) : ConnectionManager :=
  mkManager (<[client_id := websocket]> (active_connections m))
            (if truthy peer_name then <[client_id := peer_name]> (client_names m)
             else client_names m)
            (<[client_id := room_id]> (client_rooms m))
            (<[client_id := ip_address]> (client_ips m))
            (client_counter m) (max_peers_per_room m).

(** The comprehension of [get_peers_in_room], on the room dict alone. *)
Definition peers_of (rooms : gmap Z string) (room_id : string) : list Z :=
  (filter (λ p : Z * string, p.2 = room_id) (map_to_list rooms)).*1.

(** [ConnectionManager.get_peers_in_room]. *)
Definition get_peers_in_room (m : ConnectionManager) (room_id : string) : list Z :=
  peers_of (client_rooms m) room_id.

(** [f"{requested_room}_{overflow_index}"]. *)
Definition overflow_name (requested_room : string) (overflow_index : Z) : string :=
  requested_room +:+ "_" +:+ pretty overflow_index.

(** [len(self.get_peers_in_room(room)) < self.max_peers_per_room]. *)
Definition has_space (m : ConnectionManager) (room_id : string) : Prop :=
  Z.of_nat (length (get_peers_in_room m room_id)) < max_peers_per_room m.

Global Instance has_space_dec m room_id : Decision (has_space m room_id).
Proof. unfold has_space. apply _. Defined.

(** The [while True] loop of [find_available_room], started at
    [overflow_index]; [None] when the fuel runs out. *)
Fixpoint find_overflow_room (fuel : nat) (m : ConnectionManager)
    (requested_room : string) (overflow_index : Z) : option (string * bool) :=
  match fuel with
  | O => None
  | S fuel' =>
      let overflow_room := overflow_name requested_room overflow_index in
      if decide (has_space m overflow_room) then Some (overflow_room, true)
      else find_overflow_room fuel' m requested_room (overflow_index + 1)
  end.

(** [ConnectionManager.find_available_room]. *)
Definition find_available_room (fuel : nat) (m : ConnectionManager)
    (requested_room : string) : option (string * bool) :=
  if decide (has_space m requested_room) then Some (requested_room, false)
  else find_overflow_room fuel m requested_room 1.

(** ** The room report *)

(** One element of [rooms[room_id]['peers']]: the keys ['id'], ['name'] and
    ['ip']. *)
Record peer_entry : Type := PeerEntry {
  entry_id : Z;
  entry_name : json;
  entry_ip : string
}.

(** One value of the [rooms] dict of [get_rooms_info]: the keys ['peers'],
    ['count'] and ['max_peers']. *)
Record room_info : Type := RoomInfo {
  info_peers : list peer_entry;
  info_count : Z;
  info_max_peers : Z
}.

(** What [get_rooms_info] returns: the keys ['total_clients'],
    ['total_rooms'] and ['rooms']. *)
Record rooms_report : Type := RoomsReport {
  report_total_clients : Z;
  report_total_rooms : Z;
  report_rooms : gmap string room_info
}.

(** The entry [get_rooms_info] appends for a client: the stored name or
    [f"Client-{client_id}"], the stored address or ["Unknown"]. *)
Definition entry_of (m : ConnectionManager) (client_id : Z) : peer_entry :=
  PeerEntry client_id
    (default (JStr ("Client-" +:+ pretty client_id)) (client_names m !! client_id))
    (default "Unknown" (client_ips m !! client_id)).

(** The body of the [for] loop of [get_rooms_info] for one item of
    [client_rooms], on the dict [rooms] built so far. *)
Definition rooms_info_body (m : ConnectionManager)
    (rooms : gmap string room_info) (item : Z * string) : gmap string room_info :=
  let '(client_id, room_id) := item in
  let rooms :=
    if decide (is_Some (rooms !! room_id)) then rooms
    else <[room_id := RoomInfo [] 0 (max_peers_per_room m)]> rooms in
  alter (λ info,
           let peers := info_peers info ++ [entry_of m client_id] in
           RoomInfo peers (Z.of_nat (length peers)) (info_max_peers info))
        room_id rooms.

(** [ConnectionManager.get_rooms_info]. *)
Definition get_rooms_info (m : ConnectionManager) : rooms_report :=
  let rooms := foldl (rooms_info_body m) ∅ (map_to_list (client_rooms m)) in
  RoomsReport (Z.of_nat (size (active_connections m)))
              (Z.of_nat (size rooms)) rooms.

(** ** Outbound traffic *)

(** One [send_json] attempt: the client whose socket is written and the
    frame.  The attempt reaches the client when the oracle says the socket
    does not raise. *)
Record send : Type := Send { send_to : Z; send_body : message }.

(** [ConnectionManager.send_personal_message]: an exception of the socket
    is caught and logged, nothing else happens. *)
Definition send_personal_message (m : ConnectionManager) (msg : message)
    (client_id : Z) : list send :=
  if decide (is_Some (active_connections m !! client_id))
  then [Send client_id msg] else [].

(** The keys of a dict of the manager in the order in which Python
    enumerates them: the order of insertion, which for these dicts is the
    ascending order of the ids. *)
Definition dict_keys {A} (d : gmap Z A) : list Z :=
  merge_sort Z.le (map_to_list d).*1.

(** The body of the [for] loop of [broadcast] for one item of
    [active_connections], on the loop state: the sends so far and
    [disconnected_clients].  The [except] of the body catches the socket
    that raises and notes its client. *)
Definition broadcast_body (fails : Z → bool) (m : ConnectionManager)
    (msg : message) (exclude_client_id : option Z) (room_id : option string)
    (acc : list send * list Z) (client_id : Z) : list send * list Z :=
  let '(out, disconnected_clients) := acc in
  if decide (Some client_id ≠ exclude_client_id) then
    if decide (room_id = None ∨ client_rooms m !! client_id = room_id) then
      (out ++ [Send client_id msg],
       if fails client_id then disconnected_clients ++ [client_id]
       else disconnected_clients)
    else acc
  else acc.

(** [ConnectionManager.broadcast] when no other coroutine changes the
    manager while it sends: the loop over [active_connections], then the
    [disconnect] of every client in [disconnected_clients].  The loop with
    the other coroutines is [broadcast], in the part on interleaving. *)
Definition broadcast_quiet (fails : Z → bool) (m : ConnectionManager)
    (msg : message) (exclude_client_id : option Z) (room_id : option string)
    : ConnectionManager * list send :=
  let '(out, disconnected_clients) :=
    foldl (broadcast_body fails m msg exclude_client_id room_id) ([], [])
          (dict_keys (active_connections m)) in
  (foldl disconnect m disconnected_clients, out).

(** ** Handlers: manager state, sends so far, and exceptions *)

(** A piece of handler code, run with no other coroutine changing the
    manager during its sends: from the manager to the new manager, the
    sends it attempted, and its value, [None] when it raised. *)
Definition Handler (A : Type) : Type :=
  ConnectionManager → ConnectionManager * list send * option A.

Definition hret {A} (a : A) : Handler A := λ m, (m, [], Some a).

Definition hbind {A B} (h : Handler A) (k : A → Handler B) : Handler B := λ m,
  match h m with
  | (m1, s1, Some a) => let '(m2, s2, r) := k a m1 in (m2, s1 ++ s2, r)
  | (m1, s1, None) => (m1, s1, None)
  end.

Notation "x <~ h ;; k" := (hbind h (λ x, k))
  (at level 100, h at next level, right associativity, only parsing).
Notation "h ;;; k" := (hbind h (λ _, k))
  (at level 100, right associativity, only parsing).

(** Read the manager. *)
Definition hget {A} (f : ConnectionManager → A) : Handler A :=
  λ m, (m, [], Some (f m)).

(** Mutate the manager. *)
Definition hmodify (f : ConnectionManager → ConnectionManager) : Handler unit :=
  λ m, (f m, [], Some tt).

(** A value that may have raised. *)
Definition hlift {A} (o : option A) : Handler A := λ m, (m, [], o).

(** [await websocket.send_json(msg)] on the session's own socket: raises
    when the socket does. *)
Definition ws_send (fails : Z → bool) (client_id : Z) (msg : message)
    : Handler unit :=
  λ m, (m, [Send client_id msg], if fails client_id then None else Some tt).

Definition hpersonal (msg : message) (client_id : Z) : Handler unit :=
  λ m, (m, send_personal_message m msg client_id, Some tt).

(** [await manager.broadcast(...)] with nothing in between. *)
Definition hbroadcast (fails : Z → bool) (msg : message)
    (exclude_client_id : option Z) (room_id : option string) : Handler unit :=
  λ m, let '(m', s) := broadcast_quiet fails m msg exclude_client_id room_id in
       (m', s, Some tt).

(** [try: body  except ...: handler]: the handler runs on the manager as
    the body left it. *)
Definition protect {A} (body : Handler A) (handler : Handler unit) : Handler A :=
  λ m,
  match body m with
  | (m1, s1, Some a) => (m1, s1, Some a)
  | (m1, s1, None) => let '(m2, s2, _) := handler m1 in (m2, s1 ++ s2, None)
  end.

(** ** The [/ws] endpoint *)

(** [message_type in ["offer", "answer", "ice-candidate"]]. *)
Definition is_signaling (message_type : json) : bool :=
  match message_type with
  | JStr s => bool_decide (s ∈ ["offer"; "answer"; "ice-candidate"])
  | _ => false
  end.

(** [message_type == s] for a string literal [s]. *)
Definition is_type (message_type : json) (s : string) : bool :=
  match message_type with
  | JStr t => bool_decide (t = s)
  | _ => false
  end.

(** [first_data.get("roomId") or "default"], for a string-typed [roomId]. *)
Definition requested_room_of (first_data : message) : option string :=
  match py_or (dict_get first_data "roomId") (JStr "default") with
  | JStr s => Some s
  | _ => None
  end.

(** [first_data.get("peerName") or first_data.get("name")]. *)
Definition peer_name_of (first_data : message) : json :=
  py_or (dict_get first_data "peerName") (dict_get first_data "name").

Definition welcome_msg (client_id total_clients peers_count : Z)
    (room_id : string) : message :=
  {[ "type" := JStr "welcome"; "clientId" := JInt client_id;
     "totalClients" := JInt total_clients; "peersInRoom" := JInt peers_count;
     "roomId" := JStr room_id ]}.

Definition room_redirect_msg (requested_room : string) (max_peers : Z)
    (room_id : string) : message :=
  {[ "type" := JStr "room-redirect";
     "message" := JStr ("Room '" +:+ requested_room +:+ "' is full (max " +:+
                        pretty max_peers +:+
                        " peers). You have been placed in overflow room '" +:+
                        room_id +:+ "'.");
     "originalRoom" := JStr requested_room; "assignedRoom" := JStr room_id ]}.

Definition peer_connected_msg (client_id : Z) (peer_name : json)
    (total_clients peers_in_room : Z) : message :=
  {[ "type" := JStr "peer-connected"; "clientId" := JInt client_id;
     "peerName" := peer_name; "totalClients" := JInt total_clients;
     "peersInRoom" := JInt peers_in_room ]}.

Definition peer_disconnected_msg (client_id total_clients peers_in_room : Z)
    : message :=
  {[ "type" := JStr "peer-disconnected"; "clientId" := JInt client_id;
     "totalClients" := JInt total_clients;
     "peersInRoom" := JInt peers_in_room ]}.

Definition chat_msg (data : message) (client_id : Z) : message :=
  {[ "type" := JStr "chat"; "text" := dict_get_default data "text" (JStr "");
     "senderId" := JInt client_id;
     "senderName" := dict_get_default data "senderName"
                       (JStr ("Client " +:+ pretty client_id));
     "timestamp" := dict_get data "timestamp" ]}.

Definition mute_state_msg (data : message) (client_id : Z) : message :=
  {[ "type" := JStr "mute-state"; "senderId" := JInt client_id;
     "isMuted" := dict_get_default data "isMuted" (JBool false) ]}.

Definition peer_list_msg (peer_list : list Z) : message :=
  {[ "type" := JStr "peer-list"; "peers" := JArr (JInt <$> peer_list) ]}.

(** [{**data, "senderId": client_id}]. *)
Definition with_sender (data : message) (client_id : Z) : message :=
  <["senderId" := JInt client_id]> data.

(** [len(manager.active_connections)]. *)
Definition total_clients (m : ConnectionManager) : Z :=
  Z.of_nat (size (active_connections m)).

(** The block the endpoint repeats for a targeted frame: the target must
    have the session's room in [client_rooms] and be in
    [active_connections]; then [send_personal_message]. *)
Definition forward_to_target (data : message) (client_id : Z)
    (room_id : string) (target_id : Z) : Handler unit :=
  λ m,
  if decide (client_rooms m !! target_id = Some room_id) then
    if decide (is_Some (active_connections m !! target_id))
    then hpersonal (with_sender data client_id) target_id m
    else hret tt m
  else hret tt m.

(** [manager.client_names[client_id] = v]. *)
Definition set_client_name (m : ConnectionManager) (client_id : Z) (v : json)
    : ConnectionManager :=
  mkManager (active_connections m) (<[client_id := v]> (client_names m))
            (client_rooms m) (client_ips m)
            (client_counter m) (max_peers_per_room m).

(** [manager.client_counter = n]. *)
Definition set_client_counter (m : ConnectionManager) (n : Z) : ConnectionManager :=
  mkManager (active_connections m) (client_names m) (client_rooms m)
            (client_ips m) n (max_peers_per_room m).

(** The [except] branches of the endpoint (both have the same body), for a
    session whose locals are [client_id] and [room_id]. *)
Definition cleanup (fails : Z → bool) (client_id : Z) (room_id : string)
    : Handler unit :=
  if decide (client_id ≠ 0) then
    hmodify (λ m, disconnect m client_id) ;;;
    if decide (room_id ≠ "") then
      msg <~ hget (λ m, peer_disconnected_msg client_id (total_clients m)
                     (Z.of_nat (length (get_peers_in_room m room_id)))) ;;
      hbroadcast fails msg (Some client_id) (Some room_id)
    else hret tt
  else hret tt.

Section Endpoint.

(** Python's [int] on a [str]. *)
Variable int_of_str : string → option Z.

(** [int(v)] for a JSON value [v]; [None] when it raises. *)
Definition py_int (v : json) : option Z :=
  match v with
  | JInt n => Some n
  | JBool b => Some (if b then 1 else 0)
  | JStr s => int_of_str s
  | JNull | JArr _ | JObj _ => None
  end.

(** Lines 267-281: the first frame, when it is itself a signaling
    message.  There is no branch for an absent [targetId]. *)
Definition process_first_message (first_data : message) (client_id : Z)
    (room_id : string) : Handler unit :=
  let message_type := dict_get_default first_data "type" (JStr "unknown") in
  if is_signaling message_type then
    match dict_get first_data "targetId" with
    | JNull => hret tt
    | target_id =>
        target_id <~ hlift (py_int target_id) ;;
        forward_to_target first_data client_id room_id target_id
    end
  else hret tt.

(** Lines 289-291: ["peerName" in data and client_id]. *)
Definition update_peer_name (data : message) (client_id : Z) : Handler unit :=
  hmodify (λ m,
    match data !! "peerName" with
    | Some v => if decide (client_id ≠ 0) then set_client_name m client_id v
                else m
    | None => m
    end).

(** Lines 296-366: the dispatch on [message_type]. *)
Definition dispatch (fails : Z → bool) (data : message) (client_id : Z)
    (room_id : string) : Handler unit :=
  let message_type := dict_get_default data "type" (JStr "unknown") in
  if is_signaling message_type then
    target_id <~ match dict_get data "targetId" with
                 | JNull => hret None
                 | v => t <~ hlift (py_int v) ;; hret (Some t)
                 end ;;
    match target_id with
    | Some t =>
        if decide (t ≠ 0) then forward_to_target data client_id room_id t
        else hbroadcast fails (with_sender data client_id)
                        (Some client_id) (Some room_id)
    | None => hbroadcast fails (with_sender data client_id)
                         (Some client_id) (Some room_id)
    end
  else if is_type message_type "chat" then
    hbroadcast fails (chat_msg data client_id) (Some client_id) (Some room_id)
  else if is_type message_type "mute-state" then
    hbroadcast fails (mute_state_msg data client_id)
               (Some client_id) (Some room_id)
  else if is_type message_type "screen-share-stopped" then
    match dict_get data "targetId" with
    | JNull => hret tt
    | target_id =>
        target_id <~ hlift (py_int target_id) ;;
        forward_to_target data client_id room_id target_id
    end
  else if is_type message_type "get-peers" then
    peer_list <~ hget (λ m, filter (λ cid, cid ≠ client_id)
                               (get_peers_in_room m room_id)) ;;
    ws_send fails client_id (peer_list_msg peer_list)
  else hret tt.

(** One turn of the [while True] loop on a frame that was read, inside
    the [try]. *)
Definition on_message (fails : Z → bool) (client_id : Z) (room_id : string)
    (data : message) : Handler unit :=
  protect (update_peer_name data client_id ;;;
           dispatch fails data client_id room_id)
          (cleanup fails client_id room_id).

(** The turn of the loop raised before the dispatch: [receive_json] did
    ([WebSocketDisconnect], or a frame that is no JSON text), or [data.get]
    did (a frame that is no object). *)
Definition on_receive_error (fails : Z → bool) (client_id : Z)
    (room_id : string) : Handler unit :=
  cleanup fails client_id room_id.

(** Lines 221-281, from the first frame on.  The result is [None] when the
    probe loop runs out of fuel (or the [roomId] is outside the model);
    otherwise the manager, the sends, and the session's locals
    [(client_id, room_id)] when the session enters the message loop. *)
Definition join (fuel : nat) (fails : Z → bool) (websocket : WebSocket)
    (client_ip : string) (first_data : message) (m : ConnectionManager)
    : option (ConnectionManager * list send * option (Z * string)) :=
  let peer_name := peer_name_of first_data in
  match requested_room_of first_data with
  | None => None
  | Some requested_room =>
  match find_available_room fuel m requested_room with
  | None => None
  | Some (room_id, was_redirected) =>
  let client_id := client_counter m + 1 in
  let m1 := set_client_counter m client_id in
  let m2 := register_client m1 client_id room_id websocket client_ip peer_name in
  let peers_in_room := get_peers_in_room m2 room_id in
  let peers_count := Z.of_nat (length peers_in_room) - 1 in
  Some (protect
    (ws_send fails client_id
       (welcome_msg client_id (total_clients m2) peers_count room_id) ;;;
     (if was_redirected : bool then
        ws_send fails client_id
          (room_redirect_msg requested_room (max_peers_per_room m2) room_id)
      else hret tt) ;;;
     msg <~ hget (λ m, peer_connected_msg client_id peer_name (total_clients m)
                    (Z.of_nat (length peers_in_room))) ;;
     hbroadcast fails msg (Some client_id) (Some room_id) ;;;
     process_first_message first_data client_id room_id ;;;
     hret (client_id, room_id))
    (cleanup fails client_id room_id) m2)
  end
  end.

(** ** The server: the manager and the live sessions

    A session in its message loop holds the locals [client_id] and
    [room_id] of its coroutine; [sessions] maps the one to the other.  A
    session stays live after a failed broadcast removed its client from
    the manager: only its own [receive_json] ends it. *)

Record system : Type := mkSystem {
  mgr : ConnectionManager;
  sessions : gmap Z string
}.

(** The frames a handler reacts to.  A connection whose first
    [receive_json] raises, or whose first frame is no object, has no id yet
    and the [except] branches do nothing for it: it is no event.
    [EvMessage] is a frame of the message loop that is an object.
    [EvClosed] is a turn of the message loop that raises before the
    dispatch: [receive_json] raised, or the frame is no object (see
    [frame_event]). *)
Inductive event : Type :=
  | EvJoin (websocket : WebSocket) (client_ip : string) (first_data : message)
  | EvMessage (client_id : Z) (data : message)
  | EvClosed (client_id : Z).

(** One handler run.  [None]: the event is not enabled (no such live
    session, or the join did not return within the fuel). *)
Definition step (fuel : nat) (fails : Z → bool) (st : system) (ev : event)
    : option (system * list send) :=
  match ev with
  | EvJoin websocket client_ip first_data =>
      match join fuel fails websocket client_ip first_data (mgr st) with
      | Some (m', out, Some (client_id, room_id)) =>
          Some (mkSystem m' (<[client_id := room_id]> (sessions st)), out)
      | Some (m', out, None) => Some (mkSystem m' (sessions st), out)
      | None => None
      end
  | EvMessage client_id data =>
      match sessions st !! client_id with
      | Some room_id =>
          match on_message fails client_id room_id data (mgr st) with
          | (m', out, Some _) => Some (mkSystem m' (sessions st), out)
          | (m', out, None) =>
              Some (mkSystem m' (delete client_id (sessions st)), out)
          end
      | None => None
      end
  | EvClosed client_id =>
      match sessions st !! client_id with
      | Some room_id =>
          let '(m', out, _) :=
            on_receive_error fails client_id room_id (mgr st) in
          Some (mkSystem m' (delete client_id (sessions st)), out)
      | None => None
      end
  end.

(** The states of a server started with [--max-peers max_peers]. *)
Inductive reachable (max_peers : Z) : system → Prop :=
  | reachable_init : reachable max_peers (mkSystem (new_manager max_peers) ∅)
  | reachable_step st fuel fails ev st' out :
      reachable max_peers st →
      step fuel fails st ev = Some (st', out) →
      reachable max_peers st'.

(** The states that follow a given one. *)
Inductive follows (st : system) : system → Prop :=
  | follows_refl : follows st st
  | follows_step st1 fuel fails ev st2 out :
      follows st st1 →
      step fuel fails st1 ev = Some (st2, out) →
      follows st st2.

End Endpoint.

(** ** Frames that are no objects *)

(** What [receive_json] hands to the endpoint is what [json.loads] made of
    the frame; only a dict has the [get] the endpoint calls on it.  For a
    key that occurs twice [json.loads] keeps the last value. *)
Definition as_object (v : json) : option message :=
  match v with
  | JObj fields => Some (list_to_map (reverse fields))
  | JNull | JBool _ | JInt _ | JStr _ | JArr _ => None
  end.

(** The event that a frame read in the message loop is.  On a value that
    is no dict [data.get] (line 287) raises [AttributeError] inside the
    [try]; the [except Exception] branch that catches it has the body of
    the [WebSocketDisconnect] branch. *)
Definition frame_event (client_id : Z) (v : json) : event :=
  match as_object v with
  | Some data => EvMessage client_id data
  | None => EvClosed client_id
  end.

(** The event that the first frame of a connection is.  On a value that is
    no dict [first_data.get] (line 222) raises while [client_id] is still
    [None]: the [except] branch does nothing and the connection ends
    without a step of the server. *)
Definition first_frame_event (websocket : WebSocket) (client_ip : string)
    (v : json) : option event :=
  match as_object v with
  | Some first_data => Some (EvJoin websocket client_ip first_data)
  | None => None
  end.

(** ** Interleaving: the endpoint as one coroutine among others

    Every connection runs [websocket_endpoint] as a coroutine of its own,
    and all of them share the manager.  A coroutine runs alone from one
    [await] to the next; while it is suspended in the [send_json] of a
    frame the others run, and they register and disconnect clients.  A
    [Handler] above is a run during whose sends nothing of the kind
    happens.  A [Live] handler is a run in general: it takes what the other
    coroutines do to the manager during its sends from a list, one entry
    for each send in turn, and nothing interferes once the list is used
    up. *)

(** What the other coroutines do to the manager during one send. *)
Definition interference : Type := ConnectionManager → ConnectionManager.

(** The manager, and what is still to happen to it during the sends to
    come. *)
Record world : Type := World {
  manager : ConnectionManager;
  pending : list interference
}.

(** The coroutine is suspended in an [await] of a [send_json] and resumed:
    meanwhile the others have run. *)
Definition suspend (w : world) : world :=
  match pending w with
  | [] => w
  | f :: rest => World (f (manager w)) rest
  end.

(** A piece of handler code run among the other coroutines: the world
    after it, the sends it attempted and its value, [None] when it raised.
    The result is [None] where the model does not say what Python does (see
    [iter_check]) and where the join is outside the model. *)
Definition Live (A : Type) : Type :=
  world → option (world * list send * option A).

Definition lret {A} (a : A) : Live A := λ w, Some (w, [], Some a).

Definition lbind {A B} (h : Live A) (k : A → Live B) : Live B := λ w,
  match h w with
  | Some (w1, s1, Some a) =>
      match k a w1 with
      | Some (w2, s2, r) => Some (w2, s1 ++ s2, r)
      | None => None
      end
  | Some (w1, s1, None) => Some (w1, s1, None)
  | None => None
  end.

Notation "x <<~ h ;; k" := (lbind h (λ x, k))
  (at level 100, h at next level, right associativity, only parsing).
Notation "h ;;~ k" := (lbind h (λ _, k))
  (at level 100, right associativity, only parsing).

Definition lget {A} (f : ConnectionManager → A) : Live A :=
  λ w, Some (w, [], Some (f (manager w))).

Definition lmodify (f : ConnectionManager → ConnectionManager) : Live unit :=
  λ w, Some (World (f (manager w)) (pending w), [], Some tt).

Definition llift {A} (o : option A) : Live A := λ w, Some (w, [], o).

(** [try: body  except ...: handler]; an exception of the handler leaves
    the endpoint, which has ended either way. *)
Definition lprotect {A} (body : Live A) (handler : Live unit) : Live A := λ w,
  match body w with
  | Some (w1, s1, Some a) => Some (w1, s1, Some a)
  | Some (w1, s1, None) =>
      match handler w1 with
      | Some (w2, s2, _) => Some (w2, s1 ++ s2, None)
      | None => None
      end
  | None => None
  end.

(** [await websocket.send_json(msg)] on the session's own socket. *)
Definition live_send (fails : Z → bool) (client_id : Z) (msg : message)
    : Live unit :=
  λ w, Some (suspend w, [Send client_id msg],
             if fails client_id then None else Some tt).

(** [await manager.send_personal_message(msg, client_id)]: one awaited
    send when the client is connected, its exception caught. *)
Definition live_personal (msg : message) (client_id : Z) : Live unit := λ w,
  if decide (is_Some (active_connections (manager w) !! client_id))
  then Some (suspend w, [Send client_id msg], Some tt)
  else Some (w, [], Some tt).

(** The test the iterator of [active_connections.items()] makes each time
    the [for] asks it for the next item, the last time included: the dict
    must have the size it had when the loop began ([m0]), or the iterator
    raises [RuntimeError: dictionary changed size during iteration]
    ([Some false]).  With the size kept and the same keys the loop goes on
    ([Some true]).  With the size kept and other keys, what the iterator
    yields depends on the layout of the dict: the model does not say
    ([None]). *)
Definition iter_check (m0 m : ConnectionManager) : option bool :=
  if decide (size (active_connections m) = size (active_connections m0)) then
    if decide (dom (active_connections m) =@{gset Z} dom (active_connections m0))
    then Some true else None
  else Some false.

(** The [for] loop of [broadcast] from the items still to come, on the
    sends so far and [disconnected_clients]: the value is [None] when the
    iterator raised, which no [except] of [broadcast] catches.  The guard
    reads [client_rooms] as it is when the item comes up; the coroutine is
    suspended in each send. *)
Fixpoint broadcast_from (fails : Z → bool) (m0 : ConnectionManager)
    (msg : message) (exclude_client_id : option Z) (room_id : option string)
    (items : list Z) (acc : list send * list Z) (w : world)
    : option (world * list send * option (list Z)) :=
  match iter_check m0 (manager w) with
  | None => None
  | Some false => Some (w, acc.1, None)
  | Some true =>
      match items with
      | [] => Some (w, acc.1, Some acc.2)
      | client_id :: items =>
          if decide (Some client_id ≠ exclude_client_id) then
            if decide (room_id = None ∨
                       client_rooms (manager w) !! client_id = room_id) then
              broadcast_from fails m0 msg exclude_client_id room_id items
                (acc.1 ++ [Send client_id msg],
                 if fails client_id then acc.2 ++ [client_id] else acc.2)
                (suspend w)
            else broadcast_from fails m0 msg exclude_client_id room_id items acc w
          else broadcast_from fails m0 msg exclude_client_id room_id items acc w
      end
  end.

(** [ConnectionManager.broadcast]: the loop over the items of
    [active_connections] and, when the loop came to its end, the
    [disconnect] of every client in [disconnected_clients]. *)
Definition broadcast (fails : Z → bool) (msg : message)
    (exclude_client_id : option Z) (room_id : option string) : Live unit := λ w,
  match broadcast_from fails (manager w) msg exclude_client_id room_id
          (dict_keys (active_connections (manager w))) ([], []) w with
  | Some (w', out, Some disconnected_clients) =>
      Some (World (foldl disconnect (manager w') disconnected_clients)
              (pending w'), out, Some tt)
  | Some (w', out, None) => Some (w', out, None)
  | None => None
  end.

(** The block the endpoint repeats for a targeted frame. *)
Definition live_forward_to_target (data : message) (client_id : Z)
    (room_id : string) (target_id : Z) : Live unit := λ w,
  if decide (client_rooms (manager w) !! target_id = Some room_id) then
    if decide (is_Some (active_connections (manager w) !! target_id))
    then live_personal (with_sender data client_id) target_id w
    else lret tt w
  else lret tt w.

(** The [except] branches of the endpoint. *)
Definition live_cleanup (fails : Z → bool) (client_id : Z) (room_id : string)
    : Live unit :=
  if decide (client_id ≠ 0) then
    lmodify (λ m, disconnect m client_id) ;;~
    if decide (room_id ≠ "") then
      msg <<~ lget (λ m, peer_disconnected_msg client_id (total_clients m)
                      (Z.of_nat (length (get_peers_in_room m room_id)))) ;;
      broadcast fails msg (Some client_id) (Some room_id)
    else lret tt
  else lret tt.

Section LiveEndpoint.

Variable int_of_str : string → option Z.

(** Lines 267-281. *)
Definition live_process_first_message (first_data : message) (client_id : Z)
    (room_id : string) : Live unit :=
  let message_type := dict_get_default first_data "type" (JStr "unknown") in
  if is_signaling message_type then
    match dict_get first_data "targetId" with
    | JNull => lret tt
    | target_id =>
        target_id <<~ llift (py_int int_of_str target_id) ;;
        live_forward_to_target first_data client_id room_id target_id
    end
  else lret tt.

(** Lines 289-291. *)
Definition live_update_peer_name (data : message) (client_id : Z) : Live unit :=
  lmodify (λ m,
    match data !! "peerName" with
    | Some v => if decide (client_id ≠ 0) then set_client_name m client_id v
                else m
    | None => m
    end).

(** Lines 296-366. *)
Definition live_dispatch (fails : Z → bool) (data : message) (client_id : Z)
    (room_id : string) : Live unit :=
  let message_type := dict_get_default data "type" (JStr "unknown") in
  if is_signaling message_type then
    target_id <<~ match dict_get data "targetId" with
                  | JNull => lret None
                  | v => t <<~ llift (py_int int_of_str v) ;; lret (Some t)
                  end ;;
    match target_id with
    | Some t =>
        if decide (t ≠ 0) then live_forward_to_target data client_id room_id t
        else broadcast fails (with_sender data client_id)
                       (Some client_id) (Some room_id)
    | None => broadcast fails (with_sender data client_id)
                        (Some client_id) (Some room_id)
    end
  else if is_type message_type "chat" then
    broadcast fails (chat_msg data client_id) (Some client_id) (Some room_id)
  else if is_type message_type "mute-state" then
    broadcast fails (mute_state_msg data client_id)
              (Some client_id) (Some room_id)
  else if is_type message_type "screen-share-stopped" then
    match dict_get data "targetId" with
    | JNull => lret tt
    | target_id =>
        target_id <<~ llift (py_int int_of_str target_id) ;;
        live_forward_to_target data client_id room_id target_id
    end
  else if is_type message_type "get-peers" then
    peer_list <<~ lget (λ m, filter (λ cid, cid ≠ client_id)
                                (get_peers_in_room m room_id)) ;;
    live_send fails client_id (peer_list_msg peer_list)
  else lret tt.

(** One turn of the [while True] loop on a frame that is an object. *)
Definition live_on_message (fails : Z → bool) (client_id : Z)
    (room_id : string) (data : message) : Live unit :=
  lprotect (live_update_peer_name data client_id ;;~
            live_dispatch fails data client_id room_id)
           (live_cleanup fails client_id room_id).

(** One turn of the loop on the value [receive_json] returned: on a value
    that is no dict, [data.get] raises at once. *)
Definition live_on_frame (fails : Z → bool) (client_id : Z)
    (room_id : string) (v : json) : Live unit :=
  match as_object v with
  | Some data => live_on_message fails client_id room_id data
  | None => lprotect (llift None) (live_cleanup fails client_id room_id)
  end.

(** Lines 221-281, from a first frame that is an object. *)
Definition live_join (fuel : nat) (fails : Z → bool) (websocket : WebSocket)
    (client_ip : string) (first_data : message) : Live (Z * string) := λ w,
  let m := manager w in
  let peer_name := peer_name_of first_data in
  match requested_room_of first_data with
  | None => None
  | Some requested_room =>
  match find_available_room fuel m requested_room with
  | None => None
  | Some (room_id, was_redirected) =>
  let client_id := client_counter m + 1 in
  let m1 := set_client_counter m client_id in
  let m2 := register_client m1 client_id room_id websocket client_ip peer_name in
  let peers_in_room := get_peers_in_room m2 room_id in
  let peers_count := Z.of_nat (length peers_in_room) - 1 in
  lprotect
    (live_send fails client_id
       (welcome_msg client_id (total_clients m2) peers_count room_id) ;;~
     (if was_redirected : bool then
        msg <<~ lget (λ m, room_redirect_msg requested_room
                        (max_peers_per_room m) room_id) ;;
        live_send fails client_id msg
      else lret tt) ;;~
     msg <<~ lget (λ m, peer_connected_msg client_id peer_name (total_clients m)
                     (Z.of_nat (length peers_in_room))) ;;
     broadcast fails msg (Some client_id) (Some room_id) ;;~
     live_process_first_message first_data client_id room_id ;;~
     lret (client_id, room_id))
    (live_cleanup fails client_id room_id) (World m2 (pending w))
  end
  end.

End LiveEndpoint.

(** ** A reading of [int] on decimal digit strings

    An instance of [int_of_str] for the closed examples: it reads a
    non-empty string of ASCII digits (Python accepts more: a sign, blanks,
    underscores). *)

Definition digit_of (c : Ascii.ascii) : option Z :=
  let n := Z.of_N (Ascii.N_of_ascii c) in
  if decide (48 ≤ n ≤ 57) then Some (n - 48) else None.

Fixpoint digits_value (acc : Z) (s : string) : option Z :=
  match s with
  | EmptyString => Some acc
  | String c s' =>
      match digit_of c with
      | Some d => digits_value (10 * acc + d) s'
      | None => None
      end
  end.

Definition int_of_digits (s : string) : option Z :=
  match s with
  | EmptyString => None
  | _ => digits_value 0 s
  end.

(** ** Concrete servers for the examples *)

Definition no_failure : Z → bool := λ _, false.

(** Capacity 32, clients 1 and 2 in ["lobby"]. *)
Definition lobby_of_two : system :=
  let m1 := register_client (set_client_counter (new_manager 32) 1)
              1 "lobby" 7%N "10.0.0.1" (JStr "A") in
  let m2 := register_client (set_client_counter m1 2)
              2 "lobby" 8%N "10.0.0.2" (JStr "B") in
  mkSystem m2 {[ 1 := "lobby"; 2 := "lobby" ]}.

(** Capacity 32, client 1 alone in ["lobby"]. *)
Definition lobby_of_one : system :=
  mkSystem (register_client (set_client_counter (new_manager 32) 1)
              1 "lobby" 7%N "10.0.0.1" (JStr "A"))
           {[ 1 := "lobby" ]}.

(** An offer addressed to client 0. *)
Definition offer_to_zero : message :=
  {[ "type" := JStr "offer"; "targetId" := JInt 0 ]}.

(** A first frame that is an offer without [targetId]. *)
Definition untargeted_first_offer : message :=
  {[ "roomId" := JStr "lobby"; "peerName" := JStr "B"; "type" := JStr "offer" ]}.

(** A chat frame that carries [displayName] and [name], not [peerName]. *)
Definition renaming_chat : message :=
  {[ "type" := JStr "chat"; "text" := JStr "hi";
     "displayName" := JStr "Zed"; "name" := JStr "Zed" ]}.

(** An offer whose [targetId] is no integer. *)
Definition offer_to_nobody : message :=
  {[ "type" := JStr "offer"; "targetId" := JStr "abc" ]}.

(** Capacity 1, client 1 in ["room1"], client 2 in ["room1_1"]. *)
Definition full_room : ConnectionManager :=
  let m1 := register_client (set_client_counter (new_manager 1) 1)
              1 "room1" 7%N "10.0.0.1" (JStr "A") in
  register_client (set_client_counter m1 2) 2 "room1_1" 8%N "10.0.0.2" JNull.

(** ** Vocabulary of the statements *)

(** The guard of the loop body of [broadcast]:
    [client_id != exclude_client_id] and
    [room_id is None or self.client_rooms.get(client_id) == room_id]. *)
Definition is_recipient (m : ConnectionManager) (exclude_client_id : option Z)
    (room_id : option string) (client_id : Z) : Prop :=
  Some client_id ≠ exclude_client_id ∧
  (room_id = None ∨ client_rooms m !! client_id = room_id).

Global Instance is_recipient_dec m e r c : Decision (is_recipient m e r c).
Proof. unfold is_recipient. apply _. Defined.

(** The clients [broadcast] writes to, in the order of the loop. *)
Definition recipients (m : ConnectionManager) (exclude_client_id : option Z)
    (room_id : option string) : list Z :=
  filter (is_recipient m exclude_client_id room_id)
         (dict_keys (active_connections m)).

(** All four records of a client are gone. *)
Definition gone (m : ConnectionManager) (c : Z) : Prop :=
  active_connections m !! c = None ∧ client_names m !! c = None ∧
  client_rooms m !! c = None ∧ client_ips m !! c = None.

(** The four records of a client are the same in both managers. *)
Definition same_client (m m' : ConnectionManager) (c : Z) : Prop :=
  active_connections m' !! c = active_connections m !! c ∧
  client_names m' !! c = client_names m !! c ∧
  client_rooms m' !! c = client_rooms m !! c ∧
  client_ips m' !! c = client_ips m !! c.

(** After registration a handler mutates the manager in two ways only:
    it disconnects clients and it renames the session's own client.  A
    property is kept by [disconnect] on the ids in [D]. *)
Definition disconnect_closed (D : Z → Prop) (P : ConnectionManager → Prop) : Prop :=
  ∀ m c, D c → P m → P (disconnect m c).

(** A property that survives every disconnect and every renaming. *)
Definition stable (P : ConnectionManager → Prop) : Prop :=
  disconnect_closed (λ _, True) P ∧
  (∀ m c v, P m → P (set_client_name m c v)).

(** A handler keeps a property of the manager. *)
Definition preserves {A} (P : ConnectionManager → Prop) (h : Handler A) : Prop :=
  ∀ m, P m → P (h m).1.1.

(** Ids come from the counter, and the room dict, the address dict and the
    connection dict have the same keys. *)
Record wf (m : ConnectionManager) : Prop := mk_wf {
  wf_counter : 0 ≤ client_counter m;
  wf_ids : ∀ k, is_Some (active_connections m !! k) ∨ is_Some (client_rooms m !! k) →
                1 ≤ k ≤ client_counter m;
  wf_coherent : ∀ k, is_Some (client_rooms m !! k) ↔ is_Some (active_connections m !! k);
  wf_ips : ∀ k, is_Some (client_ips m !! k) ↔ is_Some (active_connections m !! k)
}.

(** The configured capacity is [C] and no room holds more than [C]. *)
Definition within_capacity (C : Z) (m : ConnectionManager) : Prop :=
  max_peers_per_room m = C ∧
  ∀ room_id, Z.of_nat (length (get_peers_in_room m room_id)) ≤ C.

(** The manager right after the registration step of a join. *)
Definition registered (m : ConnectionManager) (room_id : string)
    (websocket : WebSocket) (client_ip : string) (peer_name : json)
    : ConnectionManager :=
  register_client (set_client_counter m (client_counter m + 1))
    (client_counter m + 1) room_id websocket client_ip peer_name.

(** A handler whose value, when it does not raise, is [v]. *)
Definition yields {A} (v : A) (h : Handler A) : Prop :=
  ∀ m, (h m).2 = None ∨ (h m).2 = Some v.

(** A handler whose first send is [s]. *)
Definition opens_with {A} (s : send) (h : Handler A) : Prop :=
  ∀ m, ∃ rest, (h m).1.2 = s :: rest.

(** A live session holds an id the counter has handed out and a non-empty
    room, so both tests of the [except] branches succeed for it. *)
Definition sessions_ok (st : system) : Prop :=
  ∀ client_id room_id, sessions st !! client_id = Some room_id →
    1 ≤ client_id ≤ client_counter (mgr st) ∧ room_id ≠ "".

(** The manager as the name update of the message loop leaves it. *)
Definition renamed (m : ConnectionManager) (data : message) (client_id : Z)
    : ConnectionManager :=
  match data !! "peerName" with
  | Some v => if decide (client_id ≠ 0) then set_client_name m client_id v else m
  | None => m
  end.

(** The types the dispatch has a branch for. *)
Definition known_type (message_type : json) : bool :=
  is_signaling message_type || is_type message_type "chat" ||
  is_type message_type "mute-state" ||
  is_type message_type "screen-share-stopped" ||
  is_type message_type "get-peers".

(** The manager has no connection, room or address record of [client_id],
    an id the counter has passed; when [with_name] holds it has no name
    record of it either. *)
Definition absent (with_name : Prop) (client_id : Z) (m : ConnectionManager) : Prop :=
  client_id ≤ client_counter m ∧
  active_connections m !! client_id = None ∧
  client_rooms m !! client_id = None ∧
  client_ips m !! client_id = None ∧
  (with_name → client_names m !! client_id = None).

(** The room a session holds for [client_id] is the room the manager has
    for it, as long as it has one; the counter has passed the id. *)
Definition registered_in (client_id : Z) (room_id : string)
    (m : ConnectionManager) : Prop :=
  client_id ≤ client_counter m ∧
  ∀ r, client_rooms m !! client_id = Some r → r = room_id.

(** A handler that raises whatever the manager. *)
Definition raises {A} (h : Handler A) : Prop := ∀ m, (h m).2 = None.

(** What the loop of [get_rooms_info] makes of the value [o] of a room
    after it has met the clients [cids] of that room. *)
Definition add_peers (m : ConnectionManager) (o : option room_info)
    (cids : list Z) : option room_info :=
  match cids with
  | [] => o
  | _ =>
      let peers := from_option info_peers [] o ++ (entry_of m <$> cids) in
      Some (RoomInfo peers (Z.of_nat (length peers))
              (from_option info_max_peers (max_peers_per_room m) o))
  end.

(** The counter stands at [n] and every name record is for an id it has
    handed out. *)
Definition names_bounded (n : Z) (m : ConnectionManager) : Prop :=
  client_counter m = n ∧
  ∀ k, is_Some (client_names m !! k) → 1 ≤ k ≤ n.

(** ** More concrete servers and frames *)

(** The socket of client 1 raises, every other socket works. *)
Definition socket_of_1_fails : Z → bool := λ c, bool_decide (c = 1).

(** A chat frame. *)
Definition plain_chat : message :=
  {[ "type" := JStr "chat"; "text" := JStr "hi" ]}.

(** Capacity 1 after the join of one client into ["room1"]. *)
Definition capacity_one_joined : system :=
  mkSystem (registered (new_manager 1) "room1" 7%N "10.0.0.1" (JStr "A"))
           {[ 1 := "room1" ]}.

(** A mute-state frame that renames its sender. *)
Definition renaming_mute : message :=
  {[ "type" := JStr "mute-state"; "peerName" := JStr "Ann" ]}.

(** [lobby_of_two] after the session of client 2 has ended. *)
Definition lobby_after_close : system :=
  mkSystem (disconnect (mgr lobby_of_two) 2) {[ 1 := "lobby" ]}.

(** ** Where the sends of a handler go *)

(** Since [m0] the room dict has only lost entries. *)
Definition below (m0 m : ConnectionManager) : Prop :=
  client_rooms m ⊆ client_rooms m0.

(** A handler that, run on a manager below [m0], leaves one below [m0]
    and attempts only sends that satisfy [R]. *)
Definition confined {A} (m0 : ConnectionManager) (R : send → Prop)
    (h : Handler A) : Prop :=
  ∀ m, below m0 m → below m0 (h m).1.1 ∧ Forall R (h m).1.2.

(** The sends of the session [(client_id, room_id)] on the frame [data]
    or at its end: the peer list to its own socket; the frame with the
    sender added to a client of the room; the chat frame, the mute frame
    and the leave notice to another client of the room. *)
Definition session_send (m0 : ConnectionManager) (client_id : Z)
    (room_id : string) (data : message) (s : send) : Prop :=
  (send_to s = client_id ∧ ∃ peer_list, send_body s = peer_list_msg peer_list) ∨
  (client_rooms m0 !! send_to s = Some room_id ∧
   (send_body s = with_sender data client_id ∨
    send_to s ≠ client_id ∧
    (send_body s = chat_msg data client_id ∨
     send_body s = mute_state_msg data client_id ∨
     ∃ total peers_in_room,
       send_body s = peer_disconnected_msg client_id total peers_in_room))).

(** A send to [client_id] or to a client that [m0] has in [room_id]. *)
Definition in_room_or_self (m0 : ConnectionManager) (client_id : Z)
    (room_id : string) (s : send) : Prop :=
  send_to s = client_id ∨ client_rooms m0 !! send_to s = Some room_id.

(** Every client the manager has in a room has a live session that holds
    this room. *)
Definition sessions_cover (st : system) : Prop :=
  ∀ c r, client_rooms (mgr st) !! c = Some r → sessions st !! c = Some r.

(** The counter has reached [n], and what [m] records of connection, room
    and address for an id up to [n] it has from [m0]. *)
Definition older (n : Z) (m0 m : ConnectionManager) : Prop :=
  n ≤ client_counter m ∧
  ∀ c, c ≤ n →
    (∀ ws, active_connections m !! c = Some ws →
           active_connections m0 !! c = Some ws) ∧
    (∀ r, client_rooms m !! c = Some r → client_rooms m0 !! c = Some r) ∧
    (∀ ip, client_ips m !! c = Some ip → client_ips m0 !! c = Some ip).

(** ** Runs among other coroutines *)

(** During a send no other coroutine changes the manager. *)
Definition nothing : interference := λ m, m.

(** What the join of another connection does to the manager between its
    first frame and its first send (lines 226-231), for a room with
    space: it takes the next id and registers it. *)
Definition joining (room_id : string) (websocket : WebSocket)
    (client_ip : string) (peer_name : json) : interference :=
  λ m, registered m room_id websocket client_ip peer_name.

(** Started on the manager [m] with nothing to interfere, the live handler
    does what the handler does. *)
Definition undisturbed_at {A} (m : ConnectionManager) (l : Live A)
    (h : Handler A) : Prop :=
  l (World m []) = Some (World (h m).1.1 [], (h m).1.2, (h m).2).

Definition undisturbed {A} (l : Live A) (h : Handler A) : Prop :=
  ∀ m, undisturbed_at m l h.

(** Capacity 32, clients 1, 2 and 3 in ["lobby"]. *)
Definition lobby_of_three : system :=
  mkSystem (registered (mgr lobby_of_two) "lobby" 9%N "10.0.0.3" (JStr "C"))
           {[ 1 := "lobby"; 2 := "lobby"; 3 := "lobby" ]}.

(** A handler that does not raise, whatever the manager. *)
Definition returns {A} (h : Handler A) : Prop := ∀ m, is_Some (h m).2.

(** * Properties *)

(** ** The registry *)

Lemma del_if_present_delete {V} (k : Z) (d : gmap Z V) :
  del_if_present k d = delete k d.
Proof.
  unfold del_if_present. case_decide as Hk; [done|].
  symmetry. apply delete_id. by apply eq_None_not_Some.
Qed.

Lemma disconnect_absent m client_id :
  active_connections m !! client_id = None → disconnect m client_id = m.
Proof.
  intros Habs. unfold disconnect. case_decide as Hin; [|done].
  rewrite Habs in Hin. by destruct Hin.
Qed.

Lemma disconnect_present m client_id :
  is_Some (active_connections m !! client_id) →
  disconnect m client_id =
    mkManager (delete client_id (active_connections m))
              (delete client_id (client_names m))
              (delete client_id (client_rooms m))
              (delete client_id (client_ips m))
              (client_counter m) (max_peers_per_room m).
Proof.
  intros Hin. unfold disconnect. rewrite decide_True by done.
  by rewrite !del_if_present_delete.
Qed.

Lemma disconnect_active_gone m client_id :
  active_connections (disconnect m client_id) !! client_id = None.
Proof.
  destruct (active_connections m !! client_id) as [ws|] eqn:Hws.
  - rewrite disconnect_present by eauto. simpl. apply lookup_delete_eq.
  - by rewrite disconnect_absent.
Qed.

Lemma disconnect_counter m c : client_counter (disconnect m c) = client_counter m.
Proof. unfold disconnect. by case_decide. Qed.

Lemma disconnect_max_peers m c :
  max_peers_per_room (disconnect m c) = max_peers_per_room m.
Proof. unfold disconnect. by case_decide. Qed.

Lemma disconnect_rooms_subseteq m c : client_rooms (disconnect m c) ⊆ client_rooms m.
Proof.
  unfold disconnect. case_decide; [|done]. simpl.
  rewrite del_if_present_delete. apply delete_subseteq.
Qed.

Lemma disconnect_active_subseteq m c :
  active_connections (disconnect m c) ⊆ active_connections m.
Proof. unfold disconnect. case_decide; [|done]. apply delete_subseteq. Qed.

Lemma disconnect_active_other m c k :
  k ≠ c → active_connections (disconnect m c) !! k = active_connections m !! k.
Proof.
  intros Hne. unfold disconnect. case_decide; [|done]. simpl.
  by apply lookup_delete_ne.
Qed.

Lemma disconnect_rooms_other m c k :
  k ≠ c → client_rooms (disconnect m c) !! k = client_rooms m !! k.
Proof.
  intros Hne. unfold disconnect. case_decide; [|done]. simpl.
  rewrite del_if_present_delete. by apply lookup_delete_ne.
Qed.

Lemma disconnect_names_other m c k :
  k ≠ c → client_names (disconnect m c) !! k = client_names m !! k.
Proof.
  intros Hne. unfold disconnect. case_decide; [|done]. simpl.
  rewrite del_if_present_delete. by apply lookup_delete_ne.
Qed.

(** ** Room membership *)

Lemma elem_of_peers_of (rooms : gmap Z string) room_id cid :
  cid ∈ peers_of rooms room_id ↔ rooms !! cid = Some room_id.
Proof.
  unfold peers_of. rewrite list_elem_of_fmap. split.
  - intros [[k r] [-> [Hr Hin]%list_elem_of_filter]]. simpl in *. subst r.
    by apply elem_of_map_to_list.
  - intros Hl. exists (cid, room_id). split; [done|].
    apply list_elem_of_filter. split; [done|]. by apply elem_of_map_to_list.
Qed.

Lemma NoDup_peers_of (rooms : gmap Z string) room_id :
  NoDup (peers_of rooms room_id).
Proof.
  unfold peers_of. eapply sublist_NoDup; [apply (NoDup_fst_map_to_list rooms)|].
  apply fmap_sublist, sublist_filter.
Qed.

Lemma peers_of_nil (rooms : gmap Z string) room_id :
  peers_of rooms room_id = [] ↔ ∀ cid, rooms !! cid ≠ Some room_id.
Proof.
  split.
  - intros Hnil cid Hl. apply elem_of_peers_of in Hl. rewrite Hnil in Hl.
    by apply elem_of_nil in Hl.
  - intros Hno. destruct (peers_of rooms room_id) as [|c l] eqn:Hp; [done|].
    destruct (Hno c). apply elem_of_peers_of. rewrite Hp. left.
Qed.

(** Occupancy is monotone in the room dict. *)
Lemma peers_of_length_mono (rooms rooms' : gmap Z string) room_id :
  rooms' ⊆ rooms →
  (length (peers_of rooms' room_id) ≤ length (peers_of rooms room_id))%nat.
Proof.
  intros Hsub. apply submseteq_length, NoDup_submseteq.
  - apply NoDup_peers_of.
  - intros c Hc%elem_of_peers_of. apply elem_of_peers_of.
    by eapply lookup_weaken.
Qed.

(** Registering a fresh id adds one member to its room and none elsewhere. *)
Lemma peers_of_insert_fresh (rooms : gmap Z string) cid room_id r :
  rooms !! cid = None →
  length (peers_of (<[cid := room_id]> rooms) r) =
    ((if decide (room_id = r) then 1 else 0) + length (peers_of rooms r))%nat.
Proof.
  intros Hfresh. unfold peers_of. rewrite !length_fmap.
  rewrite (map_to_list_insert rooms cid room_id Hfresh).
  rewrite filter_cons. simpl. by destruct (decide (room_id = r)).
Qed.

(** Removing a member takes exactly one off its room. *)
Lemma peers_of_delete (rooms : gmap Z string) cid room_id :
  rooms !! cid = Some room_id →
  S (length (peers_of (delete cid rooms) room_id)) = length (peers_of rooms room_id).
Proof.
  intros Hin. unfold peers_of. rewrite !length_fmap.
  rewrite <-(map_to_list_delete rooms cid room_id Hin).
  rewrite filter_cons. simpl. by rewrite decide_True.
Qed.

(** ** Room allocation *)

Lemma overflow_name_inj requested_room : Inj (=) (=) (overflow_name requested_room).
Proof.
  intros i j Heq. unfold overflow_name in Heq.
  apply (inj (String.app requested_room)) in Heq.
  apply (inj (String.app "_")) in Heq.
  by apply (inj pretty) in Heq.
Qed.

Lemma overflow_name_nonempty requested_room i : overflow_name requested_room i ≠ "".
Proof.
  unfold overflow_name. destruct requested_room; simpl; [|done].
  discriminate.
Qed.

(** What the probe loop returns is the first index, from the one it starts
    at, whose room has space. *)
Lemma find_overflow_room_Some fuel m requested_room i room redirected :
  find_overflow_room fuel m requested_room i = Some (room, redirected) →
  redirected = true ∧
  ∃ n, i ≤ n < i + Z.of_nat fuel ∧ room = overflow_name requested_room n ∧
       has_space m room ∧
       ∀ k, i ≤ k < n → ¬ has_space m (overflow_name requested_room k).
Proof.
  revert i. induction fuel as [|fuel IH]; intros i Hfind; simpl in Hfind; [done|].
  case_decide as Hspace.
  - injection Hfind as <- <-. split; [done|]. exists i.
    repeat split; [lia..|done|intros k ?; lia].
  - destruct (IH _ Hfind) as [-> (n & Hn & -> & Hsp & Hleast)].
    split; [done|]. exists n. repeat split; [lia..|done|].
    intros k Hk. destruct (decide (k = i)) as [->|]; [done|].
    apply Hleast. lia.
Qed.

(** The loop finds the first free index as soon as the fuel reaches it. *)
Lemma find_overflow_room_first fuel m requested_room i n :
  i ≤ n < i + Z.of_nat fuel →
  has_space m (overflow_name requested_room n) →
  (∀ k, i ≤ k < n → ¬ has_space m (overflow_name requested_room k)) →
  find_overflow_room fuel m requested_room i =
    Some (overflow_name requested_room n, true).
Proof.
  revert i. induction fuel as [|fuel IH]; intros i Hn Hsp Hleast; [lia|].
  simpl. case_decide as Hspace.
  - destruct (decide (i = n)) as [->|Hne]; [done|].
    destruct (Hleast i); [lia|done].
  - destruct (decide (i = n)) as [->|Hne]; [done|].
    apply IH; [lia|done|]. intros k Hk. apply Hleast. lia.
Qed.

(** Out of fuel: every index probed was full. *)
Lemma find_overflow_room_None fuel m requested_room i :
  find_overflow_room fuel m requested_room i = None →
  ∀ k, i ≤ k < i + Z.of_nat fuel → ¬ has_space m (overflow_name requested_room k).
Proof.
  revert i. induction fuel as [|fuel IH]; intros i Hfind k Hk; [lia|].
  simpl in Hfind. case_decide as Hspace; [done|].
  destruct (decide (k = i)) as [->|]; [done|]. apply (IH _ Hfind). lia.
Qed.

(** Pigeonhole: pairwise distinct rooms that all have a member are at most
    as many as there are clients. *)
Lemma occupied_rooms_bound (names : list string) :
  NoDup names →
  ∀ rooms : gmap Z string,
    (∀ r, r ∈ names → peers_of rooms r ≠ []) →
    (length names ≤ size rooms)%nat.
Proof.
  induction 1 as [|r names Hnotin Hnodup IH]; intros rooms Hocc; simpl; [lia|].
  destruct (peers_of rooms r) as [|c l] eqn:Hp.
  { destruct (Hocc r); [left|done]. }
  assert (rooms !! c = Some r) as Hc.
  { apply elem_of_peers_of. rewrite Hp. left. }
  rewrite <-(insert_delete_id rooms c r Hc).
  rewrite map_size_insert_None by apply lookup_delete_eq.
  apply le_n_S, IH. intros r' Hr' Hnil.
  apply (Hocc r'); [by right|].
  apply peers_of_nil. intros c' Hc'.
  assert (c' ≠ c) by (intros ->; congruence).
  eapply peers_of_nil; [exact Hnil|]. by rewrite lookup_delete_ne.
Qed.

(** Among the first [size rooms + 1] overflow names one has no member. *)
Lemma empty_overflow_room (rooms : gmap Z string) requested_room :
  ∃ n, 1 ≤ n ≤ Z.of_nat (size rooms) + 1 ∧
       peers_of rooms (overflow_name requested_room n) = [].
Proof.
  set (name := λ i : nat, overflow_name requested_room (Z.of_nat i)).
  set (names := name <$> seq 1 (S (size rooms))).
  assert (NoDup names) as Hnodup.
  { apply NoDup_fmap_2; [|apply NoDup_seq].
    intros i j Hij. apply overflow_name_inj in Hij. lia. }
  destruct (decide (Forall (λ r, peers_of rooms r ≠ []) names)) as [Hall|Hex].
  - pose proof (occupied_rooms_bound names Hnodup rooms) as Hbound.
    unfold names in Hbound at 2. rewrite length_fmap, length_seq in Hbound.
    rewrite Forall_forall in Hall. specialize (Hbound Hall). lia.
  - apply not_Forall_Exists in Hex; [|apply _].
    apply Exists_exists in Hex as (r & Hr & Hempty).
    apply list_elem_of_fmap in Hr as (i & -> & Hi%elem_of_seq).
    exists (Z.of_nat i). split; [lia|].
    simpl in Hempty. by destruct (decide (peers_of rooms (name i) = [])).
Qed.

(** With a capacity below one no room ever has space: the probe loop never
    returns, whatever the fuel. *)
Lemma find_available_room_diverges fuel m requested_room :
  max_peers_per_room m ≤ 0 → find_available_room fuel m requested_room = None.
Proof.
  intros Hmax.
  assert (∀ r, ¬ has_space m r) as Hfull by (unfold has_space; intros r; lia).
  unfold find_available_room. rewrite decide_False by apply Hfull.
  generalize 1. induction fuel as [|fuel IH]; intros i; simpl; [done|].
  rewrite decide_False by apply Hfull. apply IH.
Qed.

(** C2.  [find_available_room] answers the requested room, not redirected,
    exactly when that room's occupancy is strictly below
    [max_peers_per_room]; otherwise it answers [<requested>_<n>],
    redirected, for the smallest [n >= 1] whose room is below capacity.
    The first two parts say what the call returns (for every fuel that
    reaches the index), the third that nothing else is ever returned. *)
Theorem find_available_room_spec (m : ConnectionManager) (requested_room : string) :
  (has_space m requested_room →
   ∀ fuel, find_available_room fuel m requested_room = Some (requested_room, false)) ∧
  (∀ n, ¬ has_space m requested_room → 1 ≤ n →
        has_space m (overflow_name requested_room n) →
        (∀ k, 1 ≤ k < n → ¬ has_space m (overflow_name requested_room k)) →
        ∀ fuel, (Z.to_nat n ≤ fuel)%nat →
          find_available_room fuel m requested_room =
            Some (overflow_name requested_room n, true)) ∧
  (∀ fuel room redirected,
     find_available_room fuel m requested_room = Some (room, redirected) →
     (redirected = false ↔ has_space m requested_room) ∧
     (redirected = false → room = requested_room) ∧
     (redirected = true →
      ∃ n, 1 ≤ n ∧ room = overflow_name requested_room n ∧ has_space m room ∧
           ∀ k, 1 ≤ k < n → ¬ has_space m (overflow_name requested_room k))).
Proof.
  split; [|split].
  - intros Hsp fuel. unfold find_available_room. by rewrite decide_True.
  - intros n Hfull Hn Hsp Hleast fuel Hfuel. unfold find_available_room.
    rewrite decide_False by done.
    apply find_overflow_room_first; [lia|done..].
  - intros fuel room redirected. unfold find_available_room.
    case_decide as Hsp.
    + intros [= <- <-]. by repeat split.
    + intros (-> & n & Hn & -> & Hspn & Hleast)%find_overflow_room_Some.
      split; [split; [done|by intros ?]|]. split; [done|].
      intros _. exists n. repeat split; [lia|done..].
Qed.

Lemma find_available_room_spec_witness :
  find_available_room 3 full_room "room1" = Some (overflow_name "room1" 2, true).
Proof.
  apply (proj1 (proj2 (find_available_room_spec full_room "room1")) 2).
  - vm_compute. discriminate.
  - lia.
  - vm_compute. reflexivity.
  - intros k Hk. assert (k = 1) as -> by lia. vm_compute. discriminate.
  - vm_compute. lia.
Defined.

(** With a capacity of at least one, fuel above the number of clients is
    enough for the probe loop to return. *)
Lemma find_available_room_returns fuel m requested_room :
  1 ≤ max_peers_per_room m →
  (size (client_rooms m) < fuel)%nat →
  ∃ room redirected,
    find_available_room fuel m requested_room = Some (room, redirected).
Proof.
  intros Hmax Hfuel.
  destruct (empty_overflow_room (client_rooms m) requested_room) as (n & Hn & Hempty).
  destruct (find_available_room fuel m requested_room) as [[room redirected]|] eqn:Hfind.
  { by exists room, redirected. }
  exfalso. unfold find_available_room in Hfind.
  case_decide as Hsp; [done|].
  eapply (find_overflow_room_None _ _ _ _ Hfind n); [lia|].
  unfold has_space, get_peers_in_room. rewrite Hempty. simpl. lia.
Qed.

(** C10.  With finitely many registered clients and a capacity of at least
    one, [find_available_room] returns: among the overflow names
    [_1 .. _(clients+1)] one has no member at all, so the probe loop stops
    at or before it; fuel above the number of clients always suffices. *)
Theorem find_available_room_terminates (m : ConnectionManager)
    (requested_room : string) :
  1 ≤ max_peers_per_room m →
  ∃ n, 1 ≤ n ≤ Z.of_nat (size (client_rooms m)) + 1 ∧
       get_peers_in_room m (overflow_name requested_room n) = [] ∧
       ∀ fuel, (size (client_rooms m) < fuel)%nat →
         ∃ room redirected,
           find_available_room fuel m requested_room = Some (room, redirected).
Proof.
  intros Hmax.
  destruct (empty_overflow_room (client_rooms m) requested_room) as (n & Hn & Hempty).
  exists n. split; [done|]. split; [done|]. intros fuel Hfuel.
  by apply find_available_room_returns.
Qed.

Lemma find_available_room_terminates_witness :
  ∃ room redirected, find_available_room 3 full_room "room1" = Some (room, redirected).
Proof.
  destruct (find_available_room_terminates full_room "room1") as (n & _ & _ & Hret).
  - vm_compute. discriminate.
  - apply Hret. vm_compute. lia.
Defined.

(** C7.  [disconnect] is idempotent: on an id that is not connected it
    leaves the whole manager as it is, and a second [disconnect] of the
    same id changes nothing. *)
Theorem disconnect_idempotent :
  (∀ m client_id,
     active_connections m !! client_id = None → disconnect m client_id = m) ∧
  (∀ m client_id,
     disconnect (disconnect m client_id) client_id = disconnect m client_id).
Proof.
  split.
  - apply disconnect_absent.
  - intros m client_id. apply disconnect_absent, disconnect_active_gone.
Qed.

Lemma disconnect_idempotent_witness :
  disconnect (new_manager 32) 5 = new_manager 32 ∧
  disconnect (disconnect full_room 1) 1 = disconnect full_room 1.
Proof.
  destruct disconnect_idempotent as [Habsent Htwice]. split.
  - apply Habsent. reflexivity.
  - apply Htwice.
Defined.

(** ** Broadcast *)

Lemma overflow_name_ne requested_room i : overflow_name requested_room i ≠ requested_room.
Proof.
  unfold overflow_name. induction requested_room as [|a s IH]; simpl.
  - discriminate.
  - intros [= Heq]. by apply IH.
Qed.

Lemma elem_of_dict_keys {A} (d : gmap Z A) c : c ∈ dict_keys d ↔ is_Some (d !! c).
Proof.
  unfold dict_keys. rewrite merge_sort_Permutation, list_elem_of_fmap. split.
  - intros [[k a] [-> Hin%elem_of_map_to_list]]. simpl in *. eauto.
  - intros [a Ha]. exists (c, a). split; [done|]. by apply elem_of_map_to_list.
Qed.

Lemma NoDup_dict_keys {A} (d : gmap Z A) : NoDup (dict_keys d).
Proof.
  unfold dict_keys. rewrite merge_sort_Permutation. apply NoDup_fst_map_to_list.
Qed.

Lemma elem_of_recipients m exclude_client_id room_id c :
  c ∈ recipients m exclude_client_id room_id ↔
  is_Some (active_connections m !! c) ∧ is_recipient m exclude_client_id room_id c.
Proof.
  unfold recipients. rewrite list_elem_of_filter, elem_of_dict_keys. tauto.
Qed.

Lemma NoDup_recipients m exclude_client_id room_id :
  NoDup (recipients m exclude_client_id room_id).
Proof. apply NoDup_filter, NoDup_dict_keys. Qed.

Lemma disconnect_gone m c : is_Some (active_connections m !! c) → gone (disconnect m c) c.
Proof.
  intros Hin. rewrite disconnect_present by done.
  repeat split; simpl; apply lookup_delete_eq.
Qed.

Lemma disconnect_same_client m c k : k ≠ c → same_client m (disconnect m c) k.
Proof.
  intros Hne. unfold disconnect. case_decide; [|done].
  rewrite !del_if_present_delete.
  repeat split; simpl; by apply lookup_delete_ne.
Qed.

Lemma disconnect_keeps_gone m c k : gone m k → gone (disconnect m c) k.
Proof.
  intros Hgone. destruct (decide (k = c)) as [->|Hne].
  - rewrite disconnect_absent; [done|apply Hgone].
  - destruct (disconnect_same_client m c k Hne) as (Ha & Hn & Hr & Hi).
    unfold gone. by rewrite Ha, Hn, Hr, Hi.
Qed.

Lemma foldl_disconnect_keeps_gone l m k : gone m k → gone (foldl disconnect m l) k.
Proof.
  revert m. induction l as [|c l IH]; intros m Hgone; simpl; [done|].
  by apply IH, disconnect_keeps_gone.
Qed.

Lemma foldl_disconnect_gone l m k :
  k ∈ l → is_Some (active_connections m !! k) → gone (foldl disconnect m l) k.
Proof.
  revert m. induction l as [|c l IH]; intros m Hin Hact; simpl.
  { by apply elem_of_nil in Hin. }
  destruct (decide (k = c)) as [->|Hne].
  - by apply foldl_disconnect_keeps_gone, disconnect_gone.
  - apply IH.
    + apply elem_of_cons in Hin as [?|?]; [done|done].
    + by rewrite disconnect_active_other.
Qed.

Lemma foldl_disconnect_same_client l m k :
  k ∉ l → same_client m (foldl disconnect m l) k.
Proof.
  revert m. induction l as [|c l IH]; intros m Hnotin; simpl; [done|].
  apply not_elem_of_cons in Hnotin as [Hne Hnotin].
  destruct (IH (disconnect m c) Hnotin) as (Ha & Hn & Hr & Hi).
  unfold same_client. rewrite Ha, Hn, Hr, Hi.
  by apply disconnect_same_client.
Qed.

(** The loop of [broadcast] writes to the recipients among the items it
    visits, whether a socket raises or not, and notes those that raised. *)
Lemma broadcast_loop fails m msg exclude_client_id room_id l out0 failed0 :
  foldl (broadcast_body fails m msg exclude_client_id room_id) (out0, failed0) l =
    (out0 ++ ((λ c, Send c msg) <$>
                filter (is_recipient m exclude_client_id room_id) l),
     failed0 ++ filter (λ c, fails c = true)
                  (filter (is_recipient m exclude_client_id room_id) l)).
Proof.
  revert out0 failed0. induction l as [|c l IH]; intros out0 failed0.
  { simpl. by rewrite !app_nil_r. }
  cbn [foldl].
  destruct (broadcast_body fails m msg exclude_client_id room_id
              (out0, failed0) c) as [out1 failed1] eqn:Hbody.
  rewrite IH, (filter_cons (is_recipient _ _ _)).
  unfold broadcast_body in Hbody.
  destruct (decide (is_recipient m exclude_client_id room_id c))
    as [[Hne Hr]|Hnot].
  - rewrite !decide_True in Hbody by done. injection Hbody as <- <-.
    rewrite filter_cons, fmap_cons, <-!app_assoc. simpl.
    destruct (fails c).
    + rewrite decide_True by done. by rewrite <-app_assoc.
    + by rewrite decide_False by done.
  - assert (out1 = out0 ∧ failed1 = failed0) as [-> ->]; [|done].
    repeat case_decide; try (by injection Hbody). by destruct Hnot.
Qed.

Lemma broadcast_eq fails m msg exclude_client_id room_id :
  broadcast_quiet fails m msg exclude_client_id room_id =
    (foldl disconnect m
       (filter (λ c, fails c = true) (recipients m exclude_client_id room_id)),
     (λ c, Send c msg) <$> recipients m exclude_client_id room_id).
Proof. unfold broadcast_quiet. by rewrite broadcast_loop. Qed.

Lemma broadcast_sends fails m msg exclude_client_id room_id :
  (broadcast_quiet fails m msg exclude_client_id room_id).2 =
    (λ c, Send c msg) <$> recipients m exclude_client_id room_id.
Proof. by rewrite broadcast_eq. Qed.

Lemma broadcast_manager fails m msg exclude_client_id room_id :
  (broadcast_quiet fails m msg exclude_client_id room_id).1 =
    foldl disconnect m
      (filter (λ c, fails c = true) (recipients m exclude_client_id room_id)).
Proof. by rewrite broadcast_eq. Qed.

Lemma send_to_broadcast fails m msg exclude_client_id room_id :
  send_to <$> (broadcast_quiet fails m msg exclude_client_id room_id).2 =
    recipients m exclude_client_id room_id.
Proof.
  rewrite broadcast_sends, <-list_fmap_compose. apply list_fmap_id.
Qed.

(** A multicast (sender excluded, room filter set) during which no other
    coroutine changes the manager writes the frame to exactly the connected
    clients whose room is the given one, the sender apart, once each; no
    client of another room is written to, an overflow sibling of the room
    included.  A socket that raises does not change who is written to; the
    clients whose socket raised are disconnected (all four records removed)
    and every other client keeps its records. *)
Theorem broadcast_room_multicast (fails : Z → bool) (m : ConnectionManager)
    (msg : message) (sender : Z) (room_id : string) :
  let m' := (broadcast_quiet fails m msg (Some sender) (Some room_id)).1 in
  let out := (broadcast_quiet fails m msg (Some sender) (Some room_id)).2 in
  Forall (λ s, send_body s = msg) out ∧
  NoDup (send_to <$> out) ∧
  (∀ c, c ∈ send_to <$> out ↔
        c ≠ sender ∧ is_Some (active_connections m !! c) ∧
        client_rooms m !! c = Some room_id) ∧
  (∀ c n, client_rooms m !! c = Some (overflow_name room_id n) →
          c ∉ send_to <$> out) ∧
  (∀ fails', (broadcast_quiet fails' m msg (Some sender) (Some room_id)).2 = out) ∧
  (∀ c, c ∈ send_to <$> out → fails c = true → gone m' c) ∧
  (∀ c, ¬ (c ∈ send_to <$> out ∧ fails c = true) → same_client m m' c).
Proof.
  intros m' out. subst m' out. rewrite send_to_broadcast.
  assert (∀ c, c ∈ recipients m (Some sender) (Some room_id) ↔
               c ≠ sender ∧ is_Some (active_connections m !! c) ∧
               client_rooms m !! c = Some room_id) as Hmem.
  { intros c. rewrite elem_of_recipients. unfold is_recipient. split.
    - intros (Hact & Hne & [[=]|Hroom]). repeat split; [congruence|done..].
    - intros (Hne & Hact & Hroom). repeat split; [done|congruence|by right]. }
  split; [|split; [|split; [|split; [|split; [|split]]]]].
  - rewrite broadcast_sends. apply Forall_fmap, Forall_true. done.
  - apply NoDup_recipients.
  - exact Hmem.
  - intros c n Hroom (_ & _ & Hroom')%Hmem.
    rewrite Hroom in Hroom'. injection Hroom' as Heq.
    by apply overflow_name_ne in Heq.
  - intros fails'. by rewrite !broadcast_sends.
  - intros c Hc Hfail. rewrite broadcast_manager.
    apply foldl_disconnect_gone.
    + by apply list_elem_of_filter.
    + by apply Hmem in Hc as (_ & Hact & _).
  - intros c Hnot. rewrite broadcast_manager.
    apply foldl_disconnect_same_client.
    intros [Hfail Hc]%list_elem_of_filter. by apply Hnot.
Qed.

Lemma broadcast_room_multicast_witness :
  gone (broadcast_quiet socket_of_1_fails (mgr lobby_of_two) plain_chat
          (Some 2) (Some "lobby")).1 1.
Proof.
  apply (broadcast_room_multicast socket_of_1_fails (mgr lobby_of_two)
           plain_chat 2 "lobby").
  - vm_compute. left.
  - reflexivity.
Defined.

(** ** Handlers preserve the invariants of the manager *)

Lemma stable_disconnect_closed D P : stable P → disconnect_closed D P.
Proof. intros [Hd _] m c _. by apply Hd. Qed.

Section Preserves.

Context (D : Z → Prop) (P : ConnectionManager → Prop).
Context (Hclosed : disconnect_closed D P).

Lemma foldl_disconnect_closed l m :
  Forall D l → P m → P (foldl disconnect m l).
Proof.
  revert m. induction l as [|c l IH]; intros m Hl Hm; simpl; [done|].
  apply Forall_cons in Hl as [Hc Hl]. by apply IH, Hclosed.
Qed.

Lemma preserves_hret {A} (a : A) : preserves P (hret a).
Proof. by intros m. Qed.

Lemma preserves_hget {A} (f : ConnectionManager → A) : preserves P (hget f).
Proof. by intros m. Qed.

Lemma preserves_hlift {A} (o : option A) : preserves P (hlift o).
Proof. by intros m. Qed.

Lemma preserves_ws_send fails c msg : preserves P (ws_send fails c msg).
Proof. by intros m. Qed.

Lemma preserves_hbind {A B} (h : Handler A) (k : A → Handler B) :
  preserves P h → (∀ a, preserves P (k a)) → preserves P (hbind h k).
Proof.
  intros Hh Hk m Hm. unfold hbind. specialize (Hh m Hm).
  destruct (h m) as [[m1 s1] [a|]]; simpl in *; [|done].
  specialize (Hk a m1 Hh). by destruct (k a m1) as [[m2 s2] r].
Qed.

Lemma preserves_protect {A} (body : Handler A) (handler : Handler unit) :
  preserves P body → preserves P handler → preserves P (protect body handler).
Proof.
  intros Hb Hh m Hm. unfold protect. specialize (Hb m Hm).
  destruct (body m) as [[m1 s1] [a|]]; simpl in *; [done|].
  specialize (Hh m1 Hb). by destruct (handler m1) as [[m2 s2] r].
Qed.

(** A broadcast disconnects recipients only, never the excluded client. *)
Lemma preserves_hbroadcast fails msg exclude_client_id room_id :
  (∀ c, Some c ≠ exclude_client_id → D c) →
  preserves P (hbroadcast fails msg exclude_client_id room_id).
Proof.
  intros HD m Hm. unfold hbroadcast. rewrite broadcast_eq. simpl.
  apply foldl_disconnect_closed; [|done].
  apply Forall_forall. intros c [_ Hc]%list_elem_of_filter.
  apply elem_of_recipients in Hc as [_ [Hne _]]. by apply HD.
Qed.

Lemma preserves_forward_to_target data client_id room_id target_id :
  preserves P (forward_to_target data client_id room_id target_id).
Proof. intros m Hm. unfold forward_to_target. by repeat case_decide. Qed.

Lemma preserves_cleanup fails client_id room_id :
  (∀ c, D c) → preserves P (cleanup fails client_id room_id).
Proof.
  intros HD. unfold cleanup. case_decide; [|apply preserves_hret].
  apply preserves_hbind.
  - intros m Hm. simpl. by apply Hclosed.
  - intros _. case_decide; [|apply preserves_hret].
    apply preserves_hbind; [apply preserves_hget|].
    intros msg. by apply preserves_hbroadcast.
Qed.

Context (int_of_str : string → option Z).

Lemma preserves_targeted data client_id room_id (v : json) :
  preserves P (target_id <~ hlift (py_int int_of_str v) ;;
               forward_to_target data client_id room_id target_id).
Proof.
  apply preserves_hbind; [apply preserves_hlift|].
  intros t. apply preserves_forward_to_target.
Qed.

Lemma preserves_process_first_message first_data client_id room_id :
  preserves P (process_first_message int_of_str first_data client_id room_id).
Proof.
  unfold process_first_message.
  destruct (is_signaling _); [|apply preserves_hret].
  destruct (dict_get first_data "targetId");
    first [apply preserves_hret | apply preserves_targeted].
Qed.

(** The dispatch never disconnects the sender: all its broadcasts exclude
    [client_id]. *)
Lemma preserves_dispatch fails data client_id room_id :
  (∀ c, c ≠ client_id → D c) →
  preserves P (dispatch int_of_str fails data client_id room_id).
Proof.
  intros HD.
  assert (∀ msg, preserves P (hbroadcast fails msg (Some client_id) (Some room_id)))
    as Hbroadcast.
  { intros msg. apply preserves_hbroadcast. intros c Hc. apply HD. congruence. }
  unfold dispatch.
  repeat match goal with
  | |- preserves P (if ?b then _ else _) => destruct b
  end.
  - apply preserves_hbind.
    + destruct (dict_get data "targetId"); first
        [ apply preserves_hret
        | apply preserves_hbind; [apply preserves_hlift|];
          intros t; apply preserves_hret ].
    + intros [t|]; [case_decide|];
        first [apply preserves_forward_to_target | apply Hbroadcast].
  - apply Hbroadcast.
  - apply Hbroadcast.
  - destruct (dict_get data "targetId");
      first [apply preserves_hret | apply preserves_targeted].
  - apply preserves_hbind; [apply preserves_hget|].
    intros l. apply preserves_ws_send.
  - apply preserves_hret.
Qed.

End Preserves.

Lemma preserves_update_peer_name P data client_id :
  (∀ m v, P m → P (set_client_name m client_id v)) →
  preserves P (update_peer_name data client_id).
Proof.
  intros Hname m Hm. simpl. destruct (data !! "peerName"); [|done].
  case_decide; [|done]. by apply Hname.
Qed.

(** A turn of the message loop renames nobody but its own client. *)
Lemma preserves_on_message_own P int_of_str fails client_id room_id data :
  disconnect_closed (λ _, True) P →
  (∀ m v, P m → P (set_client_name m client_id v)) →
  preserves P (on_message int_of_str fails client_id room_id data).
Proof.
  intros Hclosed Hname. apply preserves_protect.
  - apply preserves_hbind; [by apply preserves_update_peer_name|].
    intros _. by apply (preserves_dispatch (λ _, True)).
  - by apply (preserves_cleanup (λ _, True)).
Qed.

Lemma preserves_on_message P int_of_str fails client_id room_id data :
  stable P → preserves P (on_message int_of_str fails client_id room_id data).
Proof.
  intros [Hclosed Hname]. apply preserves_on_message_own; [done|].
  intros m v. apply Hname.
Qed.

Lemma preserves_cleanup_stable P fails client_id room_id :
  stable P → preserves P (cleanup fails client_id room_id).
Proof.
  intros HP. apply (preserves_cleanup (λ _, True)); [|done].
  by apply stable_disconnect_closed.
Qed.

(** ** Invariants of the manager *)

Lemma stable_wf : stable wf.
Proof.
  split.
  - intros m c _ [Hcnt Hids Hcoh Hips].
    assert (∀ k, k = c →
              is_Some (active_connections m !! c) →
              active_connections (disconnect m c) !! k = None ∧
              client_rooms (disconnect m c) !! k = None ∧
              client_ips (disconnect m c) !! k = None) as Hgone.
    { intros k -> Hin. by destruct (disconnect_gone m c Hin) as (? & _ & ? & ?). }
    split.
    + by rewrite disconnect_counter.
    + intros k Hk. rewrite disconnect_counter. apply Hids.
      destruct Hk as [[x Hx]|[x Hx]]; [left|right]; exists x.
      * by eapply lookup_weaken, disconnect_active_subseteq.
      * by eapply lookup_weaken, disconnect_rooms_subseteq.
    + intros k. destruct (decide (k = c)) as [->|Hne].
      * destruct (active_connections m !! c) as [ws|] eqn:Hws.
        -- destruct (Hgone c eq_refl) as (-> & -> & _); [by eauto|done].
        -- rewrite disconnect_absent by done. apply Hcoh.
      * destruct (disconnect_same_client m c k Hne) as (-> & _ & -> & _).
        apply Hcoh.
    + intros k. destruct (decide (k = c)) as [->|Hne].
      * destruct (active_connections m !! c) as [ws|] eqn:Hws.
        -- destruct (Hgone c eq_refl) as (-> & _ & ->); [by eauto|done].
        -- rewrite disconnect_absent by done. apply Hips.
      * destruct (disconnect_same_client m c k Hne) as (-> & _ & _ & ->).
        apply Hips.
  - by intros m c v [Hcnt Hids Hcoh Hips].
Qed.

Lemma stable_within_capacity C : stable (within_capacity C).
Proof.
  split.
  - intros m c _ [Hmax Hcap]. split; [by rewrite disconnect_max_peers|].
    intros r. specialize (Hcap r). unfold get_peers_in_room in *.
    pose proof (peers_of_length_mono _ _ r (disconnect_rooms_subseteq m c)). lia.
  - by intros m c v [Hmax Hcap].
Qed.

Lemma stable_counter n : stable (λ m, client_counter m = n).
Proof.
  split; [|done]. intros m c _ Hm. by rewrite disconnect_counter.
Qed.

Lemma stable_and P Q : stable P → stable Q → stable (λ m, P m ∧ Q m).
Proof.
  intros [Pd Pn] [Qd Qn].
  split; [intros m c ? [HP HQ]|intros m c v [HP HQ]]; split; auto.
Qed.

Lemma wf_fresh m : wf m → client_rooms m !! (client_counter m + 1) = None.
Proof.
  intros [_ Hids _ _]. apply eq_None_not_Some. intros Hin.
  specialize (Hids _ (or_intror Hin)). lia.
Qed.

Lemma wf_new_manager C : wf (new_manager C).
Proof.
  split; simpl; [done|..].
  - intros k [[x Hx]|[x Hx]]; by rewrite lookup_empty in Hx.
  - intros k. by rewrite !lookup_empty.
  - intros k. by rewrite !lookup_empty.
Qed.

Lemma wf_registered m room_id websocket client_ip peer_name :
  wf m → wf (registered m room_id websocket client_ip peer_name).
Proof.
  intros [Hcnt Hids Hcoh Hips]. split; simpl.
  - lia.
  - intros k Hk. destruct (decide (k = client_counter m + 1)) as [->|Hne]; [lia|].
    rewrite !lookup_insert_ne in Hk by done.
    specialize (Hids k Hk). lia.
  - intros k. destruct (decide (k = client_counter m + 1)) as [->|Hne].
    + rewrite !lookup_insert_eq. split; eauto.
    + rewrite !lookup_insert_ne by done. apply Hcoh.
  - intros k. destruct (decide (k = client_counter m + 1)) as [->|Hne].
    + rewrite !lookup_insert_eq. split; eauto.
    + rewrite !lookup_insert_ne by done. apply Hips.
Qed.

Lemma registered_occupancy m room_id websocket client_ip peer_name r :
  wf m →
  length (get_peers_in_room (registered m room_id websocket client_ip peer_name) r) =
    ((if decide (room_id = r) then 1 else 0) + length (get_peers_in_room m r))%nat.
Proof.
  intros Hwf. unfold get_peers_in_room. simpl.
  by apply peers_of_insert_fresh, wf_fresh.
Qed.

Lemma within_capacity_registered C m room_id websocket client_ip peer_name :
  wf m → within_capacity C m → has_space m room_id →
  within_capacity C (registered m room_id websocket client_ip peer_name).
Proof.
  intros Hwf [Hmax Hcap] Hsp. split; [done|]. intros r.
  rewrite registered_occupancy by done. specialize (Hcap r).
  unfold has_space in Hsp. case_decide; subst; lia.
Qed.

Lemma requested_room_of_nonempty first_data requested_room :
  requested_room_of first_data = Some requested_room → requested_room ≠ "".
Proof.
  unfold requested_room_of, py_or.
  destruct (truthy (dict_get first_data "roomId")) eqn:Htruthy.
  - destruct (dict_get first_data "roomId"); try done.
    intros [= <-] ->. done.
  - by intros [= <-].
Qed.

Lemma find_available_room_nonempty fuel m requested_room room redirected :
  requested_room ≠ "" →
  find_available_room fuel m requested_room = Some (room, redirected) →
  room ≠ "".
Proof.
  intros Hne. unfold find_available_room. case_decide.
  - by intros [= <- <-].
  - intros (_ & n & _ & -> & _)%find_overflow_room_Some.
    apply overflow_name_nonempty.
Qed.

Lemma find_available_room_has_space fuel m requested_room room redirected :
  find_available_room fuel m requested_room = Some (room, redirected) →
  has_space m room.
Proof.
  unfold find_available_room. case_decide.
  - by intros [= <- <-].
  - by intros (_ & n & _ & -> & ? & _)%find_overflow_room_Some.
Qed.

(** ** The join handshake *)

Lemma yields_hret {A} (v : A) : yields v (hret v).
Proof. intros m. by right. Qed.

Lemma yields_hbind {A B} (v : B) (h : Handler A) (k : A → Handler B) :
  (∀ a, yields v (k a)) → yields v (hbind h k).
Proof.
  intros Hk m. unfold hbind. destruct (h m) as [[m1 s1] [a|]]; [|by left].
  specialize (Hk a m1). by destruct (k a m1) as [[m2 s2] r].
Qed.

Lemma yields_protect {A} (v : A) (body : Handler A) (handler : Handler unit) :
  yields v body → yields v (protect body handler).
Proof.
  intros Hb m. unfold protect. specialize (Hb m).
  destruct (body m) as [[m1 s1] [a|]]; [done|].
  destruct (handler m1) as [[m2 s2] r]. by left.
Qed.

Lemma opens_with_ws_send {B} fails c msg (k : unit → Handler B) :
  opens_with (Send c msg) (hbind (ws_send fails c msg) k).
Proof.
  intros m. unfold hbind, ws_send. destruct (fails c); [by eexists|].
  destruct (k () m) as [[m2 s2] r]. by eexists.
Qed.

Lemma opens_with_protect {A} s (body : Handler A) (handler : Handler unit) :
  opens_with s body → opens_with s (protect body handler).
Proof.
  intros Hb m. unfold protect. destruct (Hb m) as [rest Hrest].
  destruct (body m) as [[m1 s1] [a|]]; simpl in *; [by eexists|].
  destruct (handler m1) as [[m2 s2] r]. simpl. subst s1. by eexists.
Qed.

Section Join.

Context (int_of_str : string → option Z).

(** What a join that returned has done: it chose a room with
    [find_available_room], registered the next id in it, sent the welcome
    first, and then only disconnected or renamed clients. *)
Lemma join_Some fuel fails websocket client_ip first_data m m' out res :
  join int_of_str fuel fails websocket client_ip first_data m = Some (m', out, res) →
  ∃ requested_room room_id was_redirected,
    requested_room_of first_data = Some requested_room ∧
    find_available_room fuel m requested_room = Some (room_id, was_redirected) ∧
    let client_id := client_counter m + 1 in
    let m2 := registered m room_id websocket client_ip (peer_name_of first_data) in
    (∀ P, disconnect_closed (λ _, True) P → P m2 → P m') ∧
    (res = None ∨ res = Some (client_id, room_id)) ∧
    ∃ rest, out = Send client_id
                    (welcome_msg client_id (total_clients m2)
                       (Z.of_nat (length (get_peers_in_room m2 room_id)) - 1)
                       room_id) :: rest.
Proof.
  unfold join. intros Hjoin.
  destruct (requested_room_of first_data) as [requested_room|]; [|done].
  destruct (find_available_room fuel m requested_room)
    as [[room_id was_redirected]|] eqn:Hfind; [|done].
  exists requested_room, room_id, was_redirected.
  split; [done|]. split; [done|]. simpl.
  fold (registered m room_id websocket client_ip (peer_name_of first_data)) in Hjoin.
  set (m2 := registered m room_id websocket client_ip (peer_name_of first_data)) in *.
  injection Hjoin as Hjoin.
  match type of Hjoin with protect ?b ?h m2 = _ =>
    set (body := b) in *; set (handler := h) in * end.
  split; [|split].
  - intros P HP Hm2.
    assert (preserves P (protect body handler)) as Hpres.
    { apply preserves_protect; [|by apply (preserves_cleanup (λ _, True))].
      repeat (apply preserves_hbind; [|intros ?]);
        first [ apply preserves_ws_send | apply preserves_hret
              | apply preserves_hget
              | by apply (preserves_hbroadcast (λ _, True))
              | by apply preserves_process_first_message
              | destruct was_redirected;
                  [apply preserves_ws_send | apply preserves_hret] ]. }
    specialize (Hpres m2 Hm2). by rewrite Hjoin in Hpres.
  - assert (yields (client_counter m + 1, room_id) (protect body handler)) as Hy.
    { apply yields_protect. repeat (apply yields_hbind; intros ?).
      apply yields_hret. }
    specialize (Hy m2). by rewrite Hjoin in Hy.
  - destruct (opens_with_protect _ body handler (opens_with_ws_send _ _ _ _) m2)
      as [rest Hrest].
    rewrite Hjoin in Hrest. simpl in Hrest. by exists rest.
Qed.

End Join.

(** ** Invariants of the server *)

Section Server.

Context (int_of_str : string → option Z).

(** A step changes the manager by a registration into a room with space
    (a join) followed by disconnects and renamings, or by these alone. *)
Lemma step_manager fuel fails st ev st' out (P : ConnectionManager → Prop) :
  stable P →
  (∀ m room_id websocket client_ip peer_name,
     P m → has_space m room_id →
     P (registered m room_id websocket client_ip peer_name)) →
  step int_of_str fuel fails st ev = Some (st', out) →
  P (mgr st) → P (mgr st').
Proof.
  intros HP Hreg Hstep Hst. destruct ev as [ws ip d|c d|c]; simpl in Hstep.
  - destruct (join _ _ _ _ _ _ _) as [[[m' o] res]|] eqn:Hjoin; [|done].
    apply join_Some in Hjoin
      as (req & room & redir & _ & Hfind & Hpres & _ & _).
    assert (P m') as Hm'.
    { apply Hpres; [by apply stable_disconnect_closed|]. apply Hreg; [done|].
      by eapply find_available_room_has_space. }
    destruct res as [[c r]|]; by injection Hstep as <- <-.
  - destruct (sessions st !! c) as [room|]; [|done].
    pose proof (preserves_on_message P int_of_str fails c room d HP _ Hst) as Hm'.
    destruct (on_message _ _ _ _ _ _) as [[m' o] [[]|]];
      by injection Hstep as <- <-.
  - destruct (sessions st !! c) as [room|]; [|done].
    pose proof (preserves_cleanup_stable P fails c room HP _ Hst) as Hm'.
    unfold on_receive_error in Hstep.
    destruct (cleanup _ _ _ _) as [[m' o] r]. by injection Hstep as <- <-.
Qed.

Lemma reachable_manager C (P : ConnectionManager → Prop) :
  stable P →
  P (new_manager C) →
  (∀ m room_id websocket client_ip peer_name,
     P m → has_space m room_id →
     P (registered m room_id websocket client_ip peer_name)) →
  ∀ st, reachable int_of_str C st → P (mgr st).
Proof.
  intros HP Hinit Hreg st. induction 1 as [|st fuel fails ev st' out _ IH Hstep].
  - done.
  - by eapply step_manager.
Qed.

Lemma reachable_wf C st : reachable int_of_str C st → wf (mgr st).
Proof.
  apply reachable_manager.
  - apply stable_wf.
  - apply wf_new_manager.
  - intros. by apply wf_registered.
Qed.

Lemma reachable_within_capacity C st :
  0 ≤ C → reachable int_of_str C st → within_capacity C (mgr st).
Proof.
  intros HC Hreach.
  enough (wf (mgr st) ∧ within_capacity C (mgr st)) as [_ ?] by done.
  revert st Hreach.
  apply (reachable_manager C (λ m, wf m ∧ within_capacity C m)).
  - apply stable_and; [apply stable_wf|apply stable_within_capacity].
  - split; [apply wf_new_manager|]. split; [done|]. intros r.
    unfold get_peers_in_room, peers_of. simpl.
    rewrite map_to_list_empty. simpl. lia.
  - intros m r ws ip name [Hwf Hcap] Hsp. split.
    + by apply wf_registered.
    + by apply within_capacity_registered.
Qed.

Lemma reachable_max_peers C st :
  reachable int_of_str C st → max_peers_per_room (mgr st) = C.
Proof.
  apply (reachable_manager C (λ m, max_peers_per_room m = C)).
  - split; [|done]. intros m c _ Hm. by rewrite disconnect_max_peers.
  - done.
  - done.
Qed.

Lemma step_sessions_ok fuel fails st ev st' out :
  wf (mgr st) → sessions_ok st →
  step int_of_str fuel fails st ev = Some (st', out) →
  sessions_ok st'.
Proof.
  intros Hwf Hok Hstep.
  destruct ev as [ws ip d|c d|c]; simpl in Hstep.
  - destruct (join _ _ _ _ _ _ _) as [[[m' o] res]|] eqn:Hjoin; [|done].
    apply join_Some in Hjoin
      as (req & room & redir & Hreq & Hfind & Hpres & Hres & _).
    pose proof (Hpres _ (stable_disconnect_closed _ _
                  (stable_counter (client_counter (mgr st) + 1))) eq_refl) as Hcnt.
    simpl in Hcnt.
    assert (room ≠ "") as Hroom.
    { eapply find_available_room_nonempty; [|done].
      by eapply requested_room_of_nonempty. }
    pose proof (wf_counter _ Hwf).
    destruct Hres as [->| ->]; injection Hstep as <- <-; intros k r; simpl.
    + intros Hk. destruct (Hok k r Hk). split; [lia|done].
    + destruct (decide (k = client_counter (mgr st) + 1)) as [->|Hne].
      * rewrite lookup_insert_eq. intros [= <-]. split; [lia|done].
      * rewrite lookup_insert_ne by done. intros Hk.
        destruct (Hok k r Hk). split; [lia|done].
  - destruct (sessions st !! c) as [room|]; [|done].
    pose proof (preserves_on_message _ int_of_str fails c room d
                  (stable_counter (client_counter (mgr st))) _ eq_refl) as Hcnt.
    destruct (on_message _ _ _ _ _ _) as [[m' o] [[]|]];
      injection Hstep as <- <-; intros k r; simpl in *; rewrite Hcnt.
    + apply Hok.
    + intros Hk. apply Hok. by eapply lookup_weaken, delete_subseteq.
  - destruct (sessions st !! c) as [room|]; [|done].
    pose proof (preserves_cleanup_stable _ fails c room
                  (stable_counter (client_counter (mgr st))) _ eq_refl) as Hcnt.
    unfold on_receive_error in Hstep.
    destruct (cleanup _ _ _ _) as [[m' o] r']. injection Hstep as <- <-.
    intros k r; simpl in *; rewrite Hcnt.
    intros Hk. apply Hok. by eapply lookup_weaken, delete_subseteq.
Qed.

Lemma reachable_sessions_ok C st : reachable int_of_str C st → sessions_ok st.
Proof.
  induction 1 as [|st fuel fails ev st' out Hreach IH Hstep].
  - intros k r. simpl. by rewrite lookup_empty.
  - eapply step_sessions_ok; [|done..]. by eapply reachable_wf.
Qed.

Lemma stable_registered_in client_id room_id : stable (registered_in client_id room_id).
Proof.
  split.
  - intros m c _ [Hle Hroom]. split; [by rewrite disconnect_counter|].
    intros r Hr. apply Hroom. by eapply lookup_weaken, disconnect_rooms_subseteq.
  - by intros m c v [Hle Hroom].
Qed.

Lemma registered_in_registered client_id room_id m r websocket client_ip peer_name :
  registered_in client_id room_id m →
  registered_in client_id room_id (registered m r websocket client_ip peer_name).
Proof.
  intros [Hle Hroom]. split; simpl; [lia|].
  rewrite lookup_insert_ne by lia. apply Hroom.
Qed.

(** A live session and the manager agree on the room of the client. *)
Lemma reachable_session_room C st client_id room_id :
  reachable int_of_str C st →
  sessions st !! client_id = Some room_id →
  registered_in client_id room_id (mgr st).
Proof.
  intros Hreach. revert client_id room_id.
  induction Hreach as [|st fuel fails ev st' out Hreach IH Hstep];
    intros k room Hk.
  { simpl in Hk. by rewrite lookup_empty in Hk. }
  assert (sessions st !! k = Some room → registered_in k room (mgr st')) as Hold.
  { intros Hin. eapply step_manager; [apply stable_registered_in| |done|by apply IH].
    intros. by apply registered_in_registered. }
  destruct ev as [ws ip d|c d|c]; simpl in Hstep.
  - destruct (join _ _ _ _ _ _ _) as [[[m' o] res]|] eqn:Hjoin; [|done].
    apply join_Some in Hjoin
      as (req & room' & redir & _ & _ & Hpres & Hres & _).
    destruct Hres as [->| ->]; injection Hstep as <- <-; simpl in *.
    + by apply Hold.
    + destruct (decide (k = client_counter (mgr st) + 1)) as [->|Hne].
      * rewrite lookup_insert_eq in Hk. injection Hk as ->.
        apply Hpres.
        { apply stable_disconnect_closed, stable_registered_in. }
        split; simpl; [lia|]. rewrite lookup_insert_eq. by intros r [= <-].
      * rewrite lookup_insert_ne in Hk by done. by apply Hold.
  - destruct (sessions st !! c) as [room'|] eqn:Hc; [|done].
    destruct (on_message _ _ _ _ _ _) as [[m' o] [[]|]];
      injection Hstep as <- <-; simpl in *; apply Hold; [done|].
    by eapply lookup_weaken, delete_subseteq.
  - destruct (sessions st !! c) as [room'|] eqn:Hc; [|done].
    unfold on_receive_error in Hstep.
    destruct (cleanup _ _ _ _) as [[m' o] r]. injection Hstep as <- <-.
    simpl in *. apply Hold. by eapply lookup_weaken, delete_subseteq.
Qed.

End Server.

(** ** Room capacity *)

(** C1.  On a server of capacity [C], in every state reached by joins
    (and by any other traffic) no room string is the room of more than [C]
    clients.  A join that asks for a room holding [C] clients already is
    given [<requested>_<n>] instead, [n >= 1] the first index whose room
    has space: that room is in the welcome frame, which is the first send
    to the new client [client_counter + 1], and it is the room of the
    session and, unless the join ended in the cleanup, the room the manager
    has for the client.  With a capacity of at least one such a join
    returns. *)
Theorem room_capacity_invariant (int_of_str : string → option Z) (C : Z) :
  0 ≤ C →
  (∀ st, reachable int_of_str C st →
     ∀ room_id, Z.of_nat (length (get_peers_in_room (mgr st) room_id)) ≤ C) ∧
  (∀ st fuel fails websocket client_ip first_data requested_room st' out,
     reachable int_of_str C st →
     requested_room_of first_data = Some requested_room →
     Z.of_nat (length (get_peers_in_room (mgr st) requested_room)) = C →
     step int_of_str fuel fails st (EvJoin websocket client_ip first_data)
       = Some (st', out) →
     ∃ n, 1 ≤ n ∧
       has_space (mgr st) (overflow_name requested_room n) ∧
       (∀ k, 1 ≤ k < n → ¬ has_space (mgr st) (overflow_name requested_room k)) ∧
       let client_id := client_counter (mgr st) + 1 in
       (∃ total peers rest,
          out = Send client_id
                  (welcome_msg client_id total peers
                     (overflow_name requested_room n)) :: rest) ∧
       (∀ r, sessions st' !! client_id = Some r →
             r = overflow_name requested_room n) ∧
       (∀ r, client_rooms (mgr st') !! client_id = Some r →
             r = overflow_name requested_room n)) ∧
  (1 ≤ C →
   ∀ st fails websocket client_ip first_data,
     reachable int_of_str C st →
     is_Some (requested_room_of first_data) →
     is_Some (step int_of_str (S (size (client_rooms (mgr st)))) fails st
                (EvJoin websocket client_ip first_data))).
Proof.
  intros HC. split; [|split].
  - intros st Hreach. by apply (reachable_within_capacity int_of_str C st).
  - intros st fuel fails ws ip d req st' out Hreach Hreq Hfull Hstep.
    pose proof (reachable_max_peers _ _ _ Hreach) as Hmax.
    pose proof (reachable_sessions_ok _ _ _ Hreach) as Hok.
    simpl in Hstep.
    destruct (join _ _ _ _ _ _ _) as [[[m' o] res]|] eqn:Hjoin; [|done].
    apply join_Some in Hjoin
      as (req' & room & redir & Hreq' & Hfind & Hpres & Hres & rest & Hout).
    rewrite Hreq in Hreq'. injection Hreq' as <-.
    unfold find_available_room in Hfind.
    rewrite decide_False in Hfind by (unfold has_space; lia).
    apply find_overflow_room_Some in Hfind as (-> & n & Hn & -> & Hsp & Hleast).
    exists n. split; [lia|]. split; [done|]. split; [done|]. simpl.
    split; [|split].
    + assert (out = o) as -> by (by destruct res as [[??]|]; injection Hstep).
      eauto.
    + intros r Hr. destruct Hres as [->| ->]; injection Hstep as <- _;
        simpl in Hr.
      * destruct (Hok _ _ Hr). lia.
      * rewrite lookup_insert_eq in Hr. by injection Hr.
    + assert (mgr st' = m') as -> by (by destruct res as [[??]|]; injection Hstep as <-).
      apply (Hpres (registered_in (client_counter (mgr st) + 1)
                      (overflow_name req n))).
      * apply stable_disconnect_closed, stable_registered_in.
      * split; simpl; [lia|]. rewrite lookup_insert_eq. by intros r [= <-].
  - intros HC1 st fails ws ip d Hreach [req Hreq]. simpl. unfold join.
    rewrite Hreq.
    destruct (find_available_room_returns (S (size (client_rooms (mgr st))))
                (mgr st) req) as (room & redir & ->); [|lia|].
    { by rewrite (reachable_max_peers _ _ _ Hreach). }
    match goal with |- context [protect ?b ?h ?m] =>
      destruct (protect b h m) as [[m' o] [[c r]|]] end; eauto.
Qed.

Lemma room_capacity_invariant_witness :
  0 ≤ 1 ∧ Z.of_nat (length (get_peers_in_room (mgr capacity_one_joined) "room1")) ≤ 1.
Proof.
  split; [lia|].
  apply (proj1 (room_capacity_invariant int_of_digits 1 ltac:(lia))).
  apply (reachable_step _ _ (mkSystem (new_manager 1) ∅) 1%nat no_failure
           (EvJoin 7%N "10.0.0.1" {[ "roomId" := JStr "room1"; "peerName" := JStr "A" ]})
           capacity_one_joined
           [Send 1 (welcome_msg 1 1 0 "room1")]).
  - apply reachable_init.
  - vm_compute. reflexivity.
Defined.

(** ** Routing *)

Lemma hbind_hmodify {B} (f : ConnectionManager → ConnectionManager)
    (k : unit → Handler B) m :
  hbind (hmodify f) k m = k () (f m).
Proof. unfold hbind, hmodify. by destruct (k () (f m)) as [[m2 s2] r]. Qed.

Lemma hbind_hget {A B} (f : ConnectionManager → A) (k : A → Handler B) m :
  hbind (hget f) k m = k (f m) m.
Proof. unfold hbind, hget. by destruct (k (f m) m) as [[m2 s2] r]. Qed.

Lemma hbind_hlift_Some {A B} (a : A) (k : A → Handler B) m :
  hbind (hlift (Some a)) k m = k a m.
Proof. unfold hbind, hlift. by destruct (k a m) as [[m2 s2] r]. Qed.

Lemma protect_Some {A} (body : Handler A) handler m m' out a :
  protect body handler m = (m', out, Some a) → body m = (m', out, Some a).
Proof.
  unfold protect. destruct (body m) as [[m1 s1] [a1|]]; [done|].
  by destruct (handler m1) as [[m2 s2] r].
Qed.

Lemma on_message_unfold int_of_str fails client_id room_id data m :
  on_message int_of_str fails client_id room_id data m =
    protect (dispatch int_of_str fails data client_id room_id)
            (cleanup fails client_id room_id) (renamed m data client_id).
Proof.
  unfold on_message, protect, update_peer_name. by rewrite hbind_hmodify.
Qed.

Lemma is_type_true message_type s :
  is_type message_type s = true → message_type = JStr s.
Proof.
  destruct message_type; try done. simpl.
  by intros ->%bool_decide_eq_true.
Qed.

Section Routing.

Context (int_of_str : string → option Z).

(** A signaling frame with a non-zero integer [targetId]: one send to the
    target when it is connected and in the session's room, none otherwise;
    the manager is left alone. *)
Lemma dispatch_unicast fails data client_id room_id v t m :
  is_signaling (dict_get_default data "type" (JStr "unknown")) = true →
  dict_get data "targetId" = v → v ≠ JNull →
  py_int int_of_str v = Some t → t ≠ 0 →
  dispatch int_of_str fails data client_id room_id m =
    (m,
     if decide (client_rooms m !! t = Some room_id ∧
                is_Some (active_connections m !! t))
     then [Send t (with_sender data client_id)] else [],
     Some ()).
Proof.
  intros Htype Hget Hv Hint Ht. unfold dispatch. rewrite Htype. subst v.
  destruct (dict_get data "targetId"); [done|..];
    (rewrite Hint; unfold hbind at 1; rewrite hbind_hlift_Some; simpl;
     rewrite decide_True by done;
     unfold forward_to_target, hpersonal, send_personal_message, hret;
     destruct (decide (client_rooms m !! t = Some room_id)) as [Hr|Hr];
       [destruct (decide (is_Some (active_connections m !! t))) as [Ha|Ha]|];
       [ by rewrite decide_True by done
       | by rewrite decide_False by (by intros [??])
       | by rewrite decide_False by (by intros [??]) ]).
Qed.

(** A frame of a type the dispatch does not know, the absent type
    included: nothing is sent and nothing changes. *)
Lemma dispatch_unknown fails data client_id room_id m :
  known_type (dict_get_default data "type" (JStr "unknown")) = false →
  dispatch int_of_str fails data client_id room_id m = (m, [], Some ()).
Proof.
  unfold known_type, dispatch. intros Hk.
  repeat (apply orb_false_elim in Hk as [Hk ?]).
  by repeat match goal with H : _ = false |- _ => rewrite H; clear H end.
Qed.

Lemma hbroadcast_returns fails msg exclude_client_id room_id m :
  (hbroadcast fails msg exclude_client_id room_id m).2 = Some ().
Proof. unfold hbroadcast. by destruct (broadcast_quiet _ _ _ _ _). Qed.

Lemma forward_to_target_returns data client_id room_id t m :
  (forward_to_target data client_id room_id t m).2 = Some ().
Proof. unfold forward_to_target. by repeat case_decide. Qed.

(** When the dispatch raises it has not touched the manager. *)
Lemma dispatch_raises fails data client_id room_id m m1 s1 :
  dispatch int_of_str fails data client_id room_id m = (m1, s1, None) → m1 = m.
Proof.
  assert (∀ (h : Handler unit), (h m).2 = Some () → h m = (m1, s1, None) → m1 = m)
    as Hreturns.
  { intros h Hh Heq. rewrite Heq in Hh. done. }
  assert (∀ v, (hbind (hlift (py_int int_of_str v))
                  (λ t, forward_to_target data client_id room_id t) m
                = (m1, s1, None)) → m1 = m) as Htargeted.
  { intros v. unfold hbind, hlift. destruct (py_int int_of_str v) as [t|].
    - pose proof (forward_to_target_returns data client_id room_id t m) as Hfwd.
      destruct (forward_to_target _ _ _ _ _) as [[m2 s2] r]. simpl in Hfwd.
      by intros [= <- <- ->].
    - by intros [= <- <-]. }
  unfold dispatch.
  destruct (is_signaling _).
  { match goal with |- hbind ?rd ?k m = _ → _ =>
      set (reading := rd); set (route := k) end.
    assert (reading m = (m, [], None) ∨ ∃ o, reading m = (m, [], Some o)) as Hread.
    { unfold reading. destruct (dict_get data "targetId");
        unfold hbind, hlift, hret; simpl; eauto;
        match goal with |- context [int_of_str ?s] =>
          destruct (int_of_str s); eauto end. }
    assert (∀ o, (route o m).2 = Some ()) as Hroute.
    { intros [t|]; unfold route; [case_decide|];
        first [apply forward_to_target_returns | apply hbroadcast_returns]. }
    unfold hbind. destruct Hread as [->|[o ->]]; [by intros [= <- _]|].
    specialize (Hroute o). destruct (route o m) as [[m2 s2] r].
    simpl in Hroute. subst r. done. }
  destruct (is_type _ "chat"); [apply Hreturns, hbroadcast_returns|].
  destruct (is_type _ "mute-state"); [apply Hreturns, hbroadcast_returns|].
  destruct (is_type _ "screen-share-stopped").
  { destruct (dict_get data "targetId"); try done; apply Htargeted. }
  destruct (is_type _ "get-peers"); [|done].
  rewrite hbind_hget. unfold ws_send. by intros [= <- _ _].
Qed.

End Routing.

Lemma lobby_of_two_reachable int_of_str : reachable int_of_str 32 lobby_of_two.
Proof.
  apply (reachable_step _ _ lobby_of_one 1%nat no_failure
           (EvJoin 8%N "10.0.0.2" {[ "roomId" := JStr "lobby"; "peerName" := JStr "B" ]})
           lobby_of_two
           [Send 2 (welcome_msg 2 2 1 "lobby");
            Send 1 (peer_connected_msg 2 (JStr "B") 2 2)]).
  - apply (reachable_step _ _ (mkSystem (new_manager 32) ∅) 1%nat no_failure
             (EvJoin 7%N "10.0.0.1" {[ "roomId" := JStr "lobby"; "peerName" := JStr "A" ]})
             lobby_of_one
             [Send 1 (welcome_msg 1 1 0 "lobby")]).
    + apply reachable_init.
    + vm_compute. reflexivity.
  - vm_compute. reflexivity.
Qed.

(** C3, at the input where the code departs from it.  Clients 1 and 2 are in
    ["lobby"]; no client 0 is registered.  Client 1 sends, in its message
    loop, an offer that carries [targetId] 0.  The frame is not dropped:
    [if target_id:] takes 0 for an absent target, and client 2 receives the
    frame as a multicast. *)
Theorem offer_to_zero_is_multicast (int_of_str : string → option Z) :
  reachable int_of_str 32 lobby_of_two ∧
  active_connections (mgr lobby_of_two) !! 0 = None ∧
  dict_get offer_to_zero "targetId" = JInt 0 ∧
  step int_of_str 0 no_failure lobby_of_two (EvMessage 1 offer_to_zero) =
    Some (lobby_of_two, [Send 2 (with_sender offer_to_zero 1)]).
Proof.
  split; [apply lobby_of_two_reachable|].
  split; [reflexivity|]. split; [reflexivity|].
  vm_compute. reflexivity.
Qed.

(** C5, at the input where the code departs from it.  Client 1 is in
    ["lobby"]; a
    second client joins it with a first frame that is an offer without
    [targetId].  The join sends the welcome and the [peer-connected]
    notice and nothing else: the offer reaches nobody.  The same frame
    sent by the same client from its message loop is multicast to client
    1. *)
Theorem first_offer_without_target_is_lost (int_of_str : string → option Z) :
  step int_of_str 1 no_failure lobby_of_one
       (EvJoin 8%N "10.0.0.2" untargeted_first_offer) =
    Some (lobby_of_two,
          [Send 2 (welcome_msg 2 2 1 "lobby");
           Send 1 (peer_connected_msg 2 (JStr "B") 2 2)]) ∧
  step int_of_str 0 no_failure lobby_of_two (EvMessage 2 untargeted_first_offer) =
    Some (lobby_of_two, [Send 1 (with_sender untargeted_first_offer 2)]).
Proof. split; vm_compute; reflexivity. Qed.

(** ** Display names *)

(** C8 as stated fails: a frame that carries [displayName] and [name] (and
    no [peerName]) leaves the stored name of its sender, ["A"], as it
    was. *)
Lemma display_name_fields_ignored :
  renaming_chat !! "displayName" = Some (JStr "Zed") ∧
  renaming_chat !! "name" = Some (JStr "Zed") ∧
  client_names (mgr lobby_of_two) !! 1 = Some (JStr "A") ∧
  ∃ st' out,
    step int_of_digits 0 no_failure lobby_of_two (EvMessage 1 renaming_chat)
      = Some (st', out) ∧
    client_names (mgr st') !! 1 = Some (JStr "A").
Proof.
  split; [reflexivity|]. split; [reflexivity|]. split; [reflexivity|].
  eexists _, _. split; [vm_compute; reflexivity|]. reflexivity.
Qed.

(** C8, amended.  For every frame read in the message loop that carries a
    [peerName] field, whatever its type, the stored name of the sender is
    set to that value and the dispatch runs on the manager so updated; when
    the handler does not raise, the stored name is still that value after
    the dispatch. *)
Theorem peer_name_overwritten (int_of_str : string → option Z)
    (fails : Z → bool) (client_id : Z) (room_id : string) (data : message)
    (v : json) (m : ConnectionManager) :
  client_id ≠ 0 →
  data !! "peerName" = Some v →
  on_message int_of_str fails client_id room_id data m =
    protect (dispatch int_of_str fails data client_id room_id)
            (cleanup fails client_id room_id)
            (set_client_name m client_id v) ∧
  client_names (set_client_name m client_id v) !! client_id = Some v ∧
  ∀ m' out,
    on_message int_of_str fails client_id room_id data m = (m', out, Some ()) →
    client_names m' !! client_id = Some v.
Proof.
  intros Hid Hname.
  assert (renamed m data client_id = set_client_name m client_id v) as Hren.
  { unfold renamed. rewrite Hname. by rewrite decide_True. }
  rewrite on_message_unfold, Hren.
  split; [done|]. split; [apply lookup_insert_eq|].
  intros m' out Hrun%protect_Some.
  pose proof (preserves_dispatch (λ c, c ≠ client_id)
                (λ m, client_names m !! client_id = Some v)) as Hpres.
  specialize (Hpres ltac:(intros m0 c Hc Hm0; by rewrite disconnect_names_other)
                int_of_str fails data client_id room_id ltac:(done)
                (set_client_name m client_id v)).
  rewrite Hrun in Hpres. apply Hpres. apply lookup_insert_eq.
Qed.

Lemma peer_name_overwritten_witness :
  client_names
    (on_message int_of_digits no_failure 1 "lobby" renaming_mute
       (mgr lobby_of_two)).1.1 !! 1 = Some (JStr "Ann").
Proof.
  assert (1 ≠ 0) as Hid by lia.
  assert (renaming_mute !! "peerName" = Some (JStr "Ann")) as Hname
    by (vm_compute; reflexivity).
  destruct (peer_name_overwritten int_of_digits no_failure 1 "lobby"
              renaming_mute (JStr "Ann") (mgr lobby_of_two) Hid Hname)
    as (_ & _ & Hafter).
  eapply Hafter. vm_compute. reflexivity.
Defined.

(** ** Runs among other coroutines *)

Lemma iter_check_refl m : iter_check m m = Some true.
Proof. unfold iter_check. by rewrite !decide_True. Qed.

(** With nothing to interfere the loop of [broadcast] is the fold of
    [broadcast_quiet]. *)
Lemma broadcast_from_quiet fails m msg exclude_client_id room_id items acc :
  broadcast_from fails m msg exclude_client_id room_id items acc (World m []) =
    Some (World m [],
          (foldl (broadcast_body fails m msg exclude_client_id room_id) acc items).1,
          Some (foldl (broadcast_body fails m msg exclude_client_id room_id)
                  acc items).2).
Proof.
  revert acc. induction items as [|c items IH]; intros [out failed];
    cbn [broadcast_from foldl manager]; rewrite iter_check_refl; [done|].
  cbn [fst snd suspend pending manager]. rewrite !IH.
  destruct (broadcast_body fails m msg exclude_client_id room_id (out, failed) c)
    as [out1 failed1] eqn:Hbody.
  unfold broadcast_body in Hbody.
  repeat case_decide; by injection Hbody as <- <-.
Qed.

Lemma broadcast_undisturbed fails msg exclude_client_id room_id :
  undisturbed (broadcast fails msg exclude_client_id room_id)
              (hbroadcast fails msg exclude_client_id room_id).
Proof.
  intros m. unfold undisturbed_at, broadcast, hbroadcast, broadcast_quiet.
  cbn [manager]. rewrite broadcast_from_quiet.
  by destruct (foldl (broadcast_body _ _ _ _ _) _ _) as [out failed].
Qed.

(** Once the size of the dict has changed the iterator raises, whatever
    items are left. *)
Lemma broadcast_from_size_changed fails m0 msg exclude_client_id room_id
    items acc w :
  size (active_connections (manager w)) ≠ size (active_connections m0) →
  broadcast_from fails m0 msg exclude_client_id room_id items acc w =
    Some (w, acc.1, None).
Proof.
  intros Hsize.
  assert (iter_check m0 (manager w) = Some false) as Hcheck
    by (unfold iter_check; by rewrite decide_False).
  destruct items; simpl; by rewrite Hcheck.
Qed.

(** A change of the number of connections during the send to the
    recipient of index [j] ends the loop after that send. *)
Lemma broadcast_from_aborts fails m msg exclude_client_id room_id f rest :
  size (active_connections (f m)) ≠ size (active_connections m) →
  ∀ items acc (j : nat),
    (j < length (filter (is_recipient m exclude_client_id room_id) items))%nat →
    broadcast_from fails m msg exclude_client_id room_id items acc
        (World m (replicate j nothing ++ f :: rest)) =
      Some (World (f m) rest,
            acc.1 ++ ((λ c, Send c msg) <$>
                        take (S j) (filter (is_recipient m exclude_client_id
                                              room_id) items)),
            None).
Proof.
  intros Hsize. induction items as [|c items IH]; intros [out failed] j Hj.
  { simpl in Hj. lia. }
  cbn [broadcast_from manager]. rewrite iter_check_refl.
  rewrite filter_cons in Hj |- *.
  destruct (decide (is_recipient m exclude_client_id room_id c))
    as [[Hne Hroom]|Hnot].
  - rewrite !decide_True by done. destruct j as [|j]; cbn [replicate app suspend
      pending manager fst snd].
    + rewrite broadcast_from_size_changed by done. done.
    + unfold nothing at 1. simpl in Hj.
      rewrite IH by lia. cbn [fst]. by rewrite <-app_assoc.
  - assert (broadcast_from fails m msg exclude_client_id room_id (c :: items)
              (out, failed) (World m (replicate j nothing ++ f :: rest)) =
            broadcast_from fails m msg exclude_client_id room_id items
              (out, failed) (World m (replicate j nothing ++ f :: rest)))
      as Hskip.
    { cbn [broadcast_from manager]. rewrite iter_check_refl.
      repeat case_decide; try done. by destruct Hnot. }
    repeat case_decide; try (by destruct Hnot); by apply IH.
Qed.

Lemma broadcast_aborts fails m msg exclude_client_id room_id f rest (j : nat) :
  size (active_connections (f m)) ≠ size (active_connections m) →
  (j < length (recipients m exclude_client_id room_id))%nat →
  broadcast fails msg exclude_client_id room_id
      (World m (replicate j nothing ++ f :: rest)) =
    Some (World (f m) rest,
          (λ c, Send c msg) <$> take (S j) (recipients m exclude_client_id room_id),
          None).
Proof.
  intros Hsize Hj. unfold broadcast. cbn [manager].
  by rewrite (broadcast_from_aborts _ _ _ _ _ f rest Hsize _ ([], []) j Hj).
Qed.

(** *** Undisturbed runs *)

Lemma undisturbed_lret {A} (a : A) : undisturbed (lret a) (hret a).
Proof. by intros m. Qed.

Lemma undisturbed_lget {A} (f : ConnectionManager → A) :
  undisturbed (lget f) (hget f).
Proof. by intros m. Qed.

Lemma undisturbed_lmodify f : undisturbed (lmodify f) (hmodify f).
Proof. by intros m. Qed.

Lemma undisturbed_llift {A} (o : option A) : undisturbed (llift o) (hlift o).
Proof. by intros m. Qed.

Lemma undisturbed_live_send fails client_id msg :
  undisturbed (live_send fails client_id msg) (ws_send fails client_id msg).
Proof. by intros m. Qed.

Lemma undisturbed_live_personal msg client_id :
  undisturbed (live_personal msg client_id) (hpersonal msg client_id).
Proof.
  intros m. unfold undisturbed_at, live_personal, hpersonal, send_personal_message.
  cbn [manager]. by case_decide.
Qed.

Lemma undisturbed_at_lbind {A B} m (l : Live A) (h : Handler A)
    (lk : A → Live B) (hk : A → Handler B) :
  undisturbed_at m l h →
  (∀ a, undisturbed_at (h m).1.1 (lk a) (hk a)) →
  undisturbed_at m (lbind l lk) (hbind h hk).
Proof.
  unfold undisturbed_at, lbind, hbind. intros -> Hk.
  destruct (h m) as [[m1 s1] [a|]]; cbn [fst snd] in *; [|done].
  rewrite Hk. by destruct (hk a m1) as [[m2 s2] r].
Qed.

Lemma undisturbed_lbind {A B} (l : Live A) (h : Handler A)
    (lk : A → Live B) (hk : A → Handler B) :
  undisturbed l h → (∀ a, undisturbed (lk a) (hk a)) →
  undisturbed (lbind l lk) (hbind h hk).
Proof. intros Hl Hk m. apply undisturbed_at_lbind; [done|]. intros a. apply Hk. Qed.

Lemma undisturbed_at_lprotect {A} m (lbody : Live A) (body : Handler A)
    lhandler handler :
  undisturbed_at m lbody body → undisturbed lhandler handler →
  undisturbed_at m (lprotect lbody lhandler) (protect body handler).
Proof.
  unfold undisturbed_at, lprotect, protect. intros -> Hh.
  destruct (body m) as [[m1 s1] [a|]]; cbn [fst snd]; [done|].
  rewrite Hh. by destruct (handler m1) as [[m2 s2] r].
Qed.

Lemma undisturbed_forward_to_target data client_id room_id target_id :
  undisturbed (live_forward_to_target data client_id room_id target_id)
              (forward_to_target data client_id room_id target_id).
Proof.
  intros m. unfold undisturbed_at, live_forward_to_target, forward_to_target.
  cbn [manager]. repeat case_decide; try done. apply undisturbed_live_personal.
Qed.

Lemma undisturbed_cleanup fails client_id room_id :
  undisturbed (live_cleanup fails client_id room_id)
              (cleanup fails client_id room_id).
Proof.
  unfold live_cleanup, cleanup. case_decide; [|apply undisturbed_lret].
  apply undisturbed_lbind; [apply undisturbed_lmodify|]. intros _.
  case_decide; [|apply undisturbed_lret].
  apply undisturbed_lbind; [apply undisturbed_lget|]. intros msg.
  apply broadcast_undisturbed.
Qed.

Section UndisturbedEndpoint.

Context (int_of_str : string → option Z).

Lemma undisturbed_targeted data client_id room_id (v : json) :
  undisturbed
    (lbind (llift (py_int int_of_str v))
       (λ t, live_forward_to_target data client_id room_id t))
    (hbind (hlift (py_int int_of_str v))
       (λ t, forward_to_target data client_id room_id t)).
Proof.
  apply undisturbed_lbind; [apply undisturbed_llift|]. intros t.
  apply undisturbed_forward_to_target.
Qed.

Lemma undisturbed_process_first_message first_data client_id room_id :
  undisturbed (live_process_first_message int_of_str first_data client_id room_id)
              (process_first_message int_of_str first_data client_id room_id).
Proof.
  unfold live_process_first_message, process_first_message.
  destruct (is_signaling _); [|apply undisturbed_lret].
  destruct (dict_get first_data "targetId");
    first [apply undisturbed_lret | apply undisturbed_targeted].
Qed.

Lemma undisturbed_dispatch fails data client_id room_id :
  undisturbed (live_dispatch int_of_str fails data client_id room_id)
              (dispatch int_of_str fails data client_id room_id).
Proof.
  unfold live_dispatch, dispatch.
  repeat match goal with
  | |- undisturbed (if ?b then _ else _) _ => destruct b
  end.
  - apply undisturbed_lbind.
    + destruct (dict_get data "targetId"); first
        [ apply undisturbed_lret
        | apply undisturbed_lbind; [apply undisturbed_llift|];
          intros t; apply undisturbed_lret ].
    + intros [t|]; [case_decide|];
        first [ apply undisturbed_forward_to_target
              | apply broadcast_undisturbed ].
  - apply broadcast_undisturbed.
  - apply broadcast_undisturbed.
  - destruct (dict_get data "targetId");
      first [apply undisturbed_lret | apply undisturbed_targeted].
  - apply undisturbed_lbind; [apply undisturbed_lget|].
    intros l. apply undisturbed_live_send.
  - apply undisturbed_lret.
Qed.

Lemma undisturbed_on_message fails client_id room_id data :
  undisturbed (live_on_message int_of_str fails client_id room_id data)
              (on_message int_of_str fails client_id room_id data).
Proof.
  intros m. apply undisturbed_at_lprotect; [|apply undisturbed_cleanup].
  apply undisturbed_lbind; [apply undisturbed_lmodify|]. intros _.
  apply undisturbed_dispatch.
Qed.

(** With nothing to interfere the live join is the join. *)
Lemma live_join_undisturbed fuel fails websocket client_ip first_data m :
  live_join int_of_str fuel fails websocket client_ip first_data (World m []) =
    match join int_of_str fuel fails websocket client_ip first_data m with
    | Some (m', out, res) => Some (World m' [], out, res)
    | None => None
    end.
Proof.
  unfold live_join, join. cbn [manager pending].
  destruct (requested_room_of first_data) as [requested_room|]; [|done].
  destruct (find_available_room fuel m requested_room)
    as [[room_id was_redirected]|]; [|done].
  match goal with |- lprotect ?lb ?lh (World ?m2 []) = _ =>
    match goal with |- context [protect ?b ?h m2] =>
      assert (undisturbed_at m2 (lprotect lb lh) (protect b h)) as Hrun
    end
  end.
  { apply undisturbed_at_lprotect; [|apply undisturbed_cleanup].
    apply undisturbed_at_lbind; [apply undisturbed_live_send|]. intros _.
    cbn [ws_send fst snd].
    apply undisturbed_at_lbind.
    { destruct was_redirected; [|apply undisturbed_lret].
      unfold undisturbed_at, lbind, lget, live_send, ws_send. by cbn. }
    intros _.
    assert (∀ (h : Handler unit) m0, (h m0).1.1 = m0 →
              ∀ {B} (lk : Live B) (hk : Handler B),
                undisturbed lk hk → undisturbed_at (h m0).1.1 lk hk) as Hsame.
    { intros h m0 _ B lk hk Hk. apply Hk. }
    apply Hsame; [by destruct was_redirected|].
    apply undisturbed_lbind; [apply undisturbed_lget|]. intros msg.
    apply undisturbed_lbind; [apply broadcast_undisturbed|]. intros _.
    apply undisturbed_lbind; [apply undisturbed_process_first_message|].
    intros _. apply undisturbed_lret. }
  unfold undisturbed_at in Hrun. rewrite Hrun.
  match goal with |- context [protect ?b ?h ?m2] =>
    by destruct (protect b h m2) as [[m' out] res] end.
Qed.

End UndisturbedEndpoint.

(** A live join that nothing interferes with is a join. *)
Lemma live_join_alone int_of_str fuel fails websocket client_ip first_data
    m w' out res :
  live_join int_of_str fuel fails websocket client_ip first_data (World m [])
    = Some (w', out, res) →
  pending w' = [] ∧
  join int_of_str fuel fails websocket client_ip first_data m
    = Some (manager w', out, res).
Proof.
  rewrite live_join_undisturbed.
  destruct (join _ _ _ _ _ _ _) as [[[m' o] r]|]; [|done].
  by intros [= <- <- <-].
Qed.

(** A first frame that is no signaling message is not routed, whatever
    the other coroutines do: the join is the join on the same frame
    without its [targetId]. *)
Lemma live_join_ignores_target int_of_str fuel fails websocket client_ip
    first_data w :
  is_signaling (dict_get_default first_data "type" (JStr "unknown")) = false →
  live_join int_of_str fuel fails websocket client_ip first_data w =
    live_join int_of_str fuel fails websocket client_ip
      (delete "targetId" first_data) w.
Proof.
  intros Htype.
  assert (peer_name_of (delete "targetId" first_data) = peer_name_of first_data)
    as Hname.
  { unfold peer_name_of, dict_get. by rewrite !lookup_delete_ne. }
  assert (requested_room_of (delete "targetId" first_data) =
          requested_room_of first_data) as Hroom.
  { unfold requested_room_of, dict_get. by rewrite !lookup_delete_ne. }
  assert (∀ client_id room_id,
            live_process_first_message int_of_str (delete "targetId" first_data)
              client_id room_id = lret ()) as Hafter.
  { intros client_id room_id. unfold live_process_first_message, dict_get_default.
    rewrite lookup_delete_ne by done. fold (dict_get_default first_data "type"
      (JStr "unknown")). by rewrite Htype. }
  assert (∀ client_id room_id,
            live_process_first_message int_of_str first_data client_id room_id
            = lret ()) as Hbefore.
  { intros client_id room_id. unfold live_process_first_message.
    by rewrite Htype. }
  unfold live_join. rewrite Hname, Hroom.
  destruct (requested_room_of first_data) as [requested_room|]; [|done].
  destruct (find_available_room fuel (manager w) requested_room)
    as [[room_id was_redirected]|]; [|done].
  by rewrite Hafter, Hbefore.
Qed.

(** ** Malformed frames *)

(** C9 as stated fails: an offer whose [targetId] is the string ["abc"]
    makes [int] raise in the message loop of client 1; the session ends
    through the [except] branch (client 2 is told that client 1 has left)
    and no later frame of client 1 is handled. *)
Lemma malformed_target_ends_session :
  sessions lobby_of_two !! 1 = Some "lobby" ∧
  ∃ st',
    step int_of_digits 0 no_failure lobby_of_two (EvMessage 1 offer_to_nobody)
      = Some (st', [Send 2 (peer_disconnected_msg 1 1 1)]) ∧
    sessions st' !! 1 = None ∧
    active_connections (mgr st') !! 1 = None ∧
    step int_of_digits 0 no_failure st' (EvMessage 1 renaming_mute) = None.
Proof.
  split; [reflexivity|].
  eexists. split; [vm_compute; reflexivity|].
  split; [reflexivity|]. split; [reflexivity|]. vm_compute. reflexivity.
Qed.

Lemma raises_hbind_k {A B} (h : Handler A) (k : A → Handler B) :
  (∀ a, raises (k a)) → raises (hbind h k).
Proof.
  intros Hk m. unfold hbind. destruct (h m) as [[m1 s1] [a|]]; [|done].
  specialize (Hk a m1). by destruct (k a m1) as [[m2 s2] r].
Qed.

Lemma raises_hbind_h {A B} (h : Handler A) (k : A → Handler B) :
  raises h → raises (hbind h k).
Proof.
  intros Hh m. unfold hbind. specialize (Hh m).
  destruct (h m) as [[m1 s1] [a|]]; [done|done].
Qed.

Lemma raises_protect {A} (body : Handler A) (handler : Handler unit) :
  raises body → raises (protect body handler).
Proof.
  intros Hb m. unfold protect. specialize (Hb m).
  destruct (body m) as [[m1 s1] [a|]]; [done|].
  by destruct (handler m1) as [[m2 s2] r].
Qed.

(** A first frame that is a signaling message with a [targetId] that
    [int] rejects: the join raises after the registration, so it opens no
    session. *)
Lemma join_raises int_of_str fuel fails websocket client_ip first_data m m' out res :
  is_signaling (dict_get_default first_data "type" (JStr "unknown")) = true →
  dict_get first_data "targetId" ≠ JNull →
  py_int int_of_str (dict_get first_data "targetId") = None →
  join int_of_str fuel fails websocket client_ip first_data m = Some (m', out, res) →
  res = None.
Proof.
  intros Htype Hpresent Hint. unfold join.
  destruct (requested_room_of first_data) as [requested_room|]; [|done].
  destruct (find_available_room fuel m requested_room)
    as [[room_id was_redirected]|]; [|done].
  intros [= Hrun].
  match type of Hrun with protect ?b ?h ?m2 = _ =>
    assert (raises (protect b h)) as Hraises; [|by rewrite (surjective_pairing
      (protect b h m2)), (Hraises m2) in Hrun; injection Hrun] end.
  apply raises_protect. do 4 (apply raises_hbind_k; intros ?).
  apply raises_hbind_h. intros m0. unfold process_first_message.
  rewrite Htype.
  destruct (dict_get first_data "targetId"); [done|..];
    try (by simpl in Hint); unfold hbind; by rewrite Hint.
Qed.

(** *** Handlers that return *)

Lemma returns_hret {A} (a : A) : returns (hret a).
Proof. intros m. by eexists. Qed.

Lemma returns_hget {A} (f : ConnectionManager → A) : returns (hget f).
Proof. intros m. by eexists. Qed.

Lemma returns_ws_send fails client_id msg :
  fails client_id = false → returns (ws_send fails client_id msg).
Proof. intros Hok m. unfold ws_send. simpl. rewrite Hok. by eexists. Qed.

Lemma returns_hbroadcast fails msg exclude_client_id room_id :
  returns (hbroadcast fails msg exclude_client_id room_id).
Proof. intros m. rewrite hbroadcast_returns. by eexists. Qed.

Lemma returns_hbind {A B} (h : Handler A) (k : A → Handler B) :
  returns h → (∀ a, returns (k a)) → returns (hbind h k).
Proof.
  intros Hh Hk m. unfold hbind. destruct (Hh m) as [a Ha].
  destruct (h m) as [[m1 s1] r]. simpl in Ha. subst r.
  specialize (Hk a m1). by destruct (k a m1) as [[m2 s2] r].
Qed.

Lemma returns_protect {A} (body : Handler A) (handler : Handler unit) :
  returns body → returns (protect body handler).
Proof.
  intros Hb m. unfold protect. destruct (Hb m) as [a Ha].
  destruct (body m) as [[m1 s1] r]. simpl in Ha. by subst r.
Qed.

(** A first frame that is no signaling message is not routed during the
    join: when the own socket works the join enters the message loop. *)
Lemma join_opens int_of_str fuel fails websocket client_ip first_data m m' out res :
  is_signaling (dict_get_default first_data "type" (JStr "unknown")) = false →
  fails (client_counter m + 1) = false →
  join int_of_str fuel fails websocket client_ip first_data m = Some (m', out, res) →
  ∃ room_id, res = Some (client_counter m + 1, room_id).
Proof.
  intros Htype Hok Hjoin. pose proof Hjoin as Hjoin'.
  apply join_Some in Hjoin' as (req & room & redir & Hreq & Hfind & _ & Hres & _).
  exists room. destruct Hres as [->|Hres]; [|done].
  unfold join in Hjoin. rewrite Hreq, Hfind in Hjoin. injection Hjoin as Hrun.
  match type of Hrun with protect ?b ?h ?m2 = _ =>
    assert (returns (protect b h)) as Hreturns;
      [|destruct (Hreturns m2) as [a Ha]; by rewrite Hrun in Ha]
  end.
  apply returns_protect.
  apply returns_hbind; [by apply returns_ws_send|]. intros _.
  apply returns_hbind.
  { destruct redir; [by apply returns_ws_send|apply returns_hret]. }
  intros _. apply returns_hbind; [apply returns_hget|]. intros msg.
  apply returns_hbind; [apply returns_hbroadcast|]. intros _.
  apply returns_hbind; [|intros _; apply returns_hret].
  unfold process_first_message. rewrite Htype. apply returns_hret.
Qed.

(** C9, amended.  In the message loop a frame that is an object and whose
    type is unknown or absent, and a [screen-share-stopped] frame without
    [targetId], is dropped: nothing is sent, the manager is as the name
    update left it, the session stays live and every later frame of it is
    handled.  A signaling or [screen-share-stopped] frame whose [targetId]
    is present and rejected by [int], and a frame that is no object, ends
    the session: it is no longer live and no later frame of it is handled.
    During the join a signaling first frame whose [targetId] is present and
    rejected by [int] ends the connection: no session is opened for it.  A
    first frame of another type, [screen-share-stopped] included, is not
    routed during the join: its [targetId] is not looked at, the join goes
    on as for the same frame without [targetId], whatever the other
    coroutines do, and it enters the message loop when the own socket works
    and no other coroutine changes the manager during its sends.  A first
    frame that is no object ends the connection before an id is taken: it
    is no step of the server. *)
Theorem malformed_frame_handling (int_of_str : string → option Z)
    (st : system) (data : message) (fuel : nat) (fails : Z → bool) :
  let message_type := dict_get_default data "type" (JStr "unknown") in
  (∀ client_id room_id,
     sessions st !! client_id = Some room_id →
     let dropped :=
       step int_of_str fuel fails st (EvMessage client_id data) =
         Some (mkSystem (renamed (mgr st) data client_id) (sessions st), []) ∧
       ∀ fuel' fails' data',
         is_Some (step int_of_str fuel' fails'
                    (mkSystem (renamed (mgr st) data client_id) (sessions st))
                    (EvMessage client_id data')) in
     (known_type message_type = false → dropped) ∧
     (message_type = JStr "screen-share-stopped" →
      dict_get data "targetId" = JNull → dropped) ∧
     (is_signaling message_type || is_type message_type "screen-share-stopped" = true →
      dict_get data "targetId" ≠ JNull →
      py_int int_of_str (dict_get data "targetId") = None →
      ∃ st' out,
        step int_of_str fuel fails st (EvMessage client_id data) = Some (st', out) ∧
        sessions st' !! client_id = None ∧
        ∀ fuel' fails' data',
          step int_of_str fuel' fails' st' (EvMessage client_id data') = None)) ∧
  (is_signaling message_type = true →
   dict_get data "targetId" ≠ JNull →
   py_int int_of_str (dict_get data "targetId") = None →
   ∀ websocket client_ip st' out,
     step int_of_str fuel fails st (EvJoin websocket client_ip data) = Some (st', out) →
     sessions st' = sessions st) ∧
  (is_signaling message_type = false →
   ∀ websocket client_ip,
     (∀ w, live_join int_of_str fuel fails websocket client_ip data w =
           live_join int_of_str fuel fails websocket client_ip
             (delete "targetId" data) w) ∧
     (fails (client_counter (mgr st) + 1) = false →
      ∀ w' out res,
        live_join int_of_str fuel fails websocket client_ip data
          (World (mgr st) []) = Some (w', out, res) →
        ∃ room_id, res = Some (client_counter (mgr st) + 1, room_id))) ∧
  (∀ v, as_object v = None →
     (∀ client_id room_id,
        sessions st !! client_id = Some room_id →
        ∃ st' out,
          step int_of_str fuel fails st (frame_event client_id v) = Some (st', out) ∧
          sessions st' !! client_id = None ∧
          ∀ fuel' fails' v',
            step int_of_str fuel' fails' st' (frame_event client_id v') = None) ∧
     ∀ websocket client_ip, first_frame_event websocket client_ip v = None).
Proof.
  intros message_type. split; [|split; [|split]].
  - intros client_id room_id Hlive dropped.
    assert ((∀ m, dispatch int_of_str fails data client_id room_id m
                  = (m, [], Some ())) → dropped) as Hdropped.
    { intros Hd. split.
      - simpl. rewrite Hlive, on_message_unfold. unfold protect. by rewrite Hd.
      - intros fuel' fails' data'. simpl. rewrite Hlive.
        by destruct (on_message _ _ _ _ _ _) as [[m' o] [[]|]]. }
    split; [|split].
    + intros Hunknown. apply Hdropped. intros m. by apply dispatch_unknown.
    + intros Htype Hnull. apply Hdropped. intros m. unfold dispatch.
      fold message_type. rewrite Htype, Hnull. done.
    + intros Htype Hpresent Hint.
      assert (∀ m, ∃ out, dispatch int_of_str fails data client_id room_id m
                          = (m, out, None)) as Hraise.
      { intros m. unfold dispatch. fold message_type.
        destruct (is_signaling message_type) eqn:Hsig.
        - exists []. unfold hbind at 1.
          destruct (dict_get data "targetId"); [done|..];
            try (by simpl in Hint); rewrite Hint; reflexivity.
        - simpl in Htype. apply is_type_true in Htype. rewrite Htype. simpl.
          exists []. unfold hbind.
          destruct (dict_get data "targetId"); [done|..];
            try (by simpl in Hint); simpl in *; try rewrite Hint; reflexivity. }
      simpl. rewrite Hlive, on_message_unfold. unfold protect.
      destruct (Hraise (renamed (mgr st) data client_id)) as [pre ->].
      destruct (cleanup _ _ _ _) as [[m2 s2] r].
      eexists _, _. split; [done|]. simpl. split; [apply lookup_delete_eq|].
      intros fuel' fails' data'. by rewrite lookup_delete_eq.
  - intros Htype Hpresent Hint ws ip st' out Hstep. simpl in Hstep.
    destruct (join _ _ _ _ _ _ _) as [[[m' o] res]|] eqn:Hjoin; [|done].
    apply join_raises in Hjoin as ->; [|done..].
    by injection Hstep as <- _.
  - intros Htype ws ip. split.
    + intros w. by apply live_join_ignores_target.
    + intros Hok w' out res [_ Hjoin]%live_join_alone.
      by eapply join_opens.
  - intros v Hv. split.
    + intros client_id room_id Hlive. unfold frame_event. rewrite Hv. simpl.
      rewrite Hlive. unfold on_receive_error.
      destruct (cleanup _ _ _ _) as [[m2 s2] r].
      eexists _, _. split; [done|]. simpl. split; [apply lookup_delete_eq|].
      intros fuel' fails' v'. destruct (as_object v'); simpl;
        by rewrite lookup_delete_eq.
    + intros ws ip. unfold first_frame_event. by rewrite Hv.
Qed.

Lemma malformed_frame_handling_witness :
  step int_of_digits 0 no_failure lobby_of_two
       (EvMessage 1 {[ "type" := JStr "ping" ]}) = Some (lobby_of_two, []).
Proof.
  assert (sessions lobby_of_two !! 1 = Some "lobby") as Hlive by reflexivity.
  destruct (malformed_frame_handling int_of_digits lobby_of_two
              {[ "type" := JStr "ping" ]} 0%nat no_failure) as [Hactive _].
  destruct (Hactive 1 "lobby" Hlive) as [Hunknown _].
  destruct Hunknown as [Hstep _]; [vm_compute; reflexivity|].
  exact Hstep.
Defined.

(** ** Closing a session *)

Lemma cleanup_eval fails client_id room_id m :
  client_id ≠ 0 → room_id ≠ "" →
  cleanup fails client_id room_id m =
    let m1 := disconnect m client_id in
    let msg := peer_disconnected_msg client_id (total_clients m1)
                 (Z.of_nat (length (get_peers_in_room m1 room_id))) in
    ((broadcast_quiet fails m1 msg (Some client_id) (Some room_id)).1,
     (broadcast_quiet fails m1 msg (Some client_id) (Some room_id)).2, Some ()).
Proof.
  intros Hid Hroom. unfold cleanup. rewrite decide_True by done.
  rewrite hbind_hmodify. rewrite decide_True by done.
  rewrite hbind_hget. unfold hbroadcast. by destruct (broadcast_quiet _ _ _ _ _).
Qed.

Lemma absent_disconnect_closed with_name client_id :
  disconnect_closed (λ _, True) (absent with_name client_id).
Proof.
  intros m c _ (Hcnt & Ha & Hr & Hi & Hn).
  destruct (decide (client_id = c)) as [<-|Hne].
  - by rewrite disconnect_absent.
  - destruct (disconnect_same_client m c client_id Hne) as (Ha' & Hn' & Hr' & Hi').
    unfold absent. by rewrite disconnect_counter, Ha', Hn', Hr', Hi'.
Qed.

Lemma absent_registered with_name client_id m room_id websocket client_ip peer_name :
  absent with_name client_id m →
  absent with_name client_id (registered m room_id websocket client_ip peer_name).
Proof.
  intros (Hcnt & Ha & Hr & Hi & Hn).
  assert (client_counter m + 1 ≠ client_id) as Hne by lia.
  unfold absent. simpl. rewrite !lookup_insert_ne by done.
  repeat split; [lia|done..|].
  intros Hw. destruct (truthy peer_name); [|by auto].
  rewrite lookup_insert_ne by done. auto.
Qed.

Lemma absent_renamed with_name client_id m c v :
  c ≠ client_id → absent with_name client_id m →
  absent with_name client_id (set_client_name m c v).
Proof.
  intros Hne (Hcnt & Ha & Hr & Hi & Hn). unfold absent. simpl.
  by rewrite lookup_insert_ne.
Qed.

Lemma renamed_registry m data client_id :
  active_connections (renamed m data client_id) = active_connections m ∧
  client_rooms (renamed m data client_id) = client_rooms m.
Proof.
  unfold renamed. destruct (data !! "peerName"); [|done]. by case_decide.
Qed.

Lemma wf_renamed m data client_id : wf m → wf (renamed m data client_id).
Proof.
  intros Hwf. unfold renamed. destruct (data !! "peerName"); [|done].
  case_decide; [|done]. by apply stable_wf.
Qed.

(** Who is told that [client_id] has left, and the count they are told. *)
Lemma remaining_members m client_id room_id :
  wf m → client_id ≤ client_counter m →
  let m1 := disconnect m client_id in
  let members := recipients m1 (Some client_id) (Some room_id) in
  NoDup members ∧
  (∀ c, c ∈ members ↔ c ≠ client_id ∧ client_rooms m !! c = Some room_id) ∧
  length (get_peers_in_room m1 room_id) = length members ∧
  (client_rooms m !! client_id = Some room_id →
   S (length members) = length (get_peers_in_room m room_id)) ∧
  absent (is_Some (active_connections m !! client_id)) client_id m1.
Proof.
  intros Hwf Hle m1 members.
  assert (wf m1) as Hwf1 by (by apply stable_wf).
  assert (active_connections m1 !! client_id = None) as Ha1
    by apply disconnect_active_gone.
  assert (client_rooms m1 !! client_id = None) as Hr1.
  { apply eq_None_not_Some. rewrite (wf_coherent _ Hwf1), Ha1.
    by intros [??]. }
  assert (client_ips m1 !! client_id = None) as Hi1.
  { apply eq_None_not_Some. rewrite (wf_ips _ Hwf1), Ha1. by intros [??]. }
  assert (∀ c, c ∈ members ↔ client_rooms m1 !! c = Some room_id) as Hmem1.
  { intros c. unfold members. rewrite elem_of_recipients. unfold is_recipient.
    split.
    - by intros (_ & _ & [[=]|?]).
    - intros Hc. split; [|split; [|by right]].
      + apply (wf_coherent _ Hwf1). eauto.
      + intros [= ->]. congruence. }
  assert (NoDup members) as Hnodup by apply NoDup_recipients.
  split; [done|]. split; [|split; [|split]].
  - intros c. rewrite Hmem1. destruct (decide (c = client_id)) as [->|Hne].
    + rewrite Hr1. split; [done|by intros [? _]].
    + unfold m1. rewrite disconnect_rooms_other by done.
      split; [done|by intros [_ ?]].
  - apply Permutation_length, NoDup_Permutation;
      [apply NoDup_peers_of|done|].
    intros c. unfold get_peers_in_room. by rewrite elem_of_peers_of, Hmem1.
  - intros Hroom.
    assert (is_Some (active_connections m !! client_id)) as Hin
      by (apply (wf_coherent _ Hwf); eauto).
    assert (length members = length (get_peers_in_room m1 room_id)) as ->.
    { symmetry. apply Permutation_length, NoDup_Permutation;
        [apply NoDup_peers_of|done|].
      intros c. unfold get_peers_in_room. by rewrite elem_of_peers_of, Hmem1. }
    unfold m1, get_peers_in_room. rewrite disconnect_present by done. simpl.
    by apply peers_of_delete.
  - assert (client_id ≤ client_counter m1) as Hcnt
      by (unfold m1; by rewrite disconnect_counter).
    repeat split; try done.
    intros Hin. unfold m1. rewrite disconnect_present by done. simpl.
    apply lookup_delete_eq.
Qed.

Section Closing.

Context (int_of_str : string → option Z).

(** When a turn of the message loop raises, the [except] branch runs on
    the manager as the name update left it. *)
Lemma on_message_raises fails client_id room_id data m m' out :
  on_message int_of_str fails client_id room_id data m = (m', out, None) →
  ∃ pre,
    m' = (cleanup fails client_id room_id (renamed m data client_id)).1.1 ∧
    out = pre ++ (cleanup fails client_id room_id (renamed m data client_id)).1.2.
Proof.
  rewrite on_message_unfold. unfold protect.
  destruct (dispatch _ _ _ _ _ _) as [[m1 s1] [[]|]] eqn:Hd; [done|].
  apply dispatch_raises in Hd as ->.
  destruct (cleanup _ _ _ _) as [[m2 s2] r]. intros [= <- <-]. by exists s1.
Qed.

(** Once a client has left and its session is over, no step brings any of
    its records back. *)
Lemma step_absent with_name client_id fuel fails st ev st' out :
  sessions st !! client_id = None →
  absent with_name client_id (mgr st) →
  step int_of_str fuel fails st ev = Some (st', out) →
  sessions st' !! client_id = None ∧ absent with_name client_id (mgr st').
Proof.
  intros Hover Habs Hstep.
  pose proof (absent_disconnect_closed with_name client_id) as Hclosed.
  destruct ev as [ws ip d|c d|c]; simpl in Hstep.
  - destruct (join _ _ _ _ _ _ _) as [[[m' o] res]|] eqn:Hjoin; [|done].
    apply join_Some in Hjoin
      as (req & room & redir & _ & _ & Hpres & Hres & _).
    assert (absent with_name client_id m') as Hm'.
    { apply Hpres; [done|]. by apply absent_registered. }
    destruct Hres as [->| ->]; injection Hstep as <- <-; simpl.
    + done.
    + split; [|done]. destruct Habs as [Hle _].
      rewrite lookup_insert_ne by lia. done.
  - destruct (sessions st !! c) as [room|] eqn:Hc; [|done].
    assert (c ≠ client_id) as Hne by congruence.
    pose proof (preserves_on_message_own _ int_of_str fails c room d Hclosed
                  (λ m v, absent_renamed with_name client_id m c v Hne)
                  _ Habs) as Hm'.
    destruct (on_message _ _ _ _ _ _) as [[m' o] [[]|]];
      injection Hstep as <- <-; simpl; split; try done.
    by rewrite lookup_delete_ne.
  - destruct (sessions st !! c) as [room|] eqn:Hc; [|done].
    assert (c ≠ client_id) as Hne by congruence.
    pose proof (preserves_cleanup (λ _, True) _ Hclosed fails c room
                  (λ _, I) _ Habs) as Hm'.
    unfold on_receive_error in Hstep.
    destruct (cleanup _ _ _ _) as [[m' o] r]. injection Hstep as <- <-.
    simpl. split; [|done]. by rewrite lookup_delete_ne.
Qed.

Lemma follows_absent with_name client_id st st' :
  follows int_of_str st st' →
  sessions st !! client_id = None →
  absent with_name client_id (mgr st) →
  sessions st' !! client_id = None ∧ absent with_name client_id (mgr st').
Proof.
  induction 1 as [|st1 fuel fails ev st2 out _ IH Hstep]; intros Hover Habs.
  - done.
  - destruct (IH Hover Habs) as [Hover1 Habs1]. by eapply step_absent.
Qed.

End Closing.

(** The end of a session during which no other coroutine changes the
    manager.  When the session of a client that completed the join ends (its
    [receive_json] raised, or a handler did), then from that step on the
    manager has no connection, room or address record of the id (and no
    name record, if the client was still connected when the session
    ended), so [get_peers_in_room] never lists it again, for any room.
    The sends of the step end with the [peer-disconnected] multicast: one
    frame to each client that remains in the room of the session, the
    departed one apart, with [peersInRoom] the number of those clients.
    When the client was still connected, the room of the session is the
    room it was registered in and that number is the former occupancy less
    one. *)
Theorem close_cleans_up (int_of_str : string → option Z) (C : Z)
    (st : system) (client_id : Z) (room_id : string) (fuel : nat)
    (fails : Z → bool) (ev : event) (st' : system) (out : list send) :
  reachable int_of_str C st →
  sessions st !! client_id = Some room_id →
  step int_of_str fuel fails st ev = Some (st', out) →
  sessions st' !! client_id = None →
  (∀ st'', follows int_of_str st' st'' →
     active_connections (mgr st'') !! client_id = None ∧
     client_rooms (mgr st'') !! client_id = None ∧
     client_ips (mgr st'') !! client_id = None ∧
     (is_Some (active_connections (mgr st) !! client_id) →
      client_names (mgr st'') !! client_id = None) ∧
     ∀ r, client_id ∉ get_peers_in_room (mgr st'') r) ∧
  ∃ pre members,
    out = pre ++
          ((λ c, Send c (peer_disconnected_msg client_id
                           (total_clients (disconnect (mgr st) client_id))
                           (Z.of_nat (length members)))) <$> members) ∧
    NoDup members ∧
    (∀ c, c ∈ members ↔
          c ≠ client_id ∧ client_rooms (mgr st) !! c = Some room_id) ∧
    (is_Some (active_connections (mgr st) !! client_id) →
     client_rooms (mgr st) !! client_id = Some room_id ∧
     Z.of_nat (length members) =
       Z.of_nat (length (get_peers_in_room (mgr st) room_id)) - 1).
Proof.
  intros Hreach Hlive Hstep Hover.
  pose proof (reachable_session_room _ _ _ _ _ Hreach Hlive) as [_ Hsame].
  pose proof (reachable_wf _ _ _ Hreach) as Hwf.
  destruct (reachable_sessions_ok _ _ _ Hreach _ _ Hlive) as [Hid Hroom].
  (* the step ran the except branch of this session *)
  assert (∃ m1 pre,
            active_connections m1 = active_connections (mgr st) ∧
            client_rooms m1 = client_rooms (mgr st) ∧
            client_counter m1 = client_counter (mgr st) ∧ wf m1 ∧
            mgr st' = (cleanup fails client_id room_id m1).1.1 ∧
            out = pre ++ (cleanup fails client_id room_id m1).1.2)
    as (m1 & pre & Ha & Hr & Hc & Hwf1 & Hm' & Hout).
  { destruct ev as [ws ip d|c d|c]; simpl in Hstep.
    - destruct (join _ _ _ _ _ _ _) as [[[m' o] res]|] eqn:Hjoin; [|done].
      exfalso.
      destruct res as [[c r]|]; injection Hstep as <- <-; simpl in Hover;
        [|congruence].
      destruct (decide (c = client_id)) as [->|Hne].
      + by rewrite lookup_insert_eq in Hover.
      + rewrite lookup_insert_ne in Hover by done. congruence.
    - destruct (sessions st !! c) as [room|] eqn:Hc; [|done].
      destruct (on_message _ _ _ _ _ _) as [[m' o] [[]|]] eqn:Hrun;
        injection Hstep as <- <-; simpl in Hover; [congruence|].
      destruct (decide (c = client_id)) as [->|Hne];
        [|rewrite lookup_delete_ne in Hover by done; congruence].
      assert (room = room_id) as -> by congruence.
      apply on_message_raises in Hrun as (pre & -> & ->).
      exists (renamed (mgr st) d client_id), pre.
      destruct (renamed_registry (mgr st) d client_id) as [-> ->].
      split; [done|]. split; [done|]. split; [|split; [by apply wf_renamed|done]].
      unfold renamed. destruct (d !! "peerName"); [|done]. by case_decide.
    - destruct (sessions st !! c) as [room|] eqn:Hc; [|done].
      unfold on_receive_error in Hstep.
      destruct (cleanup _ _ _ _) as [[m' o] r] eqn:Hrun.
      injection Hstep as <- <-. simpl in Hover.
      destruct (decide (c = client_id)) as [->|Hne];
        [|rewrite lookup_delete_ne in Hover by done; congruence].
      assert (room = room_id) as -> by congruence.
      exists (mgr st), []. rewrite Hrun. by do 5 (split; [done|]). }
  rewrite cleanup_eval in Hm', Hout by (done || lia).
  cbv zeta in Hm', Hout. cbn [fst snd] in Hm', Hout.
  destruct (remaining_members m1 client_id room_id Hwf1 ltac:(lia))
    as (Hnodup & Hmem & Hlen & Hdec & Habs).
  set (wn := is_Some (active_connections (mgr st) !! client_id)).
  assert (absent wn client_id (mgr st')) as Habs'.
  { rewrite Hm', broadcast_manager.
    apply (foldl_disconnect_closed (λ _, True));
      [apply absent_disconnect_closed|by apply Forall_true|].
    unfold wn. by rewrite <-Ha. }
  split.
  - intros st'' Hfollows.
    destruct (follows_absent int_of_str wn client_id st' st'' Hfollows Hover Habs')
      as [_ (_ & Ha'' & Hr'' & Hi'' & Hn'')].
    repeat split; try done.
    intros r Hin%elem_of_peers_of. congruence.
  - exists pre, (recipients (disconnect m1 client_id) (Some client_id) (Some room_id)).
    split; [|split; [done|split]].
    + rewrite Hout, broadcast_sends, Hlen.
      assert (total_clients (disconnect m1 client_id) =
              total_clients (disconnect (mgr st) client_id)) as ->; [|done].
      unfold total_clients, disconnect. rewrite Ha.
      case_decide; simpl; by rewrite ?Ha.
    + intros c. by rewrite Hmem, Hr.
    + intros Hact.
      assert (client_rooms (mgr st) !! client_id = Some room_id) as Hin.
      { apply (wf_coherent _ Hwf) in Hact as [r Hin].
        by rewrite Hin, (Hsame r Hin). }
      split; [done|]. rewrite <-Hr in Hin. specialize (Hdec Hin).
      unfold get_peers_in_room in *. rewrite <-Hr. lia.
Qed.

Lemma close_cleans_up_witness :
  client_rooms (mgr lobby_after_close) !! 2 = None ∧
  2 ∉ get_peers_in_room (mgr lobby_after_close) "lobby".
Proof.
  assert (step int_of_digits 0 no_failure lobby_of_two (EvClosed 2) =
          Some (lobby_after_close, [Send 1 (peer_disconnected_msg 2 1 1)]))
    as Hstep by (vm_compute; reflexivity).
  assert (sessions lobby_of_two !! 2 = Some "lobby") as Hlive by reflexivity.
  assert (sessions lobby_after_close !! 2 = None) as Hover by reflexivity.
  destruct (close_cleans_up int_of_digits 32 lobby_of_two 2 "lobby" 0%nat
              no_failure (EvClosed 2) lobby_after_close _
              (lobby_of_two_reachable int_of_digits) Hlive Hstep Hover)
    as [Hgone _].
  destruct (Hgone lobby_after_close (follows_refl _ _)) as (_ & Hr & _ & _ & Hp).
  split; [exact Hr|apply Hp].
Defined.

(** C6, at the input where the code departs from it.  Clients 1 and 2 are
    in ["lobby"].  Client 2 sends a chat while the socket of client 1
    raises: the broadcast drops client 1 from the manager, and the session
    of client 1 stays in its loop.  That session then sends a frame with a
    [peerName], which line 291 stores without looking whether the client is
    still registered.  When the connection of client 1 closes,
    [disconnect] finds the id not in [active_connections] and removes
    nothing: the manager keeps the name record of the departed id, and the
    [peer-disconnected] notice carries the number of clients the room had
    before the close, one, not a number less by one. *)
Theorem stale_name_after_failed_broadcast (int_of_str : string → option Z) :
  reachable int_of_str 32 lobby_of_two ∧
  ∃ st1 st2 st3,
    step int_of_str 0 socket_of_1_fails lobby_of_two (EvMessage 2 plain_chat)
      = Some (st1, [Send 1 (chat_msg plain_chat 2)]) ∧
    active_connections (mgr st1) !! 1 = None ∧
    sessions st1 !! 1 = Some "lobby" ∧
    step int_of_str 0 no_failure st1 (EvMessage 1 renaming_mute)
      = Some (st2, [Send 2 (mute_state_msg renaming_mute 1)]) ∧
    get_peers_in_room (mgr st2) "lobby" = [2] ∧
    step int_of_str 0 no_failure st2 (EvClosed 1)
      = Some (st3, [Send 2 (peer_disconnected_msg 1 1 1)]) ∧
    sessions st3 !! 1 = None ∧
    client_rooms (mgr st3) !! 1 = None ∧
    client_names (mgr st3) !! 1 = Some (JStr "Ann").
Proof.
  split; [apply lobby_of_two_reachable|].
  eexists _, _, _.
  split; [vm_compute; reflexivity|].
  split; [reflexivity|]. split; [reflexivity|].
  split; [vm_compute; reflexivity|].
  split; [vm_compute; reflexivity|].
  split; [vm_compute; reflexivity|].
  split; [reflexivity|]. split; reflexivity.
Qed.

(** ** A multicast among other coroutines *)

Lemma lobby_of_three_reachable int_of_str : reachable int_of_str 32 lobby_of_three.
Proof.
  apply (reachable_step _ _ lobby_of_two 1%nat no_failure
           (EvJoin 9%N "10.0.0.3" {[ "roomId" := JStr "lobby"; "peerName" := JStr "C" ]})
           lobby_of_three
           [Send 3 (welcome_msg 3 3 2 "lobby");
            Send 1 (peer_connected_msg 3 (JStr "C") 3 3);
            Send 2 (peer_connected_msg 3 (JStr "C") 3 3)]).
  - apply lobby_of_two_reachable.
  - vm_compute. reflexivity.
Qed.

(** C4, at the input where the code departs from it.  Clients 1, 2 and 3
    are in ["lobby"] and client 1 sends a chat.  Run with nothing in
    between, the multicast writes the frame to clients 2 and 3.  When
    another connection joins the room while the send to client 2 is
    awaited, [active_connections] has grown by the time the loop asks for
    its next item: the iterator raises [RuntimeError], the frame is never
    written to client 3, and the exception ends the session of the sender,
    whose departure is announced to clients 2, 3 and 4.  In the same way a
    multicast of client 3 is cut short after the send to client 1, whose
    socket raised: client 2 is not written to, and client 1, noted in
    [disconnected_clients], is not disconnected. *)
Theorem multicast_aborted_by_join (int_of_str : string → option Z) :
  reachable int_of_str 32 lobby_of_three ∧
  step int_of_str 0 no_failure lobby_of_three (EvMessage 1 plain_chat) =
    Some (lobby_of_three,
          [Send 2 (chat_msg plain_chat 1); Send 3 (chat_msg plain_chat 1)]) ∧
  live_on_message int_of_str no_failure 1 "lobby" plain_chat
      (World (mgr lobby_of_three) [joining "lobby" 10%N "10.0.0.4" (JStr "D")]) =
    Some (World (disconnect (joining "lobby" 10%N "10.0.0.4" (JStr "D")
                               (mgr lobby_of_three)) 1) [],
          [Send 2 (chat_msg plain_chat 1);
           Send 2 (peer_disconnected_msg 1 3 3);
           Send 3 (peer_disconnected_msg 1 3 3);
           Send 4 (peer_disconnected_msg 1 3 3)],
          None) ∧
  broadcast socket_of_1_fails plain_chat (Some 3) (Some "lobby")
      (World (mgr lobby_of_three) [joining "lobby" 10%N "10.0.0.4" (JStr "D")]) =
    Some (World (joining "lobby" 10%N "10.0.0.4" (JStr "D") (mgr lobby_of_three)) [],
          [Send 1 plain_chat], None) ∧
  recipients (mgr lobby_of_three) (Some 3) (Some "lobby") = [1; 2] ∧
  is_Some (active_connections
             (joining "lobby" 10%N "10.0.0.4" (JStr "D") (mgr lobby_of_three)) !! 1).
Proof.
  split; [apply lobby_of_three_reachable|].
  split; [vm_compute; reflexivity|].
  split; [vm_compute; reflexivity|].
  split; [vm_compute; reflexivity|].
  split; [vm_compute; reflexivity|].
  vm_compute. by eexists.
Qed.

(** * Further properties of the code *)

(** ** The registry, continued *)

(** X1.  [get_peers_in_room] lists exactly the clients whose record in
    [client_rooms] is that very room string, each of them once. *)
Theorem get_peers_in_room_exact (m : ConnectionManager) (room_id : string) :
  NoDup (get_peers_in_room m room_id) ∧
  ∀ client_id, client_id ∈ get_peers_in_room m room_id ↔
               client_rooms m !! client_id = Some room_id.
Proof.
  split; [apply NoDup_peers_of|]. intros c. apply elem_of_peers_of.
Qed.

(** X2.  After [register_client] the registered id is a member of its room
    and of no other, and the membership of every other client is what it
    was; an id that was registered before has moved. *)
Theorem register_client_members (m : ConnectionManager) (client_id : Z)
    (room_id : string) (websocket : WebSocket) (ip_address : string)
    (peer_name : json) (c : Z) (r : string) :
  c ∈ get_peers_in_room
        (register_client m client_id room_id websocket ip_address peer_name) r ↔
  (c = client_id ∧ r = room_id) ∨ (c ≠ client_id ∧ c ∈ get_peers_in_room m r).
Proof.
  unfold get_peers_in_room. rewrite !elem_of_peers_of. simpl.
  destruct (decide (c = client_id)) as [->|Hne].
  - rewrite lookup_insert_eq. split.
    + intros [= ->]. by left.
    + intros [[_ ->]|[? _]]; done.
  - rewrite lookup_insert_ne by done. split.
    + intros Hc. by right.
    + by intros [[? _]|[_ Hc]].
Qed.

(** X3.  Registering a client that has no record and disconnecting it
    again gives the manager back as it was, whatever the name. *)
Theorem disconnect_register_client (m : ConnectionManager) (client_id : Z)
    (room_id : string) (websocket : WebSocket) (ip_address : string)
    (peer_name : json) :
  gone m client_id →
  disconnect (register_client m client_id room_id websocket ip_address peer_name)
             client_id = m.
Proof.
  intros (Ha & Hn & Hr & Hi). rewrite disconnect_present.
  2: { simpl. rewrite lookup_insert_eq. eauto. }
  destruct m as [act names rooms ips cnt mx]. simpl in *. f_equal.
  - by apply delete_insert_id.
  - destruct (truthy peer_name); [by apply delete_insert_id|by apply delete_id].
  - by apply delete_insert_id.
  - by apply delete_insert_id.
Qed.

Lemma disconnect_register_client_witness :
  disconnect (register_client (mgr lobby_of_one) 2 "lobby" 8%N "10.0.0.2" JNull) 2
    = mgr lobby_of_one.
Proof.
  apply disconnect_register_client. repeat split; reflexivity.
Defined.

(** X4.  Disconnects commute: the order in which two clients are removed
    does not matter. *)
Theorem disconnect_comm (m : ConnectionManager) (a b : Z) :
  disconnect (disconnect m a) b = disconnect (disconnect m b) a.
Proof.
  destruct (decide (a = b)) as [->|Hne]; [done|].
  destruct (active_connections m !! a) as [wa|] eqn:Ha;
    destruct (active_connections m !! b) as [wb|] eqn:Hb.
  - rewrite (disconnect_present m a), (disconnect_present m b) by eauto.
    rewrite !disconnect_present
      by (simpl; rewrite lookup_delete_ne by done; eauto).
    simpl. f_equal; apply delete_delete.
  - rewrite (disconnect_absent m b) by done.
    apply disconnect_absent. by rewrite disconnect_active_other.
  - rewrite (disconnect_absent m a) by done. symmetry.
    apply disconnect_absent. by rewrite disconnect_active_other.
  - by rewrite (disconnect_absent m a), (disconnect_absent m b), disconnect_absent.
Qed.

(** X5.  [disconnect] of a connected client removes its four records,
    takes one off [len(active_connections)] and leaves the records of every
    other client as they were. *)
Theorem disconnect_connected (m : ConnectionManager) (client_id : Z) :
  is_Some (active_connections m !! client_id) →
  gone (disconnect m client_id) client_id ∧
  total_clients (disconnect m client_id) = total_clients m - 1 ∧
  ∀ c, c ≠ client_id → same_client m (disconnect m client_id) c.
Proof.
  intros Hin. split; [by apply disconnect_gone|]. split.
  - destruct Hin as [ws Hws]. rewrite disconnect_present by eauto.
    unfold total_clients. simpl.
    rewrite <-(insert_delete_id (active_connections m) client_id ws Hws) at 2.
    rewrite map_size_insert_None by apply lookup_delete_eq. lia.
  - intros c Hne. by apply disconnect_same_client.
Qed.

Lemma disconnect_connected_witness :
  total_clients (disconnect (mgr lobby_of_two) 2) = total_clients (mgr lobby_of_two) - 1.
Proof.
  apply disconnect_connected. vm_compute. eauto.
Defined.

(** ** The room report *)

Lemma rooms_info_body_lookup m rooms client_id room_id r :
  rooms_info_body m rooms (client_id, room_id) !! r =
    if decide (room_id = r) then add_peers m (rooms !! r) [client_id]
    else rooms !! r.
Proof.
  unfold rooms_info_body. destruct (decide (room_id = r)) as [->|Hne].
  - rewrite lookup_alter_eq. case_decide as Hin.
    + destruct Hin as [info ->]. done.
    + rewrite lookup_insert_eq. apply eq_None_not_Some in Hin. by rewrite Hin.
  - rewrite lookup_alter_ne by done. case_decide; [done|].
    by rewrite lookup_insert_ne.
Qed.

Lemma add_peers_app m o cids1 cids2 :
  add_peers m (add_peers m o cids1) cids2 = add_peers m o (cids1 ++ cids2).
Proof.
  destruct cids1 as [|c1 l1]; [done|].
  destruct cids2 as [|c2 l2]; [by rewrite app_nil_r|].
  cbn [add_peers app from_option info_peers info_max_peers].
  rewrite !fmap_cons, fmap_app, fmap_cons.
  f_equal. f_equal; [|f_equal]; by rewrite <-?app_assoc.
Qed.

(** The loop of [get_rooms_info]: what the dict has for a room after the
    items [l]. *)
Lemma rooms_info_loop m l rooms r :
  foldl (rooms_info_body m) rooms l !! r =
    add_peers m (rooms !! r) (filter (λ p : Z * string, p.2 = r) l).*1.
Proof.
  revert rooms. induction l as [|[c rid] l IH]; intros rooms; [done|].
  cbn [foldl]. rewrite IH, rooms_info_body_lookup, filter_cons.
  change ((c, rid).2) with rid.
  destruct (decide (rid = r)) as [->|Hne]; [|done].
  by rewrite fmap_cons, add_peers_app.
Qed.

(** X6.  The report of [get_rooms_info] has an entry for a room exactly
    when the room has a member; the entry lists the members of
    [get_peers_in_room], in the same order, each with its stored name (or
    ["Client-<id>"]) and address (or ["Unknown"]), ['count'] is their number
    and ['max_peers'] the configured capacity. *)
Theorem get_rooms_info_room (m : ConnectionManager) (room_id : string) :
  report_rooms (get_rooms_info m) !! room_id =
    match get_peers_in_room m room_id with
    | [] => None
    | members =>
        Some (RoomInfo (entry_of m <$> members) (Z.of_nat (length members))
                (max_peers_per_room m))
    end.
Proof.
  unfold get_rooms_info. simpl. rewrite rooms_info_loop, lookup_empty.
  unfold get_peers_in_room, peers_of.
  destruct ((filter _ _).*1) as [|c l]; [done|].
  cbn [add_peers from_option]. by rewrite app_nil_l, length_fmap.
Qed.

(** X7.  In every state of a server of capacity [C >= 0] each room of the
    report has between one and [C] peers, ['max_peers'] is [C], every peer
    listed is registered in that room under an id the counter has handed
    out, and its address is the stored one (the ["Unknown"] default is not
    used); ['total_clients'] is the number of clients that have a room. *)
Theorem get_rooms_info_reachable (int_of_str : string → option Z) (C : Z)
    (st : system) (room_id : string) (info : room_info) :
  0 ≤ C →
  reachable int_of_str C st →
  report_rooms (get_rooms_info (mgr st)) !! room_id = Some info →
  1 ≤ info_count info ≤ C ∧
  info_count info = Z.of_nat (length (info_peers info)) ∧
  info_max_peers info = C ∧
  Forall (λ e, client_rooms (mgr st) !! entry_id e = Some room_id ∧
               client_ips (mgr st) !! entry_id e = Some (entry_ip e) ∧
               1 ≤ entry_id e ≤ client_counter (mgr st)) (info_peers info) ∧
  report_total_clients (get_rooms_info (mgr st)) =
    Z.of_nat (size (client_rooms (mgr st))).
Proof.
  intros HC Hreach Hinfo.
  pose proof (reachable_wf _ _ _ Hreach) as Hwf.
  destruct (reachable_within_capacity _ _ _ HC Hreach) as [Hmax Hcap].
  unfold get_rooms_info in Hinfo. simpl in Hinfo.
  rewrite rooms_info_loop, lookup_empty in Hinfo.
  fold (peers_of (client_rooms (mgr st)) room_id) in Hinfo.
  fold (get_peers_in_room (mgr st) room_id) in Hinfo. specialize (Hcap room_id).
  assert (∀ c, c ∈ get_peers_in_room (mgr st) room_id →
               client_rooms (mgr st) !! c = Some room_id) as Hmem.
  { intros c. apply elem_of_peers_of. }
  destruct (get_peers_in_room (mgr st) room_id) as [|c l]; [done|].
  cbn [add_peers from_option] in Hinfo. rewrite app_nil_l, length_fmap in Hinfo.
  assert (info = RoomInfo (entry_of (mgr st) <$> c :: l)
                   (Z.of_nat (length (c :: l))) (max_peers_per_room (mgr st)))
    as -> by congruence.
  cbn [info_count info_peers info_max_peers].
  split; [simpl in *; lia|].
  split; [by rewrite length_fmap|].
  split; [done|]. split.
  - apply Forall_fmap, Forall_forall. intros k Hk. simpl.
    specialize (Hmem k Hk). split; [done|].
    assert (is_Some (active_connections (mgr st) !! k)) as Hact
      by (apply (wf_coherent _ Hwf); eauto).
    split.
    + apply (wf_ips _ Hwf) in Hact as [ip Hip]. by rewrite Hip.
    + apply (wf_ids _ Hwf). by left.
  - simpl. f_equal. rewrite <-!size_dom. f_equal.
    apply set_eq. intros k. rewrite !elem_of_dom. symmetry. apply (wf_coherent _ Hwf).
Qed.

Lemma get_rooms_info_reachable_witness :
  info_max_peers (RoomInfo [PeerEntry 2 (JStr "B") "10.0.0.2";
                            PeerEntry 1 (JStr "A") "10.0.0.1"] 2 32) = 32.
Proof.
  assert (0 ≤ 32) as HC by lia.
  assert (report_rooms (get_rooms_info (mgr lobby_of_two)) !! "lobby" =
          Some (RoomInfo [PeerEntry 2 (JStr "B") "10.0.0.2";
                          PeerEntry 1 (JStr "A") "10.0.0.1"] 2 32)) as Hinfo
    by (vm_compute; reflexivity).
  apply (get_rooms_info_reachable int_of_digits 32 lobby_of_two "lobby" _ HC
           (lobby_of_two_reachable int_of_digits) Hinfo).
Defined.

(** ** Client ids *)

Lemma disconnect_names_subseteq m c : client_names (disconnect m c) ⊆ client_names m.
Proof.
  unfold disconnect. case_decide; [|done]. simpl.
  rewrite del_if_present_delete. apply delete_subseteq.
Qed.

Lemma names_bounded_disconnect_closed n :
  disconnect_closed (λ _, True) (names_bounded n).
Proof.
  intros m c _ [Hcnt Hnames]. split; [by rewrite disconnect_counter|].
  intros k [v Hk]. apply Hnames. exists v.
  by eapply lookup_weaken, disconnect_names_subseteq.
Qed.

Lemma names_bounded_renamed n m c v :
  1 ≤ c ≤ n → names_bounded n m → names_bounded n (set_client_name m c v).
Proof.
  intros Hc [Hcnt Hnames]. split; [done|]. intros k. simpl.
  destruct (decide (k = c)) as [->|Hne]; [done|].
  rewrite lookup_insert_ne by done. apply Hnames.
Qed.

Lemma names_bounded_registered n m room_id websocket client_ip peer_name :
  0 ≤ n → names_bounded n m →
  names_bounded (n + 1) (registered m room_id websocket client_ip peer_name).
Proof.
  intros Hn [Hcnt Hnames]. split; simpl; [lia|]. intros k.
  destruct (truthy peer_name).
  - destruct (decide (k = client_counter m + 1)) as [->|Hne]; [lia|].
    rewrite lookup_insert_ne by done. intros Hk%Hnames. lia.
  - intros Hk%Hnames. lia.
Qed.

Lemma step_names_bounded int_of_str fuel fails st ev st' out :
  wf (mgr st) → sessions_ok st →
  names_bounded (client_counter (mgr st)) (mgr st) →
  step int_of_str fuel fails st ev = Some (st', out) →
  names_bounded (client_counter (mgr st')) (mgr st') ∧
  client_counter (mgr st') =
    client_counter (mgr st) + match ev with EvJoin _ _ _ => 1 | _ => 0 end.
Proof.
  intros Hwf Hok Hnames Hstep.
  set (n := client_counter (mgr st)) in *.
  assert (∀ k m', names_bounded k m' → names_bounded (client_counter m') m' ∧
                                      client_counter m' = k) as Hfinish.
  { intros k m' [Hk Hb]. by rewrite Hk. }
  destruct ev as [ws ip d|c d|c]; simpl in Hstep.
  - destruct (join _ _ _ _ _ _ _) as [[[m' o] res]|] eqn:Hjoin; [|done].
    apply join_Some in Hjoin as (req & room & redir & _ & _ & Hpres & _ & _).
    assert (names_bounded (n + 1) m') as Hm'.
    { apply Hpres; [apply names_bounded_disconnect_closed|].
      apply names_bounded_registered; [apply (wf_counter _ Hwf)|done]. }
    destruct res as [[??]|]; injection Hstep as <- <-; by apply Hfinish.
  - destruct (sessions st !! c) as [room|] eqn:Hc; [|done].
    destruct (Hok _ _ Hc) as [Hcid _].
    pose proof (preserves_on_message_own _ int_of_str fails c room d
                  (names_bounded_disconnect_closed n)
                  (λ m v, names_bounded_renamed n m c v Hcid) _ Hnames) as Hm'.
    rewrite Z.add_0_r.
    destruct (on_message _ _ _ _ _ _) as [[m' o] [[]|]];
      injection Hstep as <- <-; by apply Hfinish.
  - destruct (sessions st !! c) as [room|] eqn:Hc; [|done].
    pose proof (preserves_cleanup (λ _, True) _
                  (names_bounded_disconnect_closed n) fails c room
                  (λ _, I) _ Hnames) as Hm'.
    unfold on_receive_error in Hstep. rewrite Z.add_0_r.
    destruct (cleanup _ _ _ _) as [[m' o] r]. injection Hstep as <- <-.
    by apply Hfinish.
Qed.

Lemma reachable_names_bounded int_of_str C st :
  reachable int_of_str C st →
  names_bounded (client_counter (mgr st)) (mgr st).
Proof.
  induction 1 as [|st fuel fails ev st' out Hreach IH Hstep].
  - split; [done|]. intros k [v Hk]. simpl in Hk. by rewrite lookup_empty in Hk.
  - eapply step_names_bounded; [| |done|done].
    + by eapply reachable_wf.
    + by eapply reachable_sessions_ok.
Qed.

Lemma reachable_bounded int_of_str C st k :
  reachable int_of_str C st →
  is_Some (active_connections (mgr st) !! k) ∨
  is_Some (client_rooms (mgr st) !! k) ∨
  is_Some (client_ips (mgr st) !! k) ∨
  is_Some (client_names (mgr st) !! k) ∨
  is_Some (sessions st !! k) →
  1 ≤ k ≤ client_counter (mgr st).
Proof.
  intros Hreach.
  pose proof (reachable_wf _ _ _ Hreach) as Hwf.
  pose proof (reachable_sessions_ok _ _ _ Hreach) as Hok.
  destruct (reachable_names_bounded _ _ _ Hreach) as [_ Hnames].
  intros [Ha|[Hr|[Hi|[Hn|[room Hs]]]]].
  - apply (wf_ids _ Hwf). by left.
  - apply (wf_ids _ Hwf). by right.
  - apply (wf_ids _ Hwf). left. by apply (wf_ips _ Hwf).
  - by apply Hnames.
  - by destruct (Hok _ _ Hs).
Qed.

(** X8.  In every state of the server all records and all live sessions are
    for ids between 1 and [client_counter], and the room dict, the address
    dict and the connection dict have the same keys. *)
Theorem reachable_ids (int_of_str : string → option Z) (C : Z) (st : system)
    (k : Z) :
  reachable int_of_str C st →
  (is_Some (active_connections (mgr st) !! k) ∨
   is_Some (client_rooms (mgr st) !! k) ∨
   is_Some (client_ips (mgr st) !! k) ∨
   is_Some (client_names (mgr st) !! k) ∨
   is_Some (sessions st !! k) →
   1 ≤ k ≤ client_counter (mgr st)) ∧
  (is_Some (client_rooms (mgr st) !! k) ↔
   is_Some (active_connections (mgr st) !! k)) ∧
  (is_Some (client_ips (mgr st) !! k) ↔
   is_Some (active_connections (mgr st) !! k)).
Proof.
  intros Hreach. pose proof (reachable_wf _ _ _ Hreach) as Hwf.
  split; [by apply (reachable_bounded int_of_str C)|].
  split; [apply (wf_coherent _ Hwf)|apply (wf_ips _ Hwf)].
Qed.

Lemma reachable_ids_witness :
  is_Some (client_ips (mgr lobby_of_two) !! 2) ↔
  is_Some (active_connections (mgr lobby_of_two) !! 2).
Proof.
  apply (reachable_ids int_of_digits 32 lobby_of_two 2
           (lobby_of_two_reachable int_of_digits)).
Defined.

(** X9.  A join hands out [client_counter + 1]: an id for which the
    manager has no record and the server no session, so no id is ever given
    twice; it leaves the counter at that id.  No other event moves the
    counter. *)
Theorem join_fresh_id (int_of_str : string → option Z) (C : Z) (st : system)
    (fuel : nat) (fails : Z → bool) (ev : event) (st' : system)
    (out : list send) :
  reachable int_of_str C st →
  step int_of_str fuel fails st ev = Some (st', out) →
  match ev with
  | EvJoin _ _ _ =>
      let client_id := client_counter (mgr st) + 1 in
      gone (mgr st) client_id ∧ sessions st !! client_id = None ∧
      client_counter (mgr st') = client_id
  | _ => client_counter (mgr st') = client_counter (mgr st)
  end.
Proof.
  intros Hreach Hstep.
  destruct (step_names_bounded int_of_str fuel fails st ev st' out) as [_ Hcnt];
    [by eapply reachable_wf|by eapply reachable_sessions_ok
    |by eapply reachable_names_bounded|done|].
  destruct ev as [ws ip d|c d|c]; [|lia..].
  assert (∀ X : Prop,
            (X → is_Some (active_connections (mgr st) !! (client_counter (mgr st) + 1)) ∨
                 is_Some (client_rooms (mgr st) !! (client_counter (mgr st) + 1)) ∨
                 is_Some (client_ips (mgr st) !! (client_counter (mgr st) + 1)) ∨
                 is_Some (client_names (mgr st) !! (client_counter (mgr st) + 1)) ∨
                 is_Some (sessions st !! (client_counter (mgr st) + 1))) →
            ¬ X) as Hfresh.
  { intros X HX Hx. pose proof (reachable_bounded _ _ _ _ Hreach (HX Hx)). lia. }
  split; [|split; [|done]].
  - repeat split; apply eq_None_not_Some, Hfresh; auto.
  - apply eq_None_not_Some, Hfresh. auto 10.
Qed.

Lemma lobby_of_one_reachable int_of_str : reachable int_of_str 32 lobby_of_one.
Proof.
  apply (reachable_step _ _ (mkSystem (new_manager 32) ∅) 1%nat no_failure
           (EvJoin 7%N "10.0.0.1" {[ "roomId" := JStr "lobby"; "peerName" := JStr "A" ]})
           lobby_of_one
           [Send 1 (welcome_msg 1 1 0 "lobby")]).
  - apply reachable_init.
  - vm_compute. reflexivity.
Qed.

Lemma lobby_join_step int_of_str :
  step int_of_str 1 no_failure lobby_of_one
       (EvJoin 8%N "10.0.0.2" untargeted_first_offer) =
    Some (lobby_of_two,
          [Send 2 (welcome_msg 2 2 1 "lobby");
           Send 1 (peer_connected_msg 2 (JStr "B") 2 2)]).
Proof. vm_compute. reflexivity. Qed.

Lemma join_fresh_id_witness :
  gone (mgr lobby_of_one) 2 ∧ sessions lobby_of_one !! 2 = None ∧
  client_counter (mgr lobby_of_two) = 2.
Proof.
  apply (join_fresh_id int_of_digits 32 lobby_of_one 1%nat no_failure
           (EvJoin 8%N "10.0.0.2" untargeted_first_offer) lobby_of_two _
           (lobby_of_one_reachable int_of_digits)
           (lobby_join_step int_of_digits)).
Defined.

(** ** What a join sends *)

Lemma hbind_ws_send_ok {B} fails c msg (k : unit → Handler B) m :
  fails c = false →
  hbind (ws_send fails c msg) k m =
    let '(m2, s2, r) := k () m in (m2, Send c msg :: s2, r).
Proof. intros Hok. unfold hbind, ws_send. by rewrite Hok. Qed.

Lemma hbind_hret_unit {B} (k : unit → Handler B) m :
  hbind (hret ()) k m = k () m.
Proof. unfold hbind, hret. by destruct (k () m) as [[m2 s2] r]. Qed.

Lemma hbind_hbroadcast {B} fails msg exclude_client_id room_id
    (k : unit → Handler B) m :
  hbind (hbroadcast fails msg exclude_client_id room_id) k m =
    let '(m2, s2, r) :=
      k () (broadcast_quiet fails m msg exclude_client_id room_id).1 in
    (m2, (broadcast_quiet fails m msg exclude_client_id room_id).2 ++ s2, r).
Proof.
  unfold hbind, hbroadcast. by destruct (broadcast_quiet _ _ _ _ _) as [m1 s1].
Qed.

(** The sends of a join whose own socket works, in their order: the
    welcome, the redirect notice of a redirected join, the [peer-connected]
    frames of the broadcast, and then whatever the first frame and the
    [except] branch add. *)
Lemma join_sends int_of_str fuel fails websocket client_ip first_data m m' out res
    requested_room room_id was_redirected :
  requested_room_of first_data = Some requested_room →
  find_available_room fuel m requested_room = Some (room_id, was_redirected) →
  fails (client_counter m + 1) = false →
  join int_of_str fuel fails websocket client_ip first_data m = Some (m', out, res) →
  let client_id := client_counter m + 1 in
  let m2 := registered m room_id websocket client_ip (peer_name_of first_data) in
  ∃ rest,
    out = Send client_id
            (welcome_msg client_id (total_clients m2)
               (Z.of_nat (length (get_peers_in_room m2 room_id)) - 1) room_id)
          :: (if was_redirected
              then [Send client_id
                      (room_redirect_msg requested_room (max_peers_per_room m)
                         room_id)]
              else []) ++
             ((λ c, Send c (peer_connected_msg client_id (peer_name_of first_data)
                              (total_clients m2)
                              (Z.of_nat (length (get_peers_in_room m2 room_id)))))
                <$> recipients m2 (Some client_id) (Some room_id)) ++ rest.
Proof.
  intros Hreq Hfind Hok. unfold join. rewrite Hreq, Hfind.
  fold (registered m room_id websocket client_ip (peer_name_of first_data)).
  set (m2 := registered m room_id websocket client_ip (peer_name_of first_data)).
  intros [= Hrun]. simpl. unfold protect in Hrun.
  rewrite hbind_ws_send_ok in Hrun by done.
  assert (∀ (k : unit → Handler (Z * string)),
    hbind (if was_redirected
           then ws_send fails (client_counter m + 1)
                  (room_redirect_msg requested_room (max_peers_per_room m2) room_id)
           else hret ()) k m2 =
    let '(m3, s3, r) := k () m2 in
    (m3, (if was_redirected
          then [Send (client_counter m + 1)
                  (room_redirect_msg requested_room (max_peers_per_room m) room_id)]
          else []) ++ s3, r)) as Hredirect.
  { intros k. destruct was_redirected.
    - by rewrite hbind_ws_send_ok.
    - by rewrite hbind_hret_unit; destruct (k () m2) as [[??]?]. }
  rewrite Hredirect, hbind_hget, hbind_hbroadcast, broadcast_sends in Hrun.
  match type of Hrun with context [hbind ?h ?k ?m3] =>
    destruct (hbind h k m3) as [[m4 s4] r4] end.
  destruct r4 as [v|].
  - injection Hrun as <- <- <-. by exists s4.
  - destruct (cleanup _ _ _ _) as [[m5 s5] r5]. injection Hrun as <- <- <-.
    exists (s4 ++ s5). simpl. by rewrite <-!app_assoc.
Qed.

(** X10.  The welcome frame is the first send of every join and goes to
    the new client: it carries the id [client_counter + 1], the number of
    connected clients with the new one counted, the number of clients that
    were in the assigned room before, and the assigned room, which had
    space. *)
Theorem join_welcome (int_of_str : string → option Z) (C : Z) (st : system)
    (fuel : nat) (fails : Z → bool) (websocket : WebSocket) (client_ip : string)
    (first_data : message) (st' : system) (out : list send) :
  reachable int_of_str C st →
  step int_of_str fuel fails st (EvJoin websocket client_ip first_data)
    = Some (st', out) →
  ∃ room_id rest,
    has_space (mgr st) room_id ∧
    out = Send (client_counter (mgr st) + 1)
            (welcome_msg (client_counter (mgr st) + 1)
               (total_clients (mgr st) + 1)
               (Z.of_nat (length (get_peers_in_room (mgr st) room_id)))
               room_id) :: rest.
Proof.
  intros Hreach Hstep. pose proof (reachable_wf _ _ _ Hreach) as Hwf.
  simpl in Hstep.
  destruct (join _ _ _ _ _ _ _) as [[[m' o] res]|] eqn:Hjoin; [|done].
  apply join_Some in Hjoin
    as (req & room & redir & _ & Hfind & _ & _ & rest & ->).
  assert (out = Send (client_counter (mgr st) + 1)
            (welcome_msg (client_counter (mgr st) + 1)
               (total_clients
                  (registered (mgr st) room websocket client_ip
                     (peer_name_of first_data)))
               (Z.of_nat (length (get_peers_in_room
                  (registered (mgr st) room websocket client_ip
                     (peer_name_of first_data)) room)) - 1) room) :: rest)
    as -> by (by destruct res as [[??]|]; injection Hstep).
  exists room, rest. split; [by eapply find_available_room_has_space|].
  rewrite registered_occupancy by done. rewrite decide_True by done.
  do 3 f_equal; [|lia].
  unfold total_clients. simpl. rewrite map_size_insert_None; [lia|].
  apply eq_None_not_Some. intros Hin.
  pose proof (wf_ids _ Hwf _ (or_introl Hin)). lia.
Qed.

Lemma join_welcome_witness :
  ∃ room_id rest,
    has_space (mgr lobby_of_one) room_id ∧
    [Send 2 (welcome_msg 2 2 1 "lobby");
     Send 1 (peer_connected_msg 2 (JStr "B") 2 2)] =
    Send (client_counter (mgr lobby_of_one) + 1)
      (welcome_msg (client_counter (mgr lobby_of_one) + 1)
         (total_clients (mgr lobby_of_one) + 1)
         (Z.of_nat (length (get_peers_in_room (mgr lobby_of_one) room_id)))
         room_id) :: rest.
Proof.
  apply (join_welcome int_of_digits 32 lobby_of_one 1%nat no_failure 8%N
           "10.0.0.2" untargeted_first_offer lobby_of_two _
           (lobby_of_one_reachable int_of_digits)
           (lobby_join_step int_of_digits)).
Defined.

(** The recipients of the [peer-connected] broadcast of a join: the
    clients the room held before. *)
Lemma recipients_registered m room_id websocket client_ip peer_name c :
  wf m →
  c ∈ recipients (registered m room_id websocket client_ip peer_name)
        (Some (client_counter m + 1)) (Some room_id) ↔
  c ∈ get_peers_in_room m room_id.
Proof.
  intros Hwf. rewrite elem_of_recipients. unfold is_recipient, get_peers_in_room.
  rewrite elem_of_peers_of. simpl. split.
  - intros (_ & Hne & [?|Hroom]); [done|].
    rewrite lookup_insert_ne in Hroom by congruence. done.
  - intros Hroom.
    assert (c ≠ client_counter m + 1) as Hne.
    { intros ->. by rewrite wf_fresh in Hroom. }
    rewrite !lookup_insert_ne by done. split; [|split; [congruence|by right]].
    apply (wf_coherent _ Hwf). by rewrite Hroom.
Qed.

(** The sends of a join during which no other coroutine changes the
    manager, when the own socket works. *)
Lemma join_announces_alone (int_of_str : string → option Z) (C : Z) (st : system)
    (fuel : nat) (fails : Z → bool) (websocket : WebSocket) (client_ip : string)
    (first_data : message) (st' : system) (out : list send) :
  wf (mgr st) → max_peers_per_room (mgr st) = C →
  step int_of_str fuel fails st (EvJoin websocket client_ip first_data)
    = Some (st', out) →
  fails (client_counter (mgr st) + 1) = false →
  let client_id := client_counter (mgr st) + 1 in
  ∃ requested_room room_id targets rest,
    requested_room_of first_data = Some requested_room ∧
    (has_space (mgr st) requested_room → room_id = requested_room) ∧
    NoDup targets ∧
    (∀ c, c ∈ targets ↔ c ∈ get_peers_in_room (mgr st) room_id) ∧
    out = Send client_id
            (welcome_msg client_id (total_clients (mgr st) + 1)
               (Z.of_nat (length (get_peers_in_room (mgr st) room_id))) room_id)
          :: (if decide (has_space (mgr st) requested_room) then []
              else [Send client_id
                      (room_redirect_msg requested_room C room_id)]) ++
             ((λ c, Send c (peer_connected_msg client_id (peer_name_of first_data)
                              (total_clients (mgr st) + 1)
                              (Z.of_nat (length (get_peers_in_room (mgr st) room_id))
                               + 1)))
                <$> targets) ++ rest.
Proof.
  intros Hwf Hmax Hstep Hok.
  simpl in Hstep.
  destruct (join _ _ _ _ _ _ _) as [[[m' o] res]|] eqn:Hjoin; [|done].
  assert (o = out) as -> by (by destruct res as [[??]|]; injection Hstep).
  destruct (join_Some _ _ _ _ _ _ _ _ _ _ Hjoin)
    as (req & room & redir & Hreq & Hfind & _).
  destruct (join_sends _ _ _ _ _ _ _ _ _ _ _ _ _ Hreq Hfind Hok Hjoin)
    as [rest ->].
  exists req, room,
    (recipients (registered (mgr st) room websocket client_ip
                   (peer_name_of first_data))
       (Some (client_counter (mgr st) + 1)) (Some room)), rest.
  assert (total_clients (registered (mgr st) room websocket client_ip
                           (peer_name_of first_data)) =
          total_clients (mgr st) + 1) as ->.
  { unfold total_clients. simpl. rewrite map_size_insert_None; [lia|].
    apply eq_None_not_Some. intros Hin.
    pose proof (wf_ids _ Hwf _ (or_introl Hin)). lia. }
  rewrite registered_occupancy by done. rewrite decide_True by done.
  replace (Z.of_nat (1 + length (get_peers_in_room (mgr st) room)) - 1)
    with (Z.of_nat (length (get_peers_in_room (mgr st) room))) by lia.
  replace (Z.of_nat (1 + length (get_peers_in_room (mgr st) room)))
    with (Z.of_nat (length (get_peers_in_room (mgr st) room)) + 1) by lia.
  split; [done|]. unfold find_available_room in Hfind.
  split; [|split; [apply NoDup_recipients|split;
    [intros c; by apply recipients_registered|]]].
  - intros Hsp. rewrite decide_True in Hfind by done. by injection Hfind as <- _.
  - case_decide as Hsp.
    + by injection Hfind as <- <-.
    + apply find_overflow_room_Some in Hfind as [-> _]. by rewrite Hmax.
Qed.

(** A join is a step of the server that has it as its manager. *)
Lemma join_step int_of_str fuel fails websocket client_ip first_data m m' out res :
  join int_of_str fuel fails websocket client_ip first_data m = Some (m', out, res) →
  ∃ sessions', step int_of_str fuel fails (mkSystem m ∅)
                 (EvJoin websocket client_ip first_data)
               = Some (mkSystem m' sessions', out) ∧
               (res = None → sessions' = ∅) ∧
               (∀ c r, res = Some (c, r) → sessions' !! c = Some r).
Proof.
  intros Hjoin. simpl. rewrite Hjoin. destruct res as [[c r]|].
  - eexists. split; [done|]. split; [done|]. intros c' r' [= <- <-].
    apply lookup_insert_eq.
  - eexists. split; [done|]. split; done.
Qed.

(** X11.  A join whose own socket works, and during whose sends no other
    coroutine changes the manager, sends in this order: the welcome; the
    redirect notice, exactly when the requested room was full; one
    [peer-connected] frame to each client that was in the assigned room
    before, with the new client counted in both totals.  The assigned room
    is the requested one unless that was full. *)
Theorem join_announces (int_of_str : string → option Z) (m : ConnectionManager)
    (fuel : nat) (fails : Z → bool) (websocket : WebSocket) (client_ip : string)
    (first_data : message) (w' : world) (out : list send)
    (res : option (Z * string)) :
  wf m →
  live_join int_of_str fuel fails websocket client_ip first_data (World m [])
    = Some (w', out, res) →
  fails (client_counter m + 1) = false →
  let client_id := client_counter m + 1 in
  ∃ requested_room room_id targets rest,
    requested_room_of first_data = Some requested_room ∧
    (has_space m requested_room → room_id = requested_room) ∧
    NoDup targets ∧
    (∀ c, c ∈ targets ↔ c ∈ get_peers_in_room m room_id) ∧
    out = Send client_id
            (welcome_msg client_id (total_clients m + 1)
               (Z.of_nat (length (get_peers_in_room m room_id))) room_id)
          :: (if decide (has_space m requested_room) then []
              else [Send client_id
                      (room_redirect_msg requested_room (max_peers_per_room m)
                         room_id)]) ++
             ((λ c, Send c (peer_connected_msg client_id (peer_name_of first_data)
                              (total_clients m + 1)
                              (Z.of_nat (length (get_peers_in_room m room_id))
                               + 1)))
                <$> targets) ++ rest.
Proof.
  intros Hwf [_ Hjoin]%live_join_alone Hok.
  apply join_step in Hjoin as (sessions' & Hstep & _).
  exact (join_announces_alone int_of_str (max_peers_per_room m) (mkSystem m ∅)
           fuel fails websocket client_ip first_data _ out Hwf eq_refl Hstep Hok).
Qed.

Lemma wf_lobby_of_one : wf (mgr lobby_of_one).
Proof. apply (reachable_wf int_of_digits 32), lobby_of_one_reachable. Qed.

Lemma live_join_lobby :
  live_join int_of_digits 1 no_failure 8%N "10.0.0.2" untargeted_first_offer
      (World (mgr lobby_of_one) []) =
    Some (World (mgr lobby_of_two) [],
          [Send 2 (welcome_msg 2 2 1 "lobby");
           Send 1 (peer_connected_msg 2 (JStr "B") 2 2)],
          Some (2, "lobby")).
Proof. vm_compute. reflexivity. Qed.

Lemma join_announces_witness :
  ∃ requested_room room_id targets rest,
    requested_room_of untargeted_first_offer = Some requested_room ∧
    (has_space (mgr lobby_of_one) requested_room → room_id = requested_room) ∧
    NoDup targets ∧
    (∀ c, c ∈ targets ↔ c ∈ get_peers_in_room (mgr lobby_of_one) room_id) ∧
    [Send 2 (welcome_msg 2 2 1 "lobby");
     Send 1 (peer_connected_msg 2 (JStr "B") 2 2)] =
    Send (client_counter (mgr lobby_of_one) + 1)
      (welcome_msg (client_counter (mgr lobby_of_one) + 1)
         (total_clients (mgr lobby_of_one) + 1)
         (Z.of_nat (length (get_peers_in_room (mgr lobby_of_one) room_id)))
         room_id)
    :: (if decide (has_space (mgr lobby_of_one) requested_room) then []
        else [Send (client_counter (mgr lobby_of_one) + 1)
                (room_redirect_msg requested_room
                   (max_peers_per_room (mgr lobby_of_one)) room_id)]) ++
       ((λ c, Send c (peer_connected_msg (client_counter (mgr lobby_of_one) + 1)
                        (peer_name_of untargeted_first_offer)
                        (total_clients (mgr lobby_of_one) + 1)
                        (Z.of_nat (length
                           (get_peers_in_room (mgr lobby_of_one) room_id)) + 1)))
          <$> targets) ++ rest.
Proof.
  apply (join_announces int_of_digits (mgr lobby_of_one) 1%nat no_failure 8%N
           "10.0.0.2" untargeted_first_offer _ _ _ wf_lobby_of_one
           live_join_lobby).
  reflexivity.
Defined.

(** ** What ends a session in the message loop *)

Lemma hbind_value {A B} (h : Handler A) (k : A → Handler B) m :
  (hbind h k m).2 =
    match (h m).2 with Some a => (k a (h m).1.1).2 | None => None end.
Proof.
  unfold hbind. destruct (h m) as [[m1 s1] [a|]]; [|done].
  simpl. by destruct (k a m1) as [[m2 s2] r].
Qed.

Lemma protect_value {A} (body : Handler A) (handler : Handler unit) m :
  (protect body handler m).2 = (body m).2.
Proof.
  unfold protect. destruct (body m) as [[m1 s1] [a|]]; [done|].
  by destruct (handler m1) as [[m2 s2] r].
Qed.

Lemma is_type_false message_type s :
  is_type message_type s = false → message_type ≠ JStr s.
Proof. intros Hty ->. simpl in Hty. by rewrite bool_decide_eq_false in Hty. Qed.

Section Fatal.

Context (int_of_str : string → option Z).

(** The targeted branch raises exactly when [int] does. *)
Lemma targeted_value data client_id room_id v m :
  (hbind (hlift (py_int int_of_str v))
     (λ t, forward_to_target data client_id room_id t) m).2 = None ↔
  py_int int_of_str v = None.
Proof.
  rewrite hbind_value. unfold hlift. simpl. destruct (py_int int_of_str v) as [t|]; [|done].
  by rewrite forward_to_target_returns.
Qed.

(** The frames on which the dispatch raises: a signaling or
    [screen-share-stopped] frame whose [targetId] is there and is no
    integer, and [get-peers] when the session's own socket raises. *)
Lemma dispatch_value fails data client_id room_id m :
  let message_type := dict_get_default data "type" (JStr "unknown") in
  (dispatch int_of_str fails data client_id room_id m).2 = None ↔
  (is_signaling message_type || is_type message_type "screen-share-stopped" = true ∧
   dict_get data "targetId" ≠ JNull ∧
   py_int int_of_str (dict_get data "targetId") = None) ∨
  (message_type = JStr "get-peers" ∧ fails client_id = true).
Proof.
  intros message_type. unfold dispatch. fold message_type.
  destruct (is_signaling message_type) eqn:Hsig.
  { assert (message_type ≠ JStr "get-peers") as Hne
      by (intros Heq; by rewrite Heq in Hsig).
    rewrite hbind_value.
    destruct (dict_get data "targetId") eqn:Hv; simpl;
      try (match goal with |- context [int_of_str ?s] =>
             destruct (int_of_str s) eqn:Hint end);
      simpl; try case_decide;
      rewrite ?hbroadcast_returns, ?forward_to_target_returns;
      (split; [try done; intros _; by left|]);
      by intros [(_ & ? & ?)|[? _]]. }
  destruct (is_type message_type "chat") eqn:Hchat.
  { apply is_type_true in Hchat. rewrite Hchat, hbroadcast_returns.
    split; [done|]. by intros [([=] & _)|[[=] _]]. }
  destruct (is_type message_type "mute-state") eqn:Hmute.
  { apply is_type_true in Hmute. rewrite Hmute, hbroadcast_returns.
    split; [done|]. by intros [([=] & _)|[[=] _]]. }
  destruct (is_type message_type "screen-share-stopped") eqn:Hscreen.
  { apply is_type_true in Hscreen.
    destruct (dict_get data "targetId") eqn:Hv;
      [simpl; split; [done|]; intros [(_ & ? & _)|[Heq _]]; [done|];
       by rewrite Hscreen in Heq|..];
      rewrite targeted_value;
      (split; [intros Hint; by left
              |intros [(_ & _ & ?)|[Heq _]]; [done|by rewrite Hscreen in Heq]]). }
  simpl. destruct (is_type message_type "get-peers") eqn:Hpeers.
  - apply is_type_true in Hpeers. rewrite hbind_hget. unfold ws_send. simpl.
    destruct (fails client_id); split; try done.
    + intros _. by right.
    + by intros [([=] & _)|[_ [=]]].
  - apply is_type_false in Hpeers. unfold hret. simpl. split; [done|].
    by intros [([=] & _)|[? _]].
Qed.

End Fatal.

(** X12.  When no other coroutine changes the manager during its sends, a
    frame ends the session that sent it in exactly three cases: a frame
    that is no object; a signaling or [screen-share-stopped] frame whose
    [targetId] is present and rejected by [int]; a [get-peers] frame when
    the reply cannot be written to the session's own socket.  Every other
    frame leaves the session in its loop, whatever sockets raise.  A fourth
    case needs the other coroutines: a chat frame that has a recipient
    ends the session of its sender when the number of connections changes
    while the first send of its multicast is awaited. *)
Theorem frame_ends_session (int_of_str : string → option Z) (fails : Z → bool)
    (client_id : Z) (room_id : string) (v : json) (m : ConnectionManager) :
  (∃ m' out r,
     live_on_frame int_of_str fails client_id room_id v (World m [])
       = Some (World m' [], out, r) ∧
     (r = None ↔
        as_object v = None ∨
        ∃ data, as_object v = Some data ∧
          ((is_signaling (dict_get_default data "type" (JStr "unknown")) ||
              is_type (dict_get_default data "type" (JStr "unknown"))
                "screen-share-stopped" = true ∧
            dict_get data "targetId" ≠ JNull ∧
            py_int int_of_str (dict_get data "targetId") = None) ∨
           (dict_get_default data "type" (JStr "unknown") = JStr "get-peers" ∧
            fails client_id = true)))) ∧
  (∀ data (f : interference),
     as_object v = Some data →
     dict_get_default data "type" (JStr "unknown") = JStr "chat" →
     recipients (renamed m data client_id) (Some client_id) (Some room_id) ≠ [] →
     size (active_connections (f (renamed m data client_id))) ≠
       size (active_connections (renamed m data client_id)) →
     ∃ w' out,
       live_on_frame int_of_str fails client_id room_id v (World m [f])
         = Some (w', out, None)).
Proof.
  split.
  - unfold live_on_frame. destruct (as_object v) as [data|] eqn:Hv.
    + pose proof (undisturbed_on_message int_of_str fails client_id room_id
                    data m) as Hrun.
      unfold undisturbed_at in Hrun. eexists _, _, _. split; [exact Hrun|].
      rewrite on_message_unfold, protect_value.
      rewrite (dispatch_value int_of_str fails data client_id room_id
                 (renamed m data client_id)).
      split.
      * intros Hends. right. by exists data.
      * intros [[=]|(data' & [= <-] & Hends)]. done.
    + pose proof (undisturbed_cleanup fails client_id room_id m) as Hrun.
      unfold undisturbed_at in Hrun. unfold lprotect, llift. rewrite Hrun.
      eexists _, _, _. split; [done|]. split; [by left|done].
  - intros data f Hv Htype Hrecipients Hsize. unfold live_on_frame. rewrite Hv.
    unfold live_on_message, lprotect, lbind at 1, live_update_peer_name, lmodify.
    cbn [manager pending]. fold (renamed m data client_id).
    unfold live_dispatch. rewrite Htype.
    change (is_signaling (JStr "chat")) with false.
    change (is_type (JStr "chat") "chat") with true. cbv iota.
    rewrite (broadcast_aborts fails (renamed m data client_id) _ _ _ f [] 0%nat
               Hsize).
    2: { destruct (recipients _ _ _); [done|simpl; lia]. }
    cbn [app].
    pose proof (undisturbed_cleanup fails client_id room_id
                  (f (renamed m data client_id))) as Hcleanup.
    unfold undisturbed_at in Hcleanup.
    destruct (live_cleanup _ _ _ _) as [[[w2 s2] r2]|]; [by eexists _, _|done].
Qed.

Lemma frame_ends_session_witness :
  ∃ w' out,
    live_on_frame int_of_digits no_failure 1 "lobby"
        (JObj [("type", JStr "chat"); ("text", JStr "hi")])
        (World (mgr lobby_of_three) [joining "lobby" 10%N "10.0.0.4" (JStr "D")])
      = Some (w', out, None).
Proof.
  destruct (frame_ends_session int_of_digits no_failure 1 "lobby"
              (JObj [("type", JStr "chat"); ("text", JStr "hi")])
              (mgr lobby_of_three)) as [_ Haborts].
  apply (Haborts plain_chat).
  - vm_compute. reflexivity.
  - reflexivity.
  - vm_compute. discriminate.
  - vm_compute. discriminate.
Defined.

(** ** Where the sends of a handler go *)

Lemma below_disconnect_closed m0 : disconnect_closed (λ _, True) (below m0).
Proof.
  intros m c _ Hm. unfold below in *.
  etrans; [apply disconnect_rooms_subseteq|done].
Qed.

Lemma below_refl m : below m m.
Proof. by unfold below. Qed.

Lemma below_room m0 m c room_id :
  below m0 m → client_rooms m !! c = Some room_id →
  client_rooms m0 !! c = Some room_id.
Proof. intros Hm Hc. by eapply lookup_weaken. Qed.

Section Confined.

Context (m0 : ConnectionManager) (R : send → Prop).

Lemma confined_hret {A} (a : A) : confined m0 R (hret a).
Proof. intros m Hm. by split. Qed.

Lemma confined_hget {A} (f : ConnectionManager → A) : confined m0 R (hget f).
Proof. intros m Hm. by split. Qed.

Lemma confined_hbind_hget {A B} (f : ConnectionManager → A) (k : A → Handler B) :
  (∀ m, confined m0 R (k (f m))) → confined m0 R (hbind (hget f) k).
Proof. intros Hk m Hm. rewrite hbind_hget. by apply Hk. Qed.

Lemma confined_hlift {A} (o : option A) : confined m0 R (hlift o).
Proof. intros m Hm. by split. Qed.

Lemma confined_ws_send fails c msg :
  R (Send c msg) → confined m0 R (ws_send fails c msg).
Proof. intros HR m Hm. split; [done|]. simpl. by apply Forall_singleton. Qed.

Lemma confined_hbind {A B} (h : Handler A) (k : A → Handler B) :
  confined m0 R h → (∀ a, confined m0 R (k a)) → confined m0 R (hbind h k).
Proof.
  intros Hh Hk m Hm. unfold hbind. destruct (Hh m Hm) as [Hm1 Hs1].
  destruct (h m) as [[m1 s1] [a|]]; simpl in *; [|done].
  destruct (Hk a m1 Hm1) as [Hm2 Hs2].
  destruct (k a m1) as [[m2 s2] r]. simpl in *.
  split; [done|]. by apply Forall_app.
Qed.

Lemma confined_protect {A} (body : Handler A) (handler : Handler unit) :
  confined m0 R body → confined m0 R handler →
  confined m0 R (protect body handler).
Proof.
  intros Hb Hh m Hm. unfold protect. destruct (Hb m Hm) as [Hm1 Hs1].
  destruct (body m) as [[m1 s1] [a|]]; simpl in *; [done|].
  destruct (Hh m1 Hm1) as [Hm2 Hs2].
  destruct (handler m1) as [[m2 s2] r]. simpl in *.
  split; [done|]. by apply Forall_app.
Qed.

(** A multicast writes to clients the room still has, the excluded one
    apart. *)
Lemma confined_hbroadcast fails msg exclude_client_id room_id :
  (∀ c, client_rooms m0 !! c = Some room_id → c ≠ exclude_client_id →
        R (Send c msg)) →
  confined m0 R (hbroadcast fails msg (Some exclude_client_id) (Some room_id)).
Proof.
  intros HR m Hm. unfold hbroadcast. rewrite broadcast_eq. simpl. split.
  - apply (foldl_disconnect_closed (λ _, True));
      [apply below_disconnect_closed|by apply Forall_forall|done].
  - apply Forall_fmap, Forall_forall. intros c Hc. simpl.
    apply elem_of_recipients in Hc as (_ & Hne & [?|Hroom]); [done|].
    apply HR; [by eapply below_room|congruence].
Qed.

Lemma confined_forward_to_target data client_id room_id target_id :
  (client_rooms m0 !! target_id = Some room_id →
   R (Send target_id (with_sender data client_id))) →
  confined m0 R (forward_to_target data client_id room_id target_id).
Proof.
  intros HR m Hm. unfold forward_to_target, hpersonal, send_personal_message.
  case_decide as Hroom; [|by split]. case_decide; [|by split].
  simpl. split; [done|].
  apply Forall_singleton, HR. by eapply below_room.
Qed.

Lemma confined_cleanup fails client_id room_id :
  (∀ c total peers_in_room,
     client_rooms m0 !! c = Some room_id → c ≠ client_id →
     R (Send c (peer_disconnected_msg client_id total peers_in_room))) →
  confined m0 R (cleanup fails client_id room_id).
Proof.
  intros HR. unfold cleanup. case_decide; [|apply confined_hret].
  apply confined_hbind.
  - intros m Hm. split; [|done]. simpl. by apply below_disconnect_closed.
  - intros _. case_decide; [|apply confined_hret].
    apply confined_hbind_hget. intros m. apply confined_hbroadcast.
    intros c. apply HR.
Qed.

Context (int_of_str : string → option Z).

Lemma confined_targeted data client_id room_id (v : json) :
  (∀ t, client_rooms m0 !! t = Some room_id →
        R (Send t (with_sender data client_id))) →
  confined m0 R (target_id <~ hlift (py_int int_of_str v) ;;
                 forward_to_target data client_id room_id target_id).
Proof.
  intros HR. apply confined_hbind; [apply confined_hlift|].
  intros t. apply confined_forward_to_target, HR.
Qed.

Lemma confined_process_first_message first_data client_id room_id :
  (∀ t, client_rooms m0 !! t = Some room_id →
        R (Send t (with_sender first_data client_id))) →
  confined m0 R (process_first_message int_of_str first_data client_id room_id).
Proof.
  intros HR. unfold process_first_message.
  destruct (is_signaling _); [|apply confined_hret].
  destruct (dict_get first_data "targetId");
    first [apply confined_hret | by apply confined_targeted].
Qed.

Lemma confined_dispatch fails data client_id room_id :
  (∀ t, client_rooms m0 !! t = Some room_id →
        R (Send t (with_sender data client_id))) →
  (∀ c, client_rooms m0 !! c = Some room_id → c ≠ client_id →
        R (Send c (chat_msg data client_id)) ∧
        R (Send c (mute_state_msg data client_id))) →
  (∀ peer_list, R (Send client_id (peer_list_msg peer_list))) →
  confined m0 R (dispatch int_of_str fails data client_id room_id).
Proof.
  intros Hrelay Hcast Hlist. unfold dispatch.
  repeat match goal with
  | |- confined m0 R (if ?b then _ else _) => destruct b
  end.
  - apply confined_hbind.
    + destruct (dict_get data "targetId"); first
        [ apply confined_hret
        | apply confined_hbind; [apply confined_hlift|];
          intros t; apply confined_hret ].
    + intros [t|]; [case_decide|];
        first [ apply confined_forward_to_target, Hrelay
              | apply confined_hbroadcast; intros c Hc _; by apply Hrelay ].
  - apply confined_hbroadcast. intros c Hc Hne. by apply Hcast.
  - apply confined_hbroadcast. intros c Hc Hne. by apply Hcast.
  - destruct (dict_get data "targetId");
      first [apply confined_hret | by apply confined_targeted].
  - apply confined_hbind; [apply confined_hget|].
    intros l. apply confined_ws_send, Hlist.
  - apply confined_hret.
Qed.

End Confined.

(** The name update leaves the room dict alone. *)
Lemma below_renamed m data client_id : below m (renamed m data client_id).
Proof.
  unfold below, renamed. destruct (data !! "peerName"); [|done].
  by case_decide.
Qed.

(** Every send of a turn of the message loop is one of [session_send]. *)
Lemma on_message_sends int_of_str fails client_id room_id data m :
  Forall (session_send m client_id room_id data)
    (on_message int_of_str fails client_id room_id data m).1.2.
Proof.
  rewrite on_message_unfold.
  apply (confined_protect m (session_send m client_id room_id data));
    [| |apply below_renamed].
  - apply confined_dispatch.
    + intros t Ht. right. split; [done|]. by left.
    + intros c Hc Hne. split; (right; split; [done|]; right; split; [done|]);
        [by left|by right; left].
    + intros l. left. split; [done|]. by exists l.
  - apply confined_cleanup. intros c total peers Hc Hne.
    right. split; [done|]. right. split; [done|]. right. right. by exists total, peers.
Qed.

Lemma cleanup_sends fails client_id room_id data m :
  Forall (session_send m client_id room_id data)
    (cleanup fails client_id room_id m).1.2.
Proof.
  apply (confined_cleanup m (session_send m client_id room_id data));
    [|by unfold below].
  intros c total peers Hc Hne.
  right. split; [done|]. right. split; [done|]. right. right. by exists total, peers.
Qed.

(** Every send of a join goes to the new client or to a client of the
    assigned room. *)
Lemma join_sends_in_room int_of_str fuel fails websocket client_ip first_data
    m m' out res :
  join int_of_str fuel fails websocket client_ip first_data m = Some (m', out, res) →
  ∃ room_id,
    Forall (in_room_or_self
              (registered m room_id websocket client_ip (peer_name_of first_data))
              (client_counter m + 1) room_id) out.
Proof.
  unfold join.
  destruct (requested_room_of first_data) as [requested_room|]; [|done].
  destruct (find_available_room fuel m requested_room)
    as [[room_id was_redirected]|]; [|done].
  fold (registered m room_id websocket client_ip (peer_name_of first_data)).
  set (m2 := registered m room_id websocket client_ip (peer_name_of first_data)).
  set (R := in_room_or_self m2 (client_counter m + 1) room_id).
  intros [= Hrun]. exists room_id.
  match type of Hrun with protect ?b ?h _ = _ =>
    assert (confined m2 R (protect b h)) as Hconfined
  end.
  { apply confined_protect.
    - apply confined_hbind; [apply confined_ws_send; by left|]. intros _.
      apply confined_hbind.
      { destruct was_redirected;
          [apply confined_ws_send; by left|apply confined_hret]. }
      intros _. apply confined_hbind_hget. intros m1.
      apply confined_hbind; [apply confined_hbroadcast; intros c Hc _; by right|].
      intros _. apply confined_hbind; [|intros _; apply confined_hret].
      apply confined_process_first_message. intros t Ht. by right.
    - apply confined_cleanup. intros c total peers Hc _. by right. }
  destruct (Hconfined m2) as [_ Hsends]; [by unfold below|].
  by rewrite Hrun in Hsends.
Qed.

(** X13.  Every frame a turn of the message loop writes names its true
    sender: a relayed signaling, chat or mute frame carries the session's
    own id under [senderId], whatever [senderId] the client put into the
    frame; a leave notice carries it under [clientId]; a peer list goes to
    the session's own socket only. *)
Theorem relayed_frames_name_sender (int_of_str : string → option Z)
    (st : system) (fuel : nat) (fails : Z → bool) (client_id : Z)
    (data : message) (st' : system) (out : list send) :
  step int_of_str fuel fails st (EvMessage client_id data) = Some (st', out) →
  Forall (λ s,
      send_body s !! "senderId" = Some (JInt client_id) ∨
      (send_body s !! "type" = Some (JStr "peer-disconnected") ∧
       send_body s !! "clientId" = Some (JInt client_id) ∧
       send_to s ≠ client_id) ∨
      (send_body s !! "type" = Some (JStr "peer-list") ∧ send_to s = client_id))
    out.
Proof.
  intros Hstep. simpl in Hstep.
  destruct (sessions st !! client_id) as [room_id|]; [|done].
  pose proof (on_message_sends int_of_str fails client_id room_id data (mgr st))
    as Hsends.
  assert ((on_message int_of_str fails client_id room_id data (mgr st)).1.2 = out)
    as Hout.
  { destruct (on_message _ _ _ _ _ _) as [[m' o] [[]|]];
      by injection Hstep as <- <-. }
  rewrite Hout in Hsends. eapply Forall_impl; [exact Hsends|].
  intros [c body]. unfold session_send. simpl.
  intros [[-> [l ->]]|[_ [->|[Hne [->|[->|(n & k & ->)]]]]]].
  - right. right. done.
  - left. apply lookup_insert_eq.
  - left. done.
  - left. done.
  - right. left. done.
Qed.

Lemma relayed_frames_name_sender_witness :
  Forall (λ s,
      send_body s !! "senderId" = Some (JInt 1) ∨
      (send_body s !! "type" = Some (JStr "peer-disconnected") ∧
       send_body s !! "clientId" = Some (JInt 1) ∧
       send_to s ≠ 1) ∨
      (send_body s !! "type" = Some (JStr "peer-list") ∧ send_to s = 1))
    [Send 2 (chat_msg plain_chat 1)].
Proof.
  apply (relayed_frames_name_sender int_of_digits lobby_of_two 0%nat no_failure
           1 plain_chat lobby_of_two).
  vm_compute. reflexivity.
Defined.

(** X14.  No handler run writes outside one room.  A turn of the message
    loop and the end of a session write to the session's own client or to
    clients registered in the session's room; a join writes to the new
    client or to clients of one room, and never to a client of any other
    room. *)
Theorem sends_stay_in_room (int_of_str : string → option Z) (st : system)
    (fuel : nat) (fails : Z → bool) (ev : event) (st' : system)
    (out : list send) :
  step int_of_str fuel fails st ev = Some (st', out) →
  ∃ client_id room_id,
    match ev with
    | EvJoin _ _ _ => client_id = client_counter (mgr st) + 1
    | EvMessage c _ | EvClosed c =>
        client_id = c ∧ sessions st !! c = Some room_id
    end ∧
    Forall (in_room_or_self (mgr st) client_id room_id) out.
Proof.
  intros Hstep. destruct ev as [ws ip d|c d|c]; simpl in Hstep.
  - destruct (join _ _ _ _ _ _ _) as [[[m' o] res]|] eqn:Hjoin; [|done].
    assert (o = out) as -> by (by destruct res as [[??]|]; injection Hstep).
    apply join_sends_in_room in Hjoin as [room_id Hsends].
    exists (client_counter (mgr st) + 1), room_id. split; [done|].
    eapply Forall_impl; [exact Hsends|].
    intros [t body]. unfold in_room_or_self. simpl. intros [->|Hroom]; [by left|].
    destruct (decide (t = client_counter (mgr st) + 1)) as [->|Hne]; [by left|].
    right. by rewrite lookup_insert_ne in Hroom.
  - destruct (sessions st !! c) as [room_id|] eqn:Hlive; [|done].
    exists c, room_id. split; [done|].
    pose proof (on_message_sends int_of_str fails c room_id d (mgr st)) as Hsends.
    assert ((on_message int_of_str fails c room_id d (mgr st)).1.2 = out) as Hout.
    { destruct (on_message _ _ _ _ _ _) as [[m' o] [[]|]];
        by injection Hstep as <- <-. }
    rewrite Hout in Hsends. eapply Forall_impl; [exact Hsends|].
    intros [t body]. unfold session_send, in_room_or_self. simpl.
    intros [[-> _]|[Hroom _]]; [by left|by right].
  - destruct (sessions st !! c) as [room_id|] eqn:Hlive; [|done].
    exists c, room_id. split; [done|].
    pose proof (cleanup_sends fails c room_id ∅ (mgr st)) as Hsends.
    unfold on_receive_error in Hstep.
    assert ((cleanup fails c room_id (mgr st)).1.2 = out) as Hout.
    { destruct (cleanup _ _ _ _) as [[m' o] r]. by injection Hstep as <- <-. }
    rewrite Hout in Hsends. eapply Forall_impl; [exact Hsends|].
    intros [t body]. unfold session_send, in_room_or_self. simpl.
    intros [[-> _]|[Hroom _]]; [by left|by right].
Qed.

Lemma sends_stay_in_room_witness :
  ∃ client_id room_id,
    (client_id = 1 ∧ sessions lobby_of_two !! 1 = Some room_id) ∧
    Forall (in_room_or_self (mgr lobby_of_two) client_id room_id)
      [Send 2 (chat_msg plain_chat 1)].
Proof.
  apply (sends_stay_in_room int_of_digits lobby_of_two 0%nat no_failure
           (EvMessage 1 plain_chat) lobby_of_two).
  vm_compute. reflexivity.
Defined.

(** ** Targeted frames *)

Lemma forward_to_target_eval data client_id room_id t m :
  forward_to_target data client_id room_id t m =
    (m,
     if decide (client_rooms m !! t = Some room_id ∧
                is_Some (active_connections m !! t))
     then [Send t (with_sender data client_id)] else [],
     Some ()).
Proof.
  unfold forward_to_target, hpersonal, send_personal_message, hret.
  destruct (decide (client_rooms m !! t = Some room_id)) as [Hr|Hr];
    [destruct (decide (is_Some (active_connections m !! t))) as [Ha|Ha]|];
    [ by rewrite decide_True by done
    | by rewrite decide_False by (by intros [??])
    | by rewrite decide_False by (by intros [??]) ].
Qed.

(** A [screen-share-stopped] frame with an integer [targetId], zero
    included: one send to the target when it is connected and in the
    session's room, none otherwise. *)
Lemma dispatch_screen_share int_of_str fails data client_id room_id t m :
  dict_get_default data "type" (JStr "unknown") = JStr "screen-share-stopped" →
  dict_get data "targetId" ≠ JNull →
  py_int int_of_str (dict_get data "targetId") = Some t →
  dispatch int_of_str fails data client_id room_id m =
    (m,
     if decide (client_rooms m !! t = Some room_id ∧
                is_Some (active_connections m !! t))
     then [Send t (with_sender data client_id)] else [],
     Some ()).
Proof.
  intros Htype Hv Hint. unfold dispatch. rewrite Htype.
  change (is_signaling (JStr "screen-share-stopped")) with false.
  change (is_type (JStr "screen-share-stopped") "chat") with false.
  change (is_type (JStr "screen-share-stopped") "mute-state") with false.
  change (is_type (JStr "screen-share-stopped") "screen-share-stopped") with true.
  cbv iota.
  destruct (dict_get data "targetId"); [done|..];
    rewrite Hint, hbind_hlift_Some; apply forward_to_target_eval.
Qed.

(** X15.  A signaling frame with a non-zero integer [targetId], and a
    [screen-share-stopped] frame with any integer [targetId], is written to
    the target exactly when the target is in the sender's room, the sender
    itself included; otherwise it is dropped without a reply.  Nothing else
    is written, and a target socket that raises changes nothing: nobody is
    disconnected and the session stays live. *)
Theorem targeted_frame_delivery (int_of_str : string → option Z) (C : Z)
    (st : system) (fuel : nat) (fails : Z → bool) (client_id : Z)
    (room_id : string) (data : message) (t : Z) :
  reachable int_of_str C st →
  sessions st !! client_id = Some room_id →
  (is_signaling (dict_get_default data "type" (JStr "unknown")) = true ∧ t ≠ 0) ∨
  dict_get_default data "type" (JStr "unknown") = JStr "screen-share-stopped" →
  dict_get data "targetId" ≠ JNull →
  py_int int_of_str (dict_get data "targetId") = Some t →
  step int_of_str fuel fails st (EvMessage client_id data) =
    Some (mkSystem (renamed (mgr st) data client_id) (sessions st),
          if decide (t ∈ get_peers_in_room (mgr st) room_id)
          then [Send t (with_sender data client_id)] else []).
Proof.
  intros Hreach Hlive Htype Hv Hint.
  pose proof (reachable_wf _ _ _ Hreach) as Hwf.
  simpl. rewrite Hlive, on_message_unfold. unfold protect.
  assert (dispatch int_of_str fails data client_id room_id
            (renamed (mgr st) data client_id) =
          (renamed (mgr st) data client_id,
           if decide (client_rooms (renamed (mgr st) data client_id) !! t
                        = Some room_id ∧
                      is_Some (active_connections
                                 (renamed (mgr st) data client_id) !! t))
           then [Send t (with_sender data client_id)] else [],
           Some ())) as ->.
  { destruct Htype as [[Hsig Ht]|Hscreen].
    - by eapply dispatch_unicast.
    - by apply dispatch_screen_share. }
  destruct (renamed_registry (mgr st) data client_id) as [-> ->].
  do 3 f_equal. unfold get_peers_in_room.
  destruct (decide (t ∈ peers_of (client_rooms (mgr st)) room_id)) as [Hin|Hin].
  - apply elem_of_peers_of in Hin. rewrite decide_True; [done|].
    split; [done|]. apply (wf_coherent _ Hwf). by rewrite Hin.
  - rewrite decide_False; [done|]. intros [Hroom _].
    by apply Hin, elem_of_peers_of.
Qed.

Lemma targeted_frame_delivery_witness :
  step int_of_digits 0 socket_of_1_fails lobby_of_two
    (EvMessage 2 {[ "type" := JStr "screen-share-stopped"; "targetId" := JInt 1 ]}) =
    Some (mkSystem
            (renamed (mgr lobby_of_two)
               {[ "type" := JStr "screen-share-stopped"; "targetId" := JInt 1 ]} 2)
            (sessions lobby_of_two),
          if decide (1 ∈ get_peers_in_room (mgr lobby_of_two) "lobby")
          then [Send 1 (with_sender
                          {[ "type" := JStr "screen-share-stopped";
                             "targetId" := JInt 1 ]} 2)]
          else []).
Proof.
  apply (targeted_frame_delivery int_of_digits 32 lobby_of_two 0%nat
           socket_of_1_fails 2 "lobby"
           {[ "type" := JStr "screen-share-stopped"; "targetId" := JInt 1 ]} 1
           (lobby_of_two_reachable int_of_digits)).
  - reflexivity.
  - right. reflexivity.
  - vm_compute. discriminate.
  - reflexivity.
Defined.

(** ** Registered clients and live sessions *)

Lemma protect_raised {A} (body : Handler A) (handler : Handler unit) m m' out :
  protect body handler m = (m', out, None) →
  (body m).2 = None ∧ m' = (handler (body m).1.1).1.1.
Proof.
  unfold protect. destruct (body m) as [[m1 s1] [a|]]; [done|]. simpl.
  destruct (handler m1) as [[m2 s2] r]. by intros [= <- _].
Qed.

Lemma unregistered_disconnect_closed client_id :
  disconnect_closed (λ _, True) (λ m, client_rooms m !! client_id = None).
Proof.
  intros m c _ Hm. eapply lookup_weaken_None; [exact Hm|].
  apply disconnect_rooms_subseteq.
Qed.

(** The [except] branch leaves no room record of its client. *)
Lemma cleanup_unregisters fails client_id room_id m :
  wf m → client_id ≠ 0 →
  client_rooms (cleanup fails client_id room_id m).1.1 !! client_id = None.
Proof.
  intros Hwf Hid. unfold cleanup. rewrite decide_True by done.
  rewrite hbind_hmodify.
  assert (client_rooms (disconnect m client_id) !! client_id = None) as Hgone.
  { destruct (decide (is_Some (active_connections m !! client_id))) as [Hin|Hout].
    - by destruct (disconnect_gone m client_id Hin) as (_ & _ & ? & _).
    - rewrite disconnect_absent by (by apply eq_None_not_Some).
      apply eq_None_not_Some. by rewrite (wf_coherent _ Hwf). }
  revert Hgone. generalize (disconnect m client_id). intros m1 Hm1.
  pose proof (unregistered_disconnect_closed client_id) as Hclosed.
  case_decide; [|done].
  apply (preserves_hbind (λ m, client_rooms m !! client_id = None));
    [apply preserves_hget| |done].
  intros msg. by apply (preserves_hbroadcast (λ _, True)).
Qed.

(** A join that opens no session leaves no room record of the id it
    took. *)
Lemma join_None int_of_str fuel fails websocket client_ip first_data m m' out :
  wf m →
  join int_of_str fuel fails websocket client_ip first_data m = Some (m', out, None) →
  client_rooms m' !! (client_counter m + 1) = None.
Proof.
  intros Hwf. unfold join.
  destruct (requested_room_of first_data) as [requested_room|]; [|done].
  destruct (find_available_room fuel m requested_room)
    as [[room_id was_redirected]|]; [|done].
  fold (registered m room_id websocket client_ip (peer_name_of first_data)).
  set (m2 := registered m room_id websocket client_ip (peer_name_of first_data)).
  intros [= Hrun].
  match type of Hrun with protect ?b ?h _ = _ =>
    assert (preserves wf b) as Hbody
  end.
  { pose proof (stable_disconnect_closed (λ _, True) _ stable_wf) as Hclosed.
    repeat (apply preserves_hbind; [|intros ?]);
      first [ apply preserves_ws_send | apply preserves_hret
            | apply preserves_hget
            | by apply (preserves_hbroadcast (λ _, True))
            | by apply preserves_process_first_message
            | destruct was_redirected;
                [apply preserves_ws_send | apply preserves_hret] ]. }
  apply protect_raised in Hrun as [_ ->].
  apply cleanup_unregisters.
  - apply Hbody. by apply wf_registered.
  - pose proof (wf_counter _ Hwf). lia.
Qed.

Lemma stable_below m0 : stable (below m0).
Proof. split; [apply below_disconnect_closed|]. by intros m c v Hm. Qed.

Lemma step_sessions_cover int_of_str fuel fails st ev st' out :
  wf (mgr st) → sessions_ok st → sessions_cover st →
  step int_of_str fuel fails st ev = Some (st', out) →
  sessions_cover st'.
Proof.
  intros Hwf Hok Hcover Hstep. destruct ev as [ws ip d|c d|c]; simpl in Hstep.
  - destruct (join _ _ _ _ _ _ _) as [[[m' o] res]|] eqn:Hjoin; [|done].
    pose proof Hjoin as Hjoin'.
    apply join_Some in Hjoin'
      as (req & room & redir & _ & _ & Hpres & Hres & _).
    pose proof (Hpres _ (below_disconnect_closed _) (below_refl _)) as Hbelow.
    assert (∀ k r, k ≠ client_counter (mgr st) + 1 →
              client_rooms m' !! k = Some r → sessions st !! k = Some r) as Hold.
    { intros k r Hne Hk. apply Hcover.
      eapply below_room in Hk; [|exact Hbelow]. simpl in Hk.
      by rewrite lookup_insert_ne in Hk. }
    destruct Hres as [->| ->]; injection Hstep as <- <-; intros k r; simpl.
    + destruct (decide (k = client_counter (mgr st) + 1)) as [->|Hne].
      * by rewrite (join_None _ _ _ _ _ _ _ _ _ Hwf Hjoin).
      * by apply Hold.
    + destruct (decide (k = client_counter (mgr st) + 1)) as [->|Hne].
      * rewrite lookup_insert_eq. intros Hk.
        eapply below_room in Hk; [|exact Hbelow]. simpl in Hk.
        by rewrite lookup_insert_eq in Hk.
      * rewrite lookup_insert_ne by done. by apply Hold.
  - destruct (sessions st !! c) as [room|] eqn:Hlive; [|done].
    pose proof (preserves_on_message _ int_of_str fails c room d
                  (stable_below (mgr st)) _ (below_refl _)) as Hbelow.
    destruct (on_message _ _ _ _ _ _) as [[m' o] [[]|]] eqn:Hrun;
      injection Hstep as <- <-; intros k r Hk; simpl in *.
    + apply Hcover. by eapply below_room.
    + destruct (decide (k = c)) as [->|Hne].
      * apply on_message_raises in Hrun as (_ & -> & _).
        rewrite cleanup_unregisters in Hk; [done|by apply wf_renamed|].
        destruct (Hok _ _ Hlive). lia.
      * rewrite lookup_delete_ne by done. apply Hcover. by eapply below_room.
  - destruct (sessions st !! c) as [room|] eqn:Hlive; [|done].
    pose proof (preserves_cleanup_stable _ fails c room
                  (stable_below (mgr st)) _ (below_refl _)) as Hbelow.
    unfold on_receive_error in Hstep.
    pose proof (cleanup_unregisters fails c room (mgr st) Hwf) as Hgone.
    destruct (cleanup _ _ _ _) as [[m' o] r']. injection Hstep as <- <-.
    intros k r Hk; simpl in *. destruct (decide (k = c)) as [->|Hne].
    + rewrite Hgone in Hk; [done|]. destruct (Hok _ _ Hlive). lia.
    + rewrite lookup_delete_ne by done. apply Hcover. by eapply below_room.
Qed.

Lemma reachable_sessions_cover int_of_str C st :
  reachable int_of_str C st → sessions_cover st.
Proof.
  induction 1 as [|st fuel fails ev st' out Hreach IH Hstep].
  - intros k r. simpl. by rewrite lookup_empty.
  - eapply step_sessions_cover; [| |done..].
    + by eapply reachable_wf.
    + by eapply reachable_sessions_ok.
Qed.

(** X16.  In every reachable state a client the manager has in a room is
    connected and has a live session whose [room_id] is that room, which
    is not the empty string: the room a frame is relayed in and the room
    the manager reports never differ for a registered client. *)
Theorem registered_clients_have_sessions (int_of_str : string → option Z)
    (C : Z) (st : system) (client_id : Z) (room_id : string) :
  reachable int_of_str C st →
  client_rooms (mgr st) !! client_id = Some room_id →
  sessions st !! client_id = Some room_id ∧ room_id ≠ "" ∧
  is_Some (active_connections (mgr st) !! client_id).
Proof.
  intros Hreach Hroom.
  pose proof (reachable_sessions_cover _ _ _ Hreach _ _ Hroom) as Hlive.
  split; [done|]. split.
  - by destruct (reachable_sessions_ok _ _ _ Hreach _ _ Hlive).
  - apply (wf_coherent _ (reachable_wf _ _ _ Hreach)). by rewrite Hroom.
Qed.

Lemma registered_clients_have_sessions_witness :
  sessions lobby_of_two !! 1 = Some "lobby" ∧ "lobby" ≠ "" ∧
  is_Some (active_connections (mgr lobby_of_two) !! 1).
Proof.
  apply (registered_clients_have_sessions int_of_digits 32 lobby_of_two 1 "lobby"
           (lobby_of_two_reachable int_of_digits)).
  reflexivity.
Defined.

(** ** The peer list *)

(** X17.  A [get-peers] frame whose reply can be written is answered on
    the sender's own socket only, with one [peer-list] frame that names,
    once each, exactly the clients a frame relayed by this session would
    be written to: the connected clients of its room, itself apart.  The
    manager changes by the name update alone and the session stays live. *)
Theorem get_peers_lists_recipients (int_of_str : string → option Z) (C : Z)
    (st : system) (fuel : nat) (fails : Z → bool) (client_id : Z)
    (room_id : string) (data : message) :
  reachable int_of_str C st →
  sessions st !! client_id = Some room_id →
  dict_get_default data "type" (JStr "unknown") = JStr "get-peers" →
  fails client_id = false →
  ∃ peer_list,
    step int_of_str fuel fails st (EvMessage client_id data) =
      Some (mkSystem (renamed (mgr st) data client_id) (sessions st),
            [Send client_id (peer_list_msg peer_list)]) ∧
    NoDup peer_list ∧
    ∀ c, c ∈ peer_list ↔
         c ∈ recipients (mgr st) (Some client_id) (Some room_id).
Proof.
  intros Hreach Hlive Htype Hok.
  pose proof (reachable_wf _ _ _ Hreach) as Hwf.
  exists (filter (λ cid, cid ≠ client_id) (get_peers_in_room (mgr st) room_id)).
  split; [|split].
  - simpl. rewrite Hlive, on_message_unfold. unfold protect, dispatch.
    rewrite Htype.
    change (is_signaling (JStr "get-peers")) with false.
    change (is_type (JStr "get-peers") "chat") with false.
    change (is_type (JStr "get-peers") "mute-state") with false.
    change (is_type (JStr "get-peers") "screen-share-stopped") with false.
    change (is_type (JStr "get-peers") "get-peers") with true.
    cbv iota. rewrite hbind_hget. unfold ws_send. rewrite Hok.
    unfold get_peers_in_room.
    by destruct (renamed_registry (mgr st) data client_id) as [_ ->].
  - apply NoDup_filter, NoDup_peers_of.
  - intros c. rewrite list_elem_of_filter, elem_of_recipients.
    unfold get_peers_in_room, is_recipient. rewrite elem_of_peers_of. split.
    + intros [Hne Hroom]. split; [|split; [congruence|by right]].
      apply (wf_coherent _ Hwf). by rewrite Hroom.
    + intros (_ & Hne & [?|Hroom]); [done|]. split; [congruence|done].
Qed.

Lemma get_peers_lists_recipients_witness :
  ∃ peer_list,
    step int_of_digits 0 no_failure lobby_of_two
      (EvMessage 1 {[ "type" := JStr "get-peers" ]}) =
      Some (mkSystem (renamed (mgr lobby_of_two) {[ "type" := JStr "get-peers" ]} 1)
              (sessions lobby_of_two),
            [Send 1 (peer_list_msg peer_list)]) ∧
    NoDup peer_list ∧
    ∀ c, c ∈ peer_list ↔ c ∈ recipients (mgr lobby_of_two) (Some 1) (Some "lobby").
Proof.
  apply (get_peers_lists_recipients int_of_digits 32 lobby_of_two 0%nat no_failure
           1 "lobby" {[ "type" := JStr "get-peers" ]}
           (lobby_of_two_reachable int_of_digits)); reflexivity.
Defined.

(** ** A join whose welcome cannot be written *)

Lemma hbind_ws_send_fails {B} fails c msg (k : unit → Handler B) m :
  fails c = true →
  hbind (ws_send fails c msg) k m = (m, [Send c msg], None).
Proof. intros Hfail. unfold hbind, ws_send. by rewrite Hfail. Qed.

Lemma registered_same_client m room_id websocket client_ip peer_name c :
  c ≠ client_counter m + 1 →
  same_client m (registered m room_id websocket client_ip peer_name) c.
Proof.
  intros Hne. unfold same_client. simpl.
  rewrite !lookup_insert_ne by done. repeat split.
  destruct (truthy peer_name); [by rewrite lookup_insert_ne|done].
Qed.

(** A join whose welcome cannot be written, when no other coroutine
    changes the manager during its sends. *)
Lemma join_welcome_fails_alone (int_of_str : string → option Z) (st : system)
    (fuel : nat) (fails : Z → bool) (websocket : WebSocket) (client_ip : string)
    (first_data : message) (st' : system) (out : list send) :
  wf (mgr st) →
  fails (client_counter (mgr st) + 1) = true →
  step int_of_str fuel fails st (EvJoin websocket client_ip first_data)
    = Some (st', out) →
  let client_id := client_counter (mgr st) + 1 in
  ∃ room_id targets,
    NoDup targets ∧
    (∀ c, c ∈ targets ↔ c ∈ get_peers_in_room (mgr st) room_id) ∧
    out = Send client_id
            (welcome_msg client_id (total_clients (mgr st) + 1)
               (Z.of_nat (length (get_peers_in_room (mgr st) room_id))) room_id)
          :: ((λ c, Send c (peer_disconnected_msg client_id
                              (total_clients (mgr st))
                              (Z.of_nat (length
                                 (get_peers_in_room (mgr st) room_id))))) <$> targets) ∧
    sessions st' = sessions st ∧
    client_counter (mgr st') = client_id ∧
    gone (mgr st') client_id ∧
    (∀ c, fails c = false → same_client (mgr st) (mgr st') c).
Proof.
  intros Hwf Hfail Hstep.
  pose proof (wf_counter _ Hwf) as Hcnt.
  assert (active_connections (mgr st) !! (client_counter (mgr st) + 1) = None)
    as Hfresh.
  { apply eq_None_not_Some. intros Hin.
    pose proof (wf_ids _ Hwf _ (or_introl Hin)). lia. }
  simpl in Hstep.
  destruct (join _ _ _ _ _ _ _) as [[[m' o] res]|] eqn:Hjoin; [|done].
  pose proof Hjoin as Hjoin'.
  apply join_Some in Hjoin' as (req & room & redir & Hreq & Hfind & Hpres & _).
  pose proof (Hpres _ (stable_disconnect_closed _ _
                (stable_counter (client_counter (mgr st) + 1))) eq_refl) as Hcounter.
  clear Hpres.
  assert (room ≠ "") as Hroom.
  { eapply find_available_room_nonempty; [|done].
    by eapply requested_room_of_nonempty. }
  unfold join in Hjoin. rewrite Hreq, Hfind in Hjoin.
  fold (registered (mgr st) room websocket client_ip (peer_name_of first_data))
    in Hjoin.
  set (m2 := registered (mgr st) room websocket client_ip (peer_name_of first_data))
    in *.
  injection Hjoin as Hrun. unfold protect in Hrun.
  rewrite hbind_ws_send_fails in Hrun by done.
  rewrite cleanup_eval in Hrun by (done || lia). cbv zeta in Hrun.
  injection Hrun as <- <- <-. injection Hstep as <- <-.
  destruct (remaining_members m2 (client_counter (mgr st) + 1) room)
    as (Hnd & Hmem & Hlen & Hsucc & Habs);
    [by apply wf_registered|simpl; lia|].
  set (m1 := disconnect m2 (client_counter (mgr st) + 1)) in *.
  assert (is_Some (active_connections m2 !! (client_counter (mgr st) + 1)))
    as Hactive by (simpl; rewrite lookup_insert_eq; eauto).
  assert (length (recipients m1 (Some (client_counter (mgr st) + 1)) (Some room))
          = length (get_peers_in_room (mgr st) room)) as Hcount.
  { assert (client_rooms m2 !! (client_counter (mgr st) + 1) = Some room) as Hin
      by (simpl; apply lookup_insert_eq).
    specialize (Hsucc Hin). unfold m2 in Hsucc.
    rewrite registered_occupancy in Hsucc by done.
    rewrite decide_True in Hsucc by done. lia. }
  assert (total_clients m2 = total_clients (mgr st) + 1) as Htotal2.
  { unfold total_clients. simpl. rewrite map_size_insert_None by done. lia. }
  assert (total_clients m1 = total_clients (mgr st)) as Htotal1.
  { unfold m1. rewrite disconnect_present by done. unfold total_clients. simpl.
    by rewrite delete_insert_id. }
  exists room, (recipients m1 (Some (client_counter (mgr st) + 1)) (Some room)).
  simpl. split; [done|]. split; [|split; [|split; [done|split; [done|split]]]].
  - intros c. rewrite Hmem. unfold get_peers_in_room. rewrite elem_of_peers_of.
    simpl. split.
    + intros [Hne Hc]. by rewrite lookup_insert_ne in Hc.
    + intros Hc.
      assert (c ≠ client_counter (mgr st) + 1) as Hne.
      { intros ->. by rewrite wf_fresh in Hc. }
      by rewrite lookup_insert_ne.
  - rewrite broadcast_sends, Htotal1, Htotal2, Hlen, Hcount.
    unfold m2 at 1. rewrite registered_occupancy by done.
    rewrite decide_True by done.
    by replace (Z.of_nat (1 + length (get_peers_in_room (mgr st) room)) - 1)
      with (Z.of_nat (length (get_peers_in_room (mgr st) room))) by lia.
  - rewrite broadcast_manager. apply foldl_disconnect_keeps_gone.
    destruct Habs as (_ & Ha & Hr & Hi & Hn). repeat split; auto.
  - intros c Hc.
    assert (c ≠ client_counter (mgr st) + 1) as Hne by (intros ->; congruence).
    rewrite broadcast_manager.
    destruct (foldl_disconnect_same_client
                (filter (λ c, fails c = true)
                   (recipients m1 (Some (client_counter (mgr st) + 1)) (Some room)))
                m1 c) as (Ha & Hn & Hr & Hi).
    { intros [Hbad _]%list_elem_of_filter. congruence. }
    destruct (disconnect_same_client m2 (client_counter (mgr st) + 1) c Hne)
      as (Ha1 & Hn1 & Hr1 & Hi1).
    destruct (registered_same_client (mgr st) room websocket client_ip
                (peer_name_of first_data) c Hne) as (Ha2 & Hn2 & Hr2 & Hi2).
    fold m2 in Ha2, Hn2, Hr2, Hi2. fold m1 in Ha1, Hn1, Hr1, Hi1.
    unfold same_client.
    by rewrite Ha, Hn, Hr, Hi, Ha1, Hn1, Hr1, Hi1, Ha2, Hn2, Hr2, Hi2.
Qed.

(** X18.  When the welcome of a join cannot be written to the new socket,
    and no other coroutine changes the manager during the sends of the
    join, the join ends in the [except] branch: the id stays consumed,
    every record of it is removed again and the message loop is not
    entered.  The clients of the assigned room, which were never told of
    the arrival, are each sent one [peer-disconnected] notice for that id,
    with the totals as they were before the join; nothing else is written,
    and a client whose socket works keeps its records. *)
Theorem join_welcome_fails (int_of_str : string → option Z)
    (m : ConnectionManager) (fuel : nat) (fails : Z → bool)
    (websocket : WebSocket) (client_ip : string) (first_data : message)
    (w' : world) (out : list send) (res : option (Z * string)) :
  wf m →
  fails (client_counter m + 1) = true →
  live_join int_of_str fuel fails websocket client_ip first_data (World m [])
    = Some (w', out, res) →
  let client_id := client_counter m + 1 in
  res = None ∧
  ∃ room_id targets,
    NoDup targets ∧
    (∀ c, c ∈ targets ↔ c ∈ get_peers_in_room m room_id) ∧
    out = Send client_id
            (welcome_msg client_id (total_clients m + 1)
               (Z.of_nat (length (get_peers_in_room m room_id))) room_id)
          :: ((λ c, Send c (peer_disconnected_msg client_id (total_clients m)
                              (Z.of_nat (length (get_peers_in_room m room_id)))))
                <$> targets) ∧
    client_counter (manager w') = client_id ∧
    gone (manager w') client_id ∧
    (∀ c, fails c = false → same_client m (manager w') c).
Proof.
  intros Hwf Hfail [_ Hjoin]%live_join_alone.
  apply join_step in Hjoin as (sessions' & Hstep & Hnone & Hsome).
  destruct (join_welcome_fails_alone int_of_str (mkSystem m ∅) fuel fails
              websocket client_ip first_data _ out Hwf Hfail Hstep)
    as (room & targets & Hnd & Hmem & Hout & Hsess & Hrest).
  split.
  - destruct res as [[c r]|]; [|done]. simpl in Hsess.
    specialize (Hsome c r eq_refl). by rewrite Hsess in Hsome.
  - by exists room, targets.
Qed.

Lemma live_join_welcome_fails :
  live_join int_of_digits 1 (λ c, bool_decide (c = 2)) 8%N "10.0.0.2"
      untargeted_first_offer (World (mgr lobby_of_one) []) =
    Some (World (set_client_counter (mgr lobby_of_one) 2) [],
          [Send 2 (welcome_msg 2 2 1 "lobby");
           Send 1 (peer_disconnected_msg 2 1 1)],
          None).
Proof. vm_compute. reflexivity. Qed.

Lemma join_welcome_fails_witness :
  (None : option (Z * string)) = None ∧
  ∃ room_id targets,
    NoDup targets ∧
    (∀ c, c ∈ targets ↔ c ∈ get_peers_in_room (mgr lobby_of_one) room_id) ∧
    [Send 2 (welcome_msg 2 2 1 "lobby"); Send 1 (peer_disconnected_msg 2 1 1)] =
      Send (client_counter (mgr lobby_of_one) + 1)
        (welcome_msg (client_counter (mgr lobby_of_one) + 1)
           (total_clients (mgr lobby_of_one) + 1)
           (Z.of_nat (length (get_peers_in_room (mgr lobby_of_one) room_id)))
           room_id)
      :: ((λ c, Send c (peer_disconnected_msg (client_counter (mgr lobby_of_one) + 1)
                          (total_clients (mgr lobby_of_one))
                          (Z.of_nat (length
                             (get_peers_in_room (mgr lobby_of_one) room_id)))))
            <$> targets) ∧
    client_counter (manager (World (set_client_counter (mgr lobby_of_one) 2) []))
      = client_counter (mgr lobby_of_one) + 1 ∧
    gone (manager (World (set_client_counter (mgr lobby_of_one) 2) []))
         (client_counter (mgr lobby_of_one) + 1) ∧
    (∀ c, bool_decide (c = 2) = false →
          same_client (mgr lobby_of_one)
            (manager (World (set_client_counter (mgr lobby_of_one) 2) [])) c).
Proof.
  apply (join_welcome_fails int_of_digits (mgr lobby_of_one) 1%nat
           (λ c, bool_decide (c = 2)) 8%N "10.0.0.2" untargeted_first_offer
           _ _ _ wf_lobby_of_one).
  - reflexivity.
  - exact live_join_welcome_fails.
Defined.

(** ** Records never move *)

Lemma stable_older n m0 : stable (older n m0).
Proof.
  split.
  - intros m c _ [Hle Hold]. split; [by rewrite disconnect_counter|].
    intros k Hk. destruct (Hold k Hk) as (Ha & Hr & Hi).
    destruct (decide (k = c)) as [->|Hne].
    + destruct (decide (is_Some (active_connections m !! c))) as [Hin|Hout].
      * destruct (disconnect_gone m c Hin) as (Ha' & _ & Hr' & Hi').
        rewrite Ha', Hr', Hi'. done.
      * rewrite disconnect_absent by (by apply eq_None_not_Some). done.
    + destruct (disconnect_same_client m c k Hne) as (Ha' & _ & Hr' & Hi').
      rewrite Ha', Hr', Hi'. done.
  - intros m c v [Hle Hold]. by split.
Qed.

Lemma older_registered n m0 m room_id websocket client_ip peer_name :
  older n m0 m → older n m0 (registered m room_id websocket client_ip peer_name).
Proof.
  intros [Hle Hold]. split; [simpl; lia|].
  intros k Hk. simpl. rewrite !lookup_insert_ne by lia. by apply Hold.
Qed.

Lemma older_refl m : older (client_counter m) m m.
Proof. split; [lia|]. by intros c _. Qed.

Lemma follows_older int_of_str st st' :
  follows int_of_str st st' → older (client_counter (mgr st)) (mgr st) (mgr st').
Proof.
  induction 1 as [|st1 fuel fails ev st2 out _ IH Hstep]; [apply older_refl|].
  apply (step_manager int_of_str fuel fails st1 ev st2 out
           (older (client_counter (mgr st)) (mgr st)));
    [apply stable_older| |done..].
  intros. by apply older_registered.
Qed.

(** X19.  Whatever happens later, an id the counter has handed out never
    gets a connection, a room or an address it did not have: no client is
    moved to another room, given another socket or address, or brought
    back once it has left; the counter never goes down. *)
Theorem records_never_move (int_of_str : string → option Z) (st st' : system)
    (client_id : Z) :
  follows int_of_str st st' →
  client_id ≤ client_counter (mgr st) →
  client_counter (mgr st) ≤ client_counter (mgr st') ∧
  (∀ ws, active_connections (mgr st') !! client_id = Some ws →
         active_connections (mgr st) !! client_id = Some ws) ∧
  (∀ r, client_rooms (mgr st') !! client_id = Some r →
        client_rooms (mgr st) !! client_id = Some r) ∧
  (∀ ip, client_ips (mgr st') !! client_id = Some ip →
         client_ips (mgr st) !! client_id = Some ip).
Proof.
  intros Hfollows Hle. destruct (follows_older _ _ _ Hfollows) as [Hcnt Hold].
  split; [done|]. by apply Hold.
Qed.

Lemma records_never_move_witness :
  client_counter (mgr lobby_of_one) ≤ client_counter (mgr lobby_of_two) ∧
  (∀ ws, active_connections (mgr lobby_of_two) !! 1 = Some ws →
         active_connections (mgr lobby_of_one) !! 1 = Some ws) ∧
  (∀ r, client_rooms (mgr lobby_of_two) !! 1 = Some r →
        client_rooms (mgr lobby_of_one) !! 1 = Some r) ∧
  (∀ ip, client_ips (mgr lobby_of_two) !! 1 = Some ip →
         client_ips (mgr lobby_of_one) !! 1 = Some ip).
Proof.
  apply (records_never_move int_of_digits lobby_of_one lobby_of_two 1).
  - eapply follows_step; [apply follows_refl|].
    apply (lobby_join_step int_of_digits).
  - vm_compute. discriminate.
Defined.

(** ** What a completed join has registered *)

Lemma own_records_disconnect_closed m0 client_id :
  disconnect_closed (λ c, c ≠ client_id) (λ m, same_client m0 m client_id).
Proof.
  intros m c Hne (Ha & Hn & Hr & Hi).
  destruct (disconnect_same_client m c client_id) as (Ha' & Hn' & Hr' & Hi');
    [done|].
  unfold same_client. by rewrite Ha', Hn', Hr', Hi'.
Qed.

(** A join that enters the message loop has left the records of its own
    client as the registration made them. *)
Lemma join_own_records int_of_str fuel fails websocket client_ip first_data
    m m' out client_id room_id :
  join int_of_str fuel fails websocket client_ip first_data m
    = Some (m', out, Some (client_id, room_id)) →
  client_id = client_counter m + 1 ∧
  same_client (registered m room_id websocket client_ip (peer_name_of first_data))
    m' client_id.
Proof.
  intros Hjoin. pose proof Hjoin as Hjoin'.
  apply join_Some in Hjoin' as (req & room & redir & Hreq & Hfind & _ & Hres & _).
  destruct Hres as [[=]|[= -> ->]]. split; [done|].
  unfold join in Hjoin. rewrite Hreq, Hfind in Hjoin.
  fold (registered m room websocket client_ip (peer_name_of first_data)) in Hjoin.
  set (m2 := registered m room websocket client_ip (peer_name_of first_data)) in *.
  injection Hjoin as Hrun. apply protect_Some in Hrun.
  match type of Hrun with ?b _ = _ =>
    assert (preserves (λ m, same_client m2 m (client_counter m2)) b) as Hbody
  end.
  { pose proof (own_records_disconnect_closed m2 (client_counter m2)) as Hclosed.
    repeat (apply preserves_hbind; [|intros ?]);
      first [ apply preserves_ws_send | apply preserves_hret
            | apply preserves_hget
            | apply (preserves_hbroadcast (λ c, c ≠ client_counter m2));
                [done|intros c Hc; simpl in *; congruence]
            | by eapply preserves_process_first_message
            | destruct redir;
                [apply preserves_ws_send | apply preserves_hret] ]. }
  specialize (Hbody m2). rewrite Hrun in Hbody. by apply Hbody.
Qed.

(** X20.  A join that opens a session has registered the new id with the
    socket and the address of the connection and with the room the session
    holds.  Its name record is [peerName], or [name] when [peerName] is
    missing or falsy, and there is no name record at all when that value
    is falsy (absent, null, the empty string, zero or false). *)
Theorem join_registers (int_of_str : string → option Z) (C : Z) (st : system)
    (fuel : nat) (fails : Z → bool) (websocket : WebSocket) (client_ip : string)
    (first_data : message) (st' : system) (out : list send) (room_id : string) :
  reachable int_of_str C st →
  step int_of_str fuel fails st (EvJoin websocket client_ip first_data)
    = Some (st', out) →
  sessions st' !! (client_counter (mgr st) + 1) = Some room_id →
  let client_id := client_counter (mgr st) + 1 in
  active_connections (mgr st') !! client_id = Some websocket ∧
  client_rooms (mgr st') !! client_id = Some room_id ∧
  client_ips (mgr st') !! client_id = Some client_ip ∧
  client_names (mgr st') !! client_id =
    (if truthy (peer_name_of first_data) then Some (peer_name_of first_data)
     else None).
Proof.
  intros Hreach Hstep Hlive.
  assert (sessions st !! (client_counter (mgr st) + 1) = None ∧
          client_names (mgr st) !! (client_counter (mgr st) + 1) = None)
    as [Hnew Hnoname].
  { split; apply eq_None_not_Some; intros Hin;
      (assert (1 ≤ client_counter (mgr st) + 1 ≤ client_counter (mgr st));
       [apply (reachable_bounded int_of_str C st _ Hreach); auto 10|lia]). }
  simpl in Hstep.
  destruct (join _ _ _ _ _ _ _) as [[[m' o] [[c r]|]]|] eqn:Hjoin; [| |done];
    injection Hstep as <- <-; simpl in Hlive; [|congruence].
  apply join_own_records in Hjoin as (-> & Ha & Hn & Hr & Hi).
  rewrite lookup_insert_eq in Hlive. injection Hlive as ->.
  simpl in *. rewrite Ha, Hn, Hr, Hi, !lookup_insert_eq.
  split; [done|]. split; [done|]. split; [done|].
  destruct (truthy (peer_name_of first_data)); [apply lookup_insert_eq|done].
Qed.

Lemma join_registers_witness :
  active_connections (mgr lobby_of_two) !! (client_counter (mgr lobby_of_one) + 1)
    = Some 8%N ∧
  client_rooms (mgr lobby_of_two) !! (client_counter (mgr lobby_of_one) + 1)
    = Some "lobby" ∧
  client_ips (mgr lobby_of_two) !! (client_counter (mgr lobby_of_one) + 1)
    = Some "10.0.0.2" ∧
  client_names (mgr lobby_of_two) !! (client_counter (mgr lobby_of_one) + 1) =
    (if truthy (peer_name_of untargeted_first_offer)
     then Some (peer_name_of untargeted_first_offer) else None).
Proof.
  apply (join_registers int_of_digits 32 lobby_of_one 1%nat no_failure 8%N
           "10.0.0.2" untargeted_first_offer lobby_of_two _ "lobby"
           (lobby_of_one_reachable int_of_digits)
           (lobby_join_step int_of_digits)).
  reflexivity.
Defined.

(** ** Broadcasts without a room filter, and broadcasts cut short *)

(** A broadcast during which nothing interferes. *)
Lemma broadcast_alone fails msg exclude_client_id room_id m :
  broadcast fails msg exclude_client_id room_id (World m []) =
    Some (World (foldl disconnect m
                   (filter (λ c, fails c = true)
                      (recipients m exclude_client_id room_id))) [],
          (λ c, Send c msg) <$> recipients m exclude_client_id room_id,
          Some ()).
Proof.
  pose proof (broadcast_undisturbed fails msg exclude_client_id room_id m) as Hrun.
  unfold undisturbed_at, hbroadcast in Hrun. by rewrite broadcast_eq in Hrun.
Qed.

(** X21.  Called without a room, and with no other coroutine changing the
    manager while it sends, [broadcast] writes the frame once to every
    connected client but the excluded one, whatever their rooms; without
    an excluded client too, to every connected client, in the order of
    their ids.  With any filters, when no socket of a connected client
    raises such a run leaves the manager exactly as it was.  When the
    number of connections changes while the send to one of the recipients
    is awaited, the loop raises [RuntimeError] after that send: the
    recipients after it are not written to, no client is disconnected,
    and the manager is as the other coroutines left it. *)
Theorem broadcast_without_room (fails : Z → bool) (m : ConnectionManager)
    (msg : message) (exclude_client_id : option Z) :
  (∃ m' out,
     broadcast fails msg exclude_client_id None (World m []) =
       Some (World m' [], out, Some ()) ∧
     Forall (λ s, send_body s = msg) out ∧
     NoDup (send_to <$> out) ∧
     (∀ c, c ∈ send_to <$> out ↔
           is_Some (active_connections m !! c) ∧ Some c ≠ exclude_client_id) ∧
     (exclude_client_id = None →
      send_to <$> out = dict_keys (active_connections m))) ∧
  ((∀ c, is_Some (active_connections m !! c) → fails c = false) →
   ∀ room_id,
     broadcast fails msg exclude_client_id room_id (World m []) =
       Some (World m [],
             (λ c, Send c msg) <$> recipients m exclude_client_id room_id,
             Some ())) ∧
  (∀ room_id (f : interference) rest (j : nat),
     (j < length (recipients m exclude_client_id room_id))%nat →
     size (active_connections (f m)) ≠ size (active_connections m) →
     broadcast fails msg exclude_client_id room_id
         (World m (replicate j nothing ++ f :: rest)) =
       Some (World (f m) rest,
             (λ c, Send c msg) <$>
               take (S j) (recipients m exclude_client_id room_id),
             None)).
Proof.
  split; [|split].
  - eexists _, _. split; [apply broadcast_alone|].
    assert (send_to <$> ((λ c, Send c msg) <$>
                           recipients m exclude_client_id None) =
            recipients m exclude_client_id None) as ->
      by (rewrite <-list_fmap_compose; apply list_fmap_id).
    split; [apply Forall_fmap, Forall_true; done|].
    split; [apply NoDup_recipients|]. split.
    + intros c. rewrite elem_of_recipients. unfold is_recipient.
      split; [by intros (? & ? & _)|]. intros [? ?]. split; [done|].
      split; [done|]. by left.
    + intros ->. unfold recipients.
      induction (dict_keys (active_connections m)) as [|c l IH]; [done|].
      rewrite filter_cons_True; [by rewrite IH|]. split; [done|by left].
  - intros Hworks room_id. rewrite broadcast_alone.
    destruct (filter _ _) as [|c l] eqn:Hfailed; [done|].
    assert (c ∈ filter (λ c, fails c = true)
                  (recipients m exclude_client_id room_id)) as Hc
      by (rewrite Hfailed; left).
    apply list_elem_of_filter in Hc as [Hfail [Hin _]%elem_of_recipients].
    rewrite (Hworks c Hin) in Hfail. done.
  - intros room_id f rest j Hj Hsize. by apply broadcast_aborts.
Qed.

Lemma broadcast_without_room_witness :
  broadcast socket_of_1_fails plain_chat None (Some "lobby")
      (World (mgr lobby_of_three)
         (replicate 1 nothing ++ [joining "lobby" 10%N "10.0.0.4" (JStr "D")])) =
    Some (World (joining "lobby" 10%N "10.0.0.4" (JStr "D") (mgr lobby_of_three)) [],
          (λ c, Send c plain_chat) <$>
            take 2 (recipients (mgr lobby_of_three) None (Some "lobby")),
          None).
Proof.
  destruct (broadcast_without_room socket_of_1_fails (mgr lobby_of_three)
              plain_chat None) as (_ & _ & Haborts).
  apply Haborts; vm_compute; [lia|discriminate].
Defined.
